(** * RefSeq CDS/GFF downloader: a shallow embedding of
      [download_refseq_cds_gff.py] and the properties of its specification.

    The script is glue code around three kinds of effects: the file system
    (directories created by the constructor, the archive, the scratch
    directory, the two output folders), the external [datasets] tool
    (sub-processes) and the log.  The embedding threads an explicit world
    through a state-and-exception monad, so that a Python exception is a
    [Raise] result that keeps the side effects made before it.

    Conventions.
    - A path is the list of its components below the working directory; the
      empty path is the working directory itself.  Names built by the script
      with an f-string ([temp_{family}], [{species}_{family}.fna],
      [refseq_{family}_chromosome_data.zip]) are one component: a family is a
      taxon name and holds no path separator.
    - The file system is a finite map from paths to nodes (regular file or
      directory); links, permissions and devices are left out.  The
      primitives of [os], [shutil], [pathlib] and [zipfile] follow their
      POSIX behaviour, failures included.
    - The order in which a directory scan lists its entries is left to the
      operating system; it is a parameter ([order]) of the scan, and the
      properties that depend on it assume no more than that it permutes the
      entries.
    - The external tool is a parameter: any function from the history of
      calls, the command line and the file system to a process result and a
      new file system.
    - A log record keeps its level and the pieces of its message.

    The file has the model first (the primitives, the JSON reader, the class
    and [main]), then the notions used to state the properties and some
    concrete disks and tools, then the properties of the specification,
    then further properties of the code, and last the theorems at explicit
    inputs. *)

From Stdlib Require Import ZArith Ascii String.
From Stdlib Require Decimal DecimalString DecimalN DecimalFacts.
From stdpp Require Import base strings list gmap.

Local Open Scope string_scope.
Local Open Scope list_scope.

(** ** Paths and the file system *)

Abbreviation path := (list string).

(** Contents of a regular file: either a zip archive, given by its members
    in archive order, or anything else.  A member is stored under the
    directories and the name left by the sanitising of [zipfile] (no empty,
    [.] or [..] component); a member without payload is a directory
    entry. *)
#[warnings="-register-all"]
Inductive content : Type :=
| Bytes (data : string)
| Zip (members : list (path * string * option content)).

Abbreviation member := (path * string * option content)%type.

Inductive node : Type :=
| File (c : content)
| Dir.

Abbreviation FS := (gmap (list string) node).

(** [os.stat]: the working directory always exists. *)
Definition stat (fs : FS) (p : path) : option node :=
  match p with
  | [] => Some Dir
  | _ => fs !! p
  end.

Definition exists_ (fs : FS) (p : path) : bool :=
  match stat fs p with Some _ => true | None => false end.

Definition isdir (fs : FS) (p : path) : bool :=
  match stat fs p with Some Dir => true | _ => false end.

Definition isfile (fs : FS) (p : path) : bool :=
  match stat fs p with Some (File _) => true | _ => false end.

Definition dirname (p : path) : path := removelast p.

Definition basename (p : path) : string := default EmptyString (last p).

(** [Path.parent.name]: the name of the immediate parent directory. *)
Definition parent_name (p : path) : string := basename (dirname p).

(** ** Exceptions and the monad *)

Inductive exn : Type :=
| CalledProcessError (returncode : Z) (stderr : string)
| FileNotFoundError
| FileExistsError
| NotADirectoryError
| IsADirectoryError
| DirectoryNotEmpty
| BadZipFile
| ShutilError
| JSONDecodeError
| AttributeError
| TypeError
| SystemExit (code : Z).

(** [except Exception] catches everything but [SystemExit]. *)
Definition is_Exception (e : exn) : bool :=
  match e with SystemExit _ => false | _ => true end.

Definition is_OSError (e : exn) : bool :=
  match e with
  | FileNotFoundError | FileExistsError | NotADirectoryError
  | IsADirectoryError | DirectoryNotEmpty => true
  | _ => false
  end.

Inductive outcome (A : Type) : Type :=
| Ok (a : A)
| Raise (e : exn).
Arguments Ok {A} a.
Arguments Raise {A} e.

Definition M (S A : Type) : Type := S → outcome A * S.

Definition ret {S A} (a : A) : M S A := λ s, (Ok a, s).

Definition bind {S A B} (m : M S A) (k : A → M S B) : M S B :=
  λ s, match m s with
       | (Ok a, s') => k a s'
       | (Raise e, s') => (Raise e, s')
       end.

Definition raise {S A} (e : exn) : M S A := λ s, (Raise e, s).

Definition get {S} : M S S := λ s, (Ok s, s).

Definition put {S} (s : S) : M S unit := λ _, (Ok tt, s).

(** [try: body except <catches> as e: handler e] *)
Definition try_except {S A} (body : M S A) (catches : exn → bool)
    (handler : exn → M S A) : M S A :=
  λ s, match body s with
       | (Raise e, s') => if catches e then handler e s' else (Raise e, s')
       | r => r
       end.

Notation "x <- m ;; k" := (bind m (λ x, k))
  (at level 100, m at next level, right associativity).
Notation "m ;; k" := (bind m (λ _, k))
  (at level 100, right associativity).

(** [for x in l: body x] *)
Fixpoint for_each {S A} (l : list A) (body : A → M S unit) : M S unit :=
  match l with
  | [] => ret tt
  | x :: l' => body x ;; for_each l' body
  end.

(** ** File-system primitives (POSIX behaviour of [os], [shutil], [pathlib]
       and [zipfile]) *)

Definition os_mkdir (p : path) : M FS unit :=
  fs <- get ;;
  match stat fs p with
  | Some _ => raise FileExistsError
  | None =>
      match stat fs (dirname p) with
      | Some Dir => put (<[p := Dir]> fs)
      | Some (File _) => raise NotADirectoryError
      | None => raise FileNotFoundError
      end
  end.

(** [Path.mkdir(exist_ok=True)], with [parents] left at [False]: a missing
    parent is an error, an existing directory is not. *)
Definition Path_mkdir_exist_ok (p : path) : M FS unit :=
  try_except (os_mkdir p)
    (λ e, match e with FileNotFoundError => false | _ => is_OSError e end)
    (λ e, fs <- get ;; if isdir fs p then ret tt else raise e).

(** [os.makedirs]: walks down from the working directory and creates the
    missing directories. *)
Fixpoint makedirs_walk (base rest : path) : M FS unit :=
  match rest with
  | [] => ret tt
  | d :: rest' =>
      fs <- get ;;
      match stat fs (base ++ [d]) with
      | None => put (<[base ++ [d] := Dir]> fs)
      | Some Dir => ret tt
      | Some (File _) => raise NotADirectoryError
      end ;;
      makedirs_walk (base ++ [d]) rest'
  end.

Definition os_makedirs (p : path) : M FS unit :=
  fs <- get ;;
  if exists_ fs p then raise FileExistsError else makedirs_walk [] p.

(** [open(p, "wb")] followed by the write. *)
Definition write_file (p : path) (c : content) : M FS unit :=
  fs <- get ;;
  match stat fs p with
  | Some Dir => raise IsADirectoryError
  | _ =>
      match stat fs (dirname p) with
      | Some Dir => put (<[p := File c]> fs)
      | Some (File _) => raise NotADirectoryError
      | None => raise FileNotFoundError
      end
  end.

(** [ZipFile._extract_member] *)
Definition extract_member (targetpath : path) (m : member) : M FS unit :=
  let '(dirs, name, payload) := m in
  let upperdirs := targetpath ++ dirs in
  fs <- get ;;
  (if bool_decide (upperdirs ≠ []) && negb (exists_ fs upperdirs)
   then os_makedirs upperdirs else ret tt) ;;
  match payload with
  | None =>
      fs <- get ;;
      if isdir fs (upperdirs ++ [name]) then ret tt
      else os_mkdir (upperdirs ++ [name])
  | Some c => write_file (upperdirs ++ [name]) c
  end.

(** [with zipfile.ZipFile(zip_filename, 'r') as zip_ref:
       zip_ref.extractall(targetpath)] *)
Definition extractall (zip_filename targetpath : path) : M FS unit :=
  fs <- get ;;
  match stat fs zip_filename with
  | None => raise FileNotFoundError
  | Some Dir => raise IsADirectoryError
  | Some (File (Bytes _)) => raise BadZipFile
  | Some (File (Zip members)) => for_each members (extract_member targetpath)
  end.

(** The entries strictly below [p]. *)
Definition below (p q : path) : Prop := p `prefix_of` q ∧ p ≠ q.

Global Instance below_dec p q : Decision (below p q).
Proof. unfold below. apply _. Defined.

(** The subtree at [src], re-rooted at [dst]. *)
Definition reroot (src dst : path) (fs : FS) : FS :=
  list_to_map
    (omap (λ '(p, x), if decide (src `prefix_of` p)
                      then Some (dst ++ drop (length src) p, x) else None)
          (map_to_list fs)).

Definition remove_tree (p : path) (fs : FS) : FS :=
  filter (λ '(q, _), ¬ p `prefix_of` q) fs.

Definition is_empty_dir (fs : FS) (p : path) : bool :=
  bool_decide (map_Forall (λ q _, ¬ below p q) fs).

(** [os.rename] *)
Definition os_rename (src dst : path) : M FS unit :=
  fs <- get ;;
  match stat fs src with
  | None => raise FileNotFoundError
  | Some (File c) =>
      match stat fs (dirname dst) with
      | Some Dir =>
          if isdir fs dst then raise IsADirectoryError
          else put (<[dst := File c]> (delete src fs))
      | Some (File _) => raise NotADirectoryError
      | None => raise FileNotFoundError
      end
  | Some Dir =>
      if bool_decide (src = dst) then ret tt
      else if bool_decide (src `prefix_of` dst) then raise ShutilError
      else match stat fs (dirname dst) with
           | Some Dir =>
               match stat fs dst with
               | Some (File _) => raise NotADirectoryError
               | Some Dir =>
                   if is_empty_dir fs dst
                   then put (reroot src dst fs ∪ remove_tree src fs)
                   else raise DirectoryNotEmpty
               | None => put (reroot src dst fs ∪ remove_tree src fs)
               end
           | Some (File _) => raise NotADirectoryError
           | None => raise FileNotFoundError
           end
  end.

(** [shutil.rmtree] *)
Definition rmtree (p : path) : M FS unit :=
  fs <- get ;;
  match stat fs p with
  | Some Dir => put (remove_tree p fs)
  | Some (File _) => raise NotADirectoryError
  | None => raise FileNotFoundError
  end.

(** [os.remove] *)
Definition os_remove (p : path) : M FS unit :=
  fs <- get ;;
  match stat fs p with
  | Some (File _) => put (delete p fs)
  | Some Dir => raise IsADirectoryError
  | None => raise FileNotFoundError
  end.

(** [shutil.copytree] into a destination that must not exist, used by
    [shutil.move] when [os.rename] refuses a directory. *)
Definition copytree (src dst : path) : M FS unit :=
  os_makedirs dst ;;
  fs <- get ;;
  put (reroot src dst fs ∪ fs).

(** [shutil.move] *)
Definition shutil_move (src dst : path) : M FS unit :=
  fs <- get ;;
  if isdir fs dst then
    if bool_decide (src = dst) then os_rename src dst
    else
      let real_dst := dst ++ [basename src] in
      if exists_ fs real_dst then raise ShutilError
      else os_rename src real_dst
  else
    try_except (os_rename src dst) is_OSError
      (λ e,
        fs <- get ;;
        if isdir fs src then
          if bool_decide (src `prefix_of` dst) then raise ShutilError
          else copytree src dst ;; rmtree src
        else
          (* copy2 then unlink: fails where the rename did *)
          raise e).

(** ** JSON, as [json.loads] reads it

    Text is a byte string in UTF-8: the marker test and the comparison of
    keys with the ASCII key [record_count] are the same on bytes and on code
    points. *)

#[warnings="-register-all"]
Inductive json : Type :=
| JNull
| JBool (b : bool)
| JInt (z : Z)
| JFloat (negative : bool) (digits : N) (exponent : Z)
| JNaN
| JInfinity (negative : bool)
| JString (s : string)
| JArray (items : list json)
| JObject (items : list (string * json)).

Module Json.

Definition dquote : ascii := ascii_of_N 34.
Definition backslash : ascii := ascii_of_N 92.

(** A JSON string literal: the text between double quotes. *)
Definition quoted (s : string) : string :=
  String dquote (s +:+ String dquote EmptyString).

Definition is_ws (c : ascii) : bool :=
  let n := nat_of_ascii c in
  (n =? 32)%nat || (n =? 9)%nat || (n =? 10)%nat || (n =? 13)%nat.

Fixpoint skip_ws (s : list ascii) : list ascii :=
  match s with
  | c :: r => if is_ws c then skip_ws r else s
  | [] => []
  end.

Definition digit (c : ascii) : option N :=
  let n := N_of_ascii c in
  if (48 <=? n)%N && (n <=? 57)%N then Some (n - 48)%N else None.

Definition hex (c : ascii) : option N :=
  let n := N_of_ascii c in
  if (48 <=? n)%N && (n <=? 57)%N then Some (n - 48)%N
  else if (65 <=? n)%N && (n <=? 70)%N then Some (n - 55)%N
  else if (97 <=? n)%N && (n <=? 102)%N then Some (n - 87)%N
  else None.

(** The longest run of digits at the head: their value, how many there
    are, and the rest. *)
Fixpoint digits (acc : N) (count : nat) (s : list ascii) : N * nat * list ascii :=
  match s with
  | c :: r =>
      match digit c with
      | Some d => digits (10 * acc + d)%N (S count) r
      | None => (acc, count, s)
      end
  | [] => (acc, count, [])
  end.

Definition strip_literal (lit : string) (s : list ascii) : option (list ascii) :=
  let l := list_ascii_of_string lit in
  if bool_decide (take (length l) s = l) then Some (drop (length l) s) else None.

(** [_match_number]: integer part, then a fraction and an exponent where
    they are complete; an incomplete one is left in the rest. *)
Definition number (s : list ascii) : option (json * list ascii) :=
  let '(neg, s1) :=
    match s with
    | "-"%char :: r => (true, r)
    | _ => (false, s)
    end in
  match s1 with
  | [] => None
  | c :: r =>
      match digit c with
      | None => None
      | Some d =>
          let '(ip, s2) :=
            if (d =? 0)%N then (0%N, r)
            else let '(v, _, r') := digits d 1 r in (v, r') in
          let '(mant, fcount, s3, has_frac) :=
            match s2 with
            | "."%char :: r2 =>
                match digits ip 0 r2 with
                | (_, O, _) => (ip, O, s2, false)
                | (v, n, r3) => (v, n, r3, true)
                end
            | _ => (ip, O, s2, false)
            end in
          let '(ex, s4, has_exp) :=
            match s3 with
            | e :: r3 =>
                if bool_decide (e = "e"%char ∨ e = "E"%char) then
                  let '(eneg, r4) :=
                    match r3 with
                    | "-"%char :: r' => (true, r')
                    | "+"%char :: r' => (false, r')
                    | _ => (false, r3)
                    end in
                  match digits 0 0 r4 with
                  | (_, O, _) => (0%Z, s3, false)
                  | (v, _, r5) =>
                      ((if eneg then - Z.of_N v else Z.of_N v)%Z, r5, true)
                  end
                else (0%Z, s3, false)
            | [] => (0%Z, s3, false)
            end in
          if has_frac || has_exp
          then Some (JFloat neg mant (ex - Z.of_nat fcount), s4)
          else Some (JInt (if neg then - Z.of_N ip else Z.of_N ip), s4)
      end
  end.

(** UTF-8 bytes of a code point (a lone surrogate is encoded like any
    other three-byte code point). *)
Definition utf8 (cp : N) : list ascii :=
  let b (n : N) := ascii_of_N n in
  if (cp <? 128)%N then [b cp]
  else if (cp <? 2048)%N then
    [b (192 + cp / 64); b (128 + cp mod 64)]%N
  else if (cp <? 65536)%N then
    [b (224 + cp / 4096); b (128 + (cp / 64) mod 64); b (128 + cp mod 64)]%N
  else
    [b (240 + cp / 262144); b (128 + (cp / 4096) mod 64);
     b (128 + (cp / 64) mod 64); b (128 + cp mod 64)]%N.

Definition hex4 (s : list ascii) : option (N * list ascii) :=
  match s with
  | a :: b :: c :: d :: r =>
      match hex a, hex b, hex c, hex d with
      | Some x, Some y, Some z, Some t =>
          Some ((((x * 16 + y) * 16 + z) * 16 + t)%N, r)
      | _, _, _, _ => None
      end
  | _ => None
  end.

(** [scanstring] after the opening quote, in strict mode. *)
Fixpoint scanstring (fuel : nat) (acc : list ascii) (s : list ascii)
    : option (string * list ascii) :=
  match fuel with
  | O => None
  | S fuel' =>
      match s with
      | [] => None
      | c :: r =>
          if bool_decide (c = dquote) then
            Some (string_of_list_ascii (reverse acc), r)
          else if bool_decide (c = backslash) then
            match r with
            | [] => None
            | "u"%char :: r1 =>
                match hex4 r1 with
                | None => None
                | Some (hi, r2) =>
                    let pair :=
                      if (55296 <=? hi)%N && (hi <=? 56319)%N then
                        match r2 with
                        | b :: "u"%char :: r3 =>
                            if bool_decide (b = backslash) then
                              match hex4 r3 with
                              | Some (lo, r4) =>
                                  if (56320 <=? lo)%N && (lo <=? 57343)%N
                                  then Some ((65536 + (hi - 55296) * 1024
                                              + (lo - 56320))%N, r4)
                                  else None
                              | None => None
                              end
                            else None
                        | _ => None
                        end
                      else None in
                    let '(cp, r') := default (hi, r2) pair in
                    scanstring fuel' (reverse (utf8 cp) ++ acc) r'
                end
            | e :: r1 =>
                let esc (n : N) := scanstring fuel' (ascii_of_N n :: acc) r1 in
                if bool_decide (e = dquote) then esc 34%N
                else if bool_decide (e = backslash) then esc 92%N
                else if bool_decide (e = "/"%char) then esc 47%N
                else if bool_decide (e = "b"%char) then esc 8%N
                else if bool_decide (e = "f"%char) then esc 12%N
                else if bool_decide (e = "n"%char) then esc 10%N
                else if bool_decide (e = "r"%char) then esc 13%N
                else if bool_decide (e = "t"%char) then esc 9%N
                else None
            end
          else if (N_of_ascii c <? 32)%N then None
          else scanstring fuel' (c :: acc) r
      end
  end.

(** [scan_once] with the array and object loops; each takes the text from
    its current position and gives the value and the rest. *)
Fixpoint value (fuel : nat) (s : list ascii) : option (json * list ascii) :=
  match fuel with
  | O => None
  | S fuel' =>
      match s with
      | [] => None
      | c :: r =>
          if bool_decide (c = dquote) then
            '(k, r') ← scanstring (S (length r)) [] r; Some (JString k, r')
          else if bool_decide (c = "{"%char) then
            match skip_ws r with
            | "}"%char :: r' => Some (JObject [], r')
            | q :: r' =>
                if bool_decide (q = dquote) then members fuel' [] r' else None
            | [] => None
            end
          else if bool_decide (c = "["%char) then
            match skip_ws r with
            | "]"%char :: r' => Some (JArray [], r')
            | r' => elements fuel' [] r'
            end
          else if bool_decide (c = "n"%char) then
            r' ← strip_literal "null" s; Some (JNull, r')
          else if bool_decide (c = "t"%char) then
            r' ← strip_literal "true" s; Some (JBool true, r')
          else if bool_decide (c = "f"%char) then
            r' ← strip_literal "false" s; Some (JBool false, r')
          else if bool_decide (c = "N"%char) then
            r' ← strip_literal "NaN" s; Some (JNaN, r')
          else if bool_decide (c = "I"%char) then
            r' ← strip_literal "Infinity" s; Some (JInfinity false, r')
          else
            match strip_literal "-Infinity" s with
            | Some r' => Some (JInfinity true, r')
            | None => number s
            end
      end
  end
with elements (fuel : nat) (acc : list json) (s : list ascii)
    : option (json * list ascii) :=
  match fuel with
  | O => None
  | S fuel' =>
      '(v, r) ← value fuel' s;
      match skip_ws r with
      | "]"%char :: r' => Some (JArray (reverse (v :: acc)), r')
      | ","%char :: r' => elements fuel' (v :: acc) (skip_ws r')
      | _ => None
      end
  end
with members (fuel : nat) (acc : list (string * json)) (s : list ascii)
    : option (json * list ascii) :=
  (* [s] starts after the opening quote of a key *)
  match fuel with
  | O => None
  | S fuel' =>
      '(k, r) ← scanstring (S (length s)) [] s;
      match skip_ws r with
      | ":"%char :: r1 =>
          '(v, r2) ← value fuel' (skip_ws r1);
          match skip_ws r2 with
          | "}"%char :: r' => Some (JObject (reverse ((k, v) :: acc)), r')
          | ","%char :: r' =>
              match skip_ws r' with
              | q :: r'' =>
                  if bool_decide (q = dquote)
                  then members fuel' ((k, v) :: acc) r'' else None
              | [] => None
              end
          | _ => None
          end
      | _ => None
      end
  end.

(** [json.loads]: one value between optional white space, nothing after;
    [None] stands for [JSONDecodeError]. *)
Definition loads (text : string) : option json :=
  let s := list_ascii_of_string text in
  '(v, r) ← value (S (length s)) (skip_ws s);
  match skip_ws r with
  | [] => Some v
  | _ => None
  end.

End Json.

(** [dict.get(key, default)] on a decoded value; a later duplicate of a key
    replaces an earlier one, and anything but an object has no [get]. *)
Definition dict_get (key : string) (default : json) (data : json) : option json :=
  match data with
  | JObject items =>
      Some (foldl (λ acc '(k, v), if String.eqb k key then v else acc)
                  default items)
  | _ => None
  end.

(** [value > 0] for a decoded value: [None] where Python raises
    [TypeError].  A float literal is positive when it does not round to
    zero, that is when it exceeds 2^-1075. *)
Definition gt_zero (v : json) : option bool :=
  match v with
  | JInt z => Some (0 <? z)%Z
  | JBool b => Some b
  | JFloat neg d e =>
      Some (negb neg && (0 <? d)%N &&
            ((0 <=? e)%Z || (10 ^ (- e) <? Z.of_N d * 2 ^ 1075)%Z))
  | JNaN => Some false
  | JInfinity neg => Some (negb neg)
  | JNull | JString _ | JArray _ | JObject _ => None
  end.

(** [needle in haystack] *)
Fixpoint contains (needle haystack : string) : bool :=
  String.prefix needle haystack ||
  match haystack with
  | EmptyString => false
  | String _ rest => contains needle rest
  end.


(** ** The world: file system, log and sub-process calls *)

Inductive level : Type := INFO | WARNING | ERROR.

(** The pieces of a formatted message: literal text (with the string
    arguments already in place) and the values whose rendering is Python's
    business. *)
Inductive fragment : Type :=
| Text (s : string)
| Stripped (s : string)
| OfPath (p : path)
| OfJson (v : json)
| OfNat (n : nat)
| OfExn (e : exn).

Abbreviation message := (list fragment).

Record World : Type := mkWorld {
  fs : FS;
  log : list (level * message);
  calls : list (list string);
}.

(** What starting a process gives: the program cannot be started, or it
    runs to an exit status with its captured output. *)
Inductive process : Type :=
| NotStarted
| Exited (returncode : Z) (stdout stderr : string).

Definition lift {A} (m : M FS A) : M World A :=
  λ w, let '(r, fs') := m (fs w) in
       (r, {| fs := fs'; log := log w; calls := calls w |}).

Definition logger (l : level) (msg : message) : M World unit :=
  λ w, (Ok tt, {| fs := fs w; log := log w ++ [(l, msg)]; calls := calls w |}).

Definition join (sep : string) (l : list string) : string :=
  match l with
  | [] => EmptyString
  | x :: l' => foldl (λ acc y, acc +:+ sep +:+ y) x l'
  end.

(** [fnmatch] of a name against the two patterns of the organizer. *)
Definition is_cds_name (name : string) : bool :=
  String.eqb name "cds_from_genomic.fna".

Fixpoint ends_with (suffix s : string) : bool :=
  String.eqb suffix s ||
  match s with
  | EmptyString => false
  | String _ rest => ends_with suffix rest
  end.

Definition is_gff_name (name : string) : bool := ends_with ".gff" name.

Definition DATASETS_TOOL : string := "/home5/ibirchl/Bioinformatics_tools/datasets".

Record RefSeqDataDownloader : Type := mkDownloader {
  output_dir : path;
  datasets_tool : string;
  cds_dir : path;
  gff_dir : path;
}.

Record Args : Type := mkArgs {
  arg_family : string;
  arg_output_dir : path;
  arg_no_cds : bool;
  arg_no_gff : bool;
  arg_datasets_tool : string;
}.

Definition temp_dir (family : string) : path := ["temp_" +:+ family].

Definition cds_new_name (family : string) (cds_file : path) : string :=
  parent_name cds_file +:+ "_" +:+ family +:+ ".fna".

Definition gff_new_name (family : string) (gff_file : path) : string :=
  parent_name gff_file +:+ "_" +:+ family +:+ ".gff".

Definition zip_name (family : string) : string :=
  "refseq_" +:+ family +:+ "_chromosome_data.zip".

(** The three command lines given to the tool. *)
Definition version_cmd (tool_path : string) : list string :=
  [tool_path; "--version"].

Definition preview_cmd (tool_path family : string) : list string :=
  [tool_path; "download"; "genome"; "taxon"; family;
   "--include"; "cds,gff3";
   "--assembly-level"; "chromosome";
   "--preview"].

Definition download_cmd (tool_path family include_param filename : string)
    : list string :=
  [tool_path; "download"; "genome"; "taxon"; family;
   "--include"; include_param;
   "--assembly-level"; "chromosome";
   "--filename"; filename].

Section Downloader.

(** The external tool: from the calls made so far, the command line and
    the file system to the process result and the file system it leaves. *)
Variable tool : list (list string) → list string → FS → process * FS.

(** The order in which a scan lists the entries it found. *)
Variable order : list path → list path.

(** [subprocess.run(cmd, capture_output=True, text=True, check=True)],
    giving the captured standard output. *)
Definition subprocess_run (cmd : list string) : M World string :=
  λ w,
    match tool (calls w) cmd (fs w) with
    | (NotStarted, _) =>
        (Raise FileNotFoundError,
         {| fs := fs w; log := log w; calls := calls w ++ [cmd] |})
    | (Exited rc out err, fs') =>
        (if (rc =? 0)%Z then Ok out else Raise (CalledProcessError rc err),
         {| fs := fs'; log := log w; calls := calls w ++ [cmd] |})
    end.

(** [list(dir.rglob(pattern))]: every entry strictly below [dir], file or
    directory, whose name matches. *)
Definition rglob (dir : path) (matches : string → bool) (fs : FS) : list path :=
  if isdir fs dir
  then order (filter (λ p, below dir p ∧ matches (basename p) = true)
                     (map_to_list fs).*1)
  else [].

Definition scan (dir : path) (matches : string → bool) : M World (list path) :=
  λ w, (Ok (rglob dir matches (fs w)), w).

(** [__init__]: the attributes, then the three directories. *)
Definition new_downloader (out_dir : path) (tool_path : string)
    : RefSeqDataDownloader :=
  {| output_dir := out_dir;
     datasets_tool := tool_path;
     cds_dir := out_dir ++ ["cds_files"];
     gff_dir := out_dir ++ ["gff_files"] |}.

Definition init (out_dir : path) (tool_path : string)
    : M World RefSeqDataDownloader :=
  let self := new_downloader out_dir tool_path in
  lift (Path_mkdir_exist_ok (self.(output_dir))) ;;
  lift (Path_mkdir_exist_ok (self.(cds_dir))) ;;
  lift (Path_mkdir_exist_ok (self.(gff_dir))) ;;
  ret self.

Definition check_datasets_tool (self : RefSeqDataDownloader) : M World bool :=
  try_except
    (out <- subprocess_run (version_cmd self.(datasets_tool)) ;;
     logger INFO [Text "NCBI datasets tool version: "; Stripped out] ;;
     ret true)
    (λ e, match e with
          | CalledProcessError _ _ | FileNotFoundError => true
          | _ => false
          end)
    (λ e, logger ERROR [Text "Error accessing datasets tool: "; OfExn e] ;;
          ret false).

Definition get_available_species (self : RefSeqDataDownloader)
    (family : string) : M World (list string) :=
  logger INFO [Text ("Searching for available " +:+ family +:+
                     " species with chromosome-level assemblies...")] ;;
  try_except
    (let cmd := preview_cmd self.(datasets_tool) family in
     stdout <- subprocess_run cmd ;;
     if contains "record_count" stdout then
       data <- match Json.loads stdout with
               | Some v => ret v
               | None => raise JSONDecodeError
               end ;;
       record_count <- match dict_get "record_count" (JInt 0) data with
                       | Some v => ret v
                       | None => raise AttributeError
                       end ;;
       logger INFO [Text "Found "; OfJson record_count;
                    Text (" " +:+ family +:+ " genomes with chromosome-level"
                          +:+ " assemblies and CDS/GFF annotations")] ;;
       positive <- match gt_zero record_count with
                   | Some b => ret b
                   | None => raise TypeError
                   end ;;
       if positive then ret [family]
       else
         logger WARNING [Text ("No " +:+ family +:+
                   " genomes with chromosome-level assemblies found")] ;;
         ret []
     else
       logger WARNING [Text ("No " +:+ family +:+
                 " genomes with chromosome-level assemblies found")] ;;
       ret [])
    (λ e, match e with CalledProcessError _ _ => true | _ => false end)
    (λ e, logger ERROR [Text ("Error searching for " +:+ family +:+
                              " species: "); OfExn e] ;;
          ret []).

Definition include_param (include_cds include_gff : bool) : string :=
  let include_files :=
    (if include_cds then ["cds"] else []) ++
    (if include_gff then ["gff3"] else []) in
  let include_files :=
    match include_files with
    | [] => ["cds"; "gff3"]
    | _ => include_files
    end in
  join "," include_files.

Definition download_genome_data (self : RefSeqDataDownloader)
    (family : string) (include_cds include_gff : bool)
    : M World (option string) :=
  logger INFO [Text ("Downloading genome data for " +:+ family +:+
                     " (chromosome-level assemblies only)...")] ;;
  let filename := zip_name family in
  try_except
    (let cmd := download_cmd self.(datasets_tool) family
                   (include_param include_cds include_gff) filename in
     logger INFO [Text ("Running command: " +:+ join " " cmd)] ;;
     subprocess_run cmd ;;
     logger INFO [Text ("Download completed for " +:+ family)] ;;
     ret (Some filename))
    (λ e, match e with CalledProcessError _ _ => true | _ => false end)
    (λ e, logger ERROR [Text ("Error downloading data for " +:+ family +:+ ": ");
                        OfExn e] ;;
          logger ERROR [Text "stderr: ";
                        Text (match e with
                              | CalledProcessError _ err => err
                              | _ => EmptyString
                              end)] ;;
          ret None).

(** The bodies of the two loops that rename and move the matched files. *)
Definition move_cds (self : RefSeqDataDownloader) (family : string)
    (cds_file : path) : M World unit :=
  let new_name := cds_new_name family cds_file in
  lift (shutil_move cds_file (self.(cds_dir) ++ [new_name])) ;;
  logger INFO [Text ("Moved CDS file: " +:+ new_name)].

Definition move_gff (self : RefSeqDataDownloader) (family : string)
    (gff_file : path) : M World unit :=
  let new_name := gff_new_name family gff_file in
  lift (shutil_move gff_file (self.(gff_dir) ++ [new_name])) ;;
  logger INFO [Text ("Moved GFF file: " +:+ new_name)].

(** The warning of a run that matched nothing, with the listing of what
    the scratch tree holds. *)
Definition warn_no_files (family : string) : M World unit :=
  logger WARNING [Text ("No CDS or GFF files found for " +:+ family +:+
                        ". This may indicate:")] ;;
  logger WARNING [Text "  - The genome assemblies don't have gene annotations"] ;;
  logger WARNING [Text "  - Annotations are in a different format"] ;;
  logger WARNING [Text "  - Only raw genome sequences are available"] ;;
  all_files <- scan (temp_dir family) (λ _, true) ;;
  logger INFO [Text ("Available files in " +:+ family +:+ " dataset:")] ;;
  for_each all_files (λ file_path,
    w <- get ;;
    if isfile (fs w) file_path
    then logger INFO [Text "  - ";
                      OfPath (drop (length (temp_dir family)) file_path)]
    else ret tt).

(** The body of the [try] of [extract_and_organize_files]. *)
Definition organize (self : RefSeqDataDownloader) (zip_filename : path)
    (family : string) : M World bool :=
  lift (extractall zip_filename (temp_dir family)) ;;
  cds_files <- scan (temp_dir family) is_cds_name ;;
  for_each cds_files (move_cds self family) ;;
  gff_files <- scan (temp_dir family) is_gff_name ;;
  for_each gff_files (move_gff self family) ;;
  let total_files := length cds_files + length gff_files in
  (if (total_files =? 0)%nat then warn_no_files family else ret tt) ;;
  lift (rmtree (temp_dir family)) ;;
  lift (os_remove zip_filename) ;;
  ret (0 <? total_files)%nat.

Definition extract_and_organize_files (self : RefSeqDataDownloader)
    (zip_filename : path) (family : string) : M World bool :=
  logger INFO [Text "Extracting and organizing files from ";
               OfPath zip_filename; Text "..."] ;;
  w <- get ;;
  if negb (exists_ (fs w) zip_filename) then
    logger ERROR [Text "Zip file "; OfPath zip_filename; Text " not found"] ;;
    ret false
  else
    try_except (organize self zip_filename family) is_Exception
      (λ e, logger ERROR [Text "Error extracting files: "; OfExn e] ;;
            ret false).

(** [for x in l: acc = body x acc], for a loop that updates a counter. *)
Fixpoint for_fold {S A B} (l : list A) (acc : B) (body : A → B → M S B)
    : M S B :=
  match l with
  | [] => ret acc
  | x :: l' => acc' <- body x acc ;; for_fold l' acc' body
  end.

Definition download_family_data (self : RefSeqDataDownloader)
    (family : string) (include_cds include_gff : bool) : M World bool :=
  available_species <- get_available_species self family ;;
  match available_species with
  | [] =>
      logger ERROR [Text ("No " +:+ family +:+
                " species with chromosome-level assemblies found")] ;;
      ret false
  | _ =>
      logger INFO [Text "Found "; OfNat (length available_species);
                   Text (" " +:+ family +:+
                         " taxa with chromosome-level assemblies")] ;;
      success_count <-
        for_fold available_species 0%nat (λ taxon success_count,
          logger INFO [Text ("Processing " +:+ taxon +:+ "...")] ;;
          zip_filename <- download_genome_data self taxon include_cds include_gff ;;
          match zip_filename with
          | Some zip =>
              ok <- extract_and_organize_files self [zip] taxon ;;
              if ok then
                logger INFO [Text ("Successfully processed " +:+ taxon)] ;;
                ret (success_count + 1)%nat
              else
                logger ERROR [Text ("Failed to extract files for " +:+ taxon)] ;;
                ret success_count
          | None =>
              logger ERROR [Text ("Failed to download data for " +:+ taxon)] ;;
              ret success_count
          end) ;;
      logger INFO [Text "Successfully processed "; OfNat success_count;
                   Text "/"; OfNat (length available_species); Text " taxa"] ;;
      ret (0 <? success_count)%nat
  end.

Definition sys_exit {A} (code : Z) : M World A := raise (SystemExit code).

(** [main], from the parsed arguments on. *)
Definition main (args : Args) : M World unit :=
  downloader <- init args.(arg_output_dir) args.(arg_datasets_tool) ;;
  ok <- check_datasets_tool downloader ;;
  (if negb ok then
     logger ERROR [Text "NCBI datasets tool not available. Please check the path."] ;;
     sys_exit 1
   else ret tt) ;;
  let include_cds := negb args.(arg_no_cds) in
  let include_gff := negb args.(arg_no_gff) in
  (if negb include_cds && negb include_gff then
     logger ERROR [Text "At least one of CDS or GFF files must be downloaded"] ;;
     sys_exit 1
   else ret tt) ;;
  logger INFO [Text ("Downloading data for family: " +:+ args.(arg_family))] ;;
  success <- download_family_data downloader args.(arg_family)
               include_cds include_gff ;;
  if success then
    logger INFO [Text "Download process completed successfully!"] ;;
    logger INFO [Text "CDS files saved to: "; OfPath downloader.(cds_dir)] ;;
    logger INFO [Text "GFF files saved to: "; OfPath downloader.(gff_dir)]
  else
    logger ERROR [Text "Download process failed!"] ;;
    sys_exit 1.

(** The status the process ends with: an uncaught exception other than
    [SystemExit] prints a traceback and gives status 1. *)
Definition exit_status {A} (r : outcome A) : Z :=
  match r with
  | Ok _ => 0
  | Raise (SystemExit code) => code
  | Raise _ => 1
  end.

End Downloader.

(** ** Notions used to state the properties *)

(** The file system after moving the entry at [f] to [dst f]. *)
Definition place (dst : path → path) (fs : FS) (f : path) : FS :=
  match fs !! f with
  | Some x => <[dst f := x]> (delete f fs)
  | None => fs
  end.

Definition node_is_dir (x : node) : bool :=
  match x with Dir => true | File _ => false end.

(** A folder is flat when it holds no directory. *)
Definition flat (dir : path) (fs : FS) : Prop :=
  map_Forall (λ p x, dirname p = dir → node_is_dir x = false) fs.

(** Every entry below [dir] whose name matches one of the two patterns is a
    regular file. *)
Definition matches_are_files (dir : path) (fs : FS) : Prop :=
  map_Forall (λ p x, below dir p →
                     is_cds_name (basename p) || is_gff_name (basename p) = true →
                     node_is_dir x = false) fs.

(** An entry below [dir] whose name matches. *)
Definition matched (m : string → bool) (dir : path) (fs : FS) (f : path) : Prop :=
  below dir f ∧ m (basename f) = true ∧ is_Some (fs !! f).

(** What a loop of moves into [dir] needs of the file system it starts
    from: the folder exists and is flat, and the entries to move are regular
    files. *)
Definition movable (dir : path) (l : list path) (fs : FS) : Prop :=
  stat fs dir = Some Dir ∧
  (∀ f, f ∈ l → ∃ c, stat fs f = Some (File c)) ∧
  (∀ n, fs !! (dir ++ [n]) ≠ Some Dir).

(** The conditions of a run of the organizer that goes through: the
    extraction succeeds and leaves the scratch directory, the output
    directory and the archive lie outside the scratch directory, the
    archive outside the two output folders, the two folders exist and are
    flat, and what matches in the extracted tree is regular files. *)
Record organizable (self : RefSeqDataDownloader) (zip_filename : path)
    (family : string) (fs0 fs1 : FS) : Prop := {
  org_extract : extractall zip_filename (temp_dir family) fs0 = (Ok tt, fs1);
  org_scratch : stat fs1 (temp_dir family) = Some Dir;
  org_out : ¬ temp_dir family `prefix_of` self.(output_dir);
  org_zip_scratch : ¬ temp_dir family `prefix_of` zip_filename;
  org_zip_cds : ¬ self.(cds_dir) `prefix_of` zip_filename;
  org_zip_gff : ¬ self.(gff_dir) `prefix_of` zip_filename;
  org_cds_dir : stat fs0 self.(cds_dir) = Some Dir;
  org_gff_dir : stat fs0 self.(gff_dir) = Some Dir;
  org_cds_flat : flat self.(cds_dir) fs0;
  org_gff_flat : flat self.(gff_dir) fs0;
  org_files : matches_are_files (temp_dir family) fs1;
}.

(** The world after one more log record. *)
Definition logged (l : level) (msg : message) (w : World) : World :=
  {| fs := fs w; log := log w ++ [(l, msg)]; calls := calls w |}.

(** Log records the properties name. *)
Definition start_message (zip_filename : path) : message :=
  [Text "Extracting and organizing files from "; OfPath zip_filename; Text "..."].

Definition no_files_warning (family : string) : level * message :=
  (WARNING, [Text ("No CDS or GFF files found for " +:+ family +:+
                   ". This may indicate:")]).

Definition searching_message (family : string) : level * message :=
  (INFO, [Text ("Searching for available " +:+ family +:+
                " species with chromosome-level assemblies...")]).




(** The three directories of a downloader exist. *)
Definition directories_exist (self : RefSeqDataDownloader) (fs : FS) : Prop :=
  isdir fs self.(output_dir) = true ∧
  isdir fs self.(cds_dir) = true ∧
  isdir fs self.(gff_dir) = true.

(** ** Notions used to state the further properties *)

(** The file system a process leaves: a program that cannot be started
    changes nothing. *)
Definition left_by (r : process * FS) (fs : FS) : FS :=
  match r with
  | (NotStarted, _) => fs
  | (Exited _ _ _, fs') => fs'
  end.

Definition found_message (v : json) (family : string) : level * message :=
  (INFO, [Text "Found "; OfJson v;
          Text (" " +:+ family +:+ " genomes with chromosome-level"
                +:+ " assemblies and CDS/GFF annotations")]).

Definition no_genomes_warning (family : string) : level * message :=
  (WARNING, [Text ("No " +:+ family +:+
                   " genomes with chromosome-level assemblies found")]).

(** The log records of the orchestrator around its one taxon. *)
Definition summary (n : nat) : level * message :=
  (INFO, [Text "Successfully processed "; OfNat n; Text "/"; OfNat 1;
          Text " taxa"]).

Definition download_records (tool_path family include : string)
    : list (level * message) :=
  [(INFO, [Text "Found "; OfNat 1;
           Text (" " +:+ family +:+ " taxa with chromosome-level assemblies")]);
   (INFO, [Text ("Processing " +:+ family +:+ "...")]);
   (INFO, [Text ("Downloading genome data for " +:+ family +:+
                 " (chromosome-level assemblies only)...")]);
   (INFO, [Text ("Running command: " +:+
                 join " " (download_cmd tool_path family include
                             (zip_name family)))])].

(** The exceptions of the prober and of the retriever that nothing
    catches. *)
Definition tool_error (e : exn) : Prop :=
  e = FileNotFoundError ∨ e = JSONDecodeError ∨ e = AttributeError ∨
  e = TypeError.

(** The commands of a whole run, in the order [main] issues them. *)
Definition commands_of_a_run (args : Args) : list (list string) :=
  [version_cmd args.(arg_datasets_tool);
   preview_cmd args.(arg_datasets_tool) args.(arg_family);
   download_cmd args.(arg_datasets_tool) args.(arg_family)
     (include_param (negb args.(arg_no_cds)) (negb args.(arg_no_gff)))
     (zip_name args.(arg_family))].

(** The world in which [main] calls the orchestrator: one more record. *)
Definition announced (args : Args) (w : World) : World :=
  logged INFO [Text ("Downloading data for family: " +:+ args.(arg_family))] w.

Definition success_records (self : RefSeqDataDownloader) : list (level * message) :=
  [(INFO, [Text "Download process completed successfully!"]);
   (INFO, [Text "CDS files saved to: "; OfPath self.(cds_dir)]);
   (INFO, [Text "GFF files saved to: "; OfPath self.(gff_dir)])].

(** *** What a computation may change *)

(** [fs'] is [fs] everywhere outside the region [R]. *)
Definition same_outside (R : path → Prop) (fs fs' : FS) : Prop :=
  ∀ p, ¬ R p → fs' !! p = fs !! p.

(** A file-system operation that, whatever its outcome, changes nothing
    outside [R] and raises nothing but an [Exception]. *)
Definition fs_local_at {A : Type} (R : path → Prop) (m : M FS A) (fs : FS)
    : Prop :=
  ∀ r fs', m fs = (r, fs') →
    same_outside R fs fs' ∧
    match r with Ok _ => True | Raise e => is_Exception e = true end.

Abbreviation fs_local R m := (∀ fs, fs_local_at R m fs).

(** A computation that, started in [w], runs no process, only adds to the
    log, raises nothing but an [Exception], and changes the disk inside [R]
    when it returns and inside [Rx] when it raises. *)
Definition local_at {A : Type} (R Rx : path → Prop) (m : M World A) (w : World) : Prop :=
  ∀ r w', m w = (r, w') →
    calls w' = calls w ∧ (∃ lg, log w' = log w ++ lg) ∧
    match r with
    | Ok _ => same_outside R (fs w) (fs w')
    | Raise e => same_outside Rx (fs w) (fs w') ∧ is_Exception e = true
    end.

(** The part of the disk the extractor works on: the scratch tree, the two
    output folders with what they hold, and the directories above them. *)
Definition workspace (self : RefSeqDataDownloader) (family : string)
    (p : path) : Prop :=
  temp_dir family `prefix_of` p ∨
  self.(cds_dir) `prefix_of` p ∨ self.(gff_dir) `prefix_of` p ∨
  p `prefix_of` self.(cds_dir) ∨ p `prefix_of` self.(gff_dir).

(** *** Reports of the tool *)

(** A character that a JSON string holds as it is. *)
Definition plain (c : ascii) : Prop :=
  c ≠ Json.dquote ∧ c ≠ Json.backslash ∧ (N_of_ascii c <? 32)%N = false.

(** The decimal numeral of a natural number, without sign nor leading
    zero. *)
Definition decimal (n : N) : string :=
  DecimalString.NilZero.string_of_uint (N.to_uint n).

(** The preview report that declares [n] records and nothing else. *)
Definition count_report (n : N) : string :=
  "{" +:+ Json.quoted "record_count" +:+ ": " +:+ decimal n +:+ "}".

(** ** Concrete runs *)

(** A tool that prints [out] and exits with status 0, whatever it is asked,
    and leaves the file system alone. *)
Definition tool_printing (out : string)
    : list (list string) → list string → FS → process * FS :=
  λ _ _ fs, (Exited 0 out EmptyString, fs).

(** A scan that lists the entries in the order the map gives them. *)
Definition as_listed (l : list path) : list path := l.

(** The mock archive of the specification: [speciesA/cds_from_genomic.fna]
    and [speciesB/sub/annotation.gff]. *)
Definition mock_archive : content :=
  Zip [ (["speciesA"], "cds_from_genomic.fna", Some (Bytes ">cds"));
        (["speciesB"; "sub"], "annotation.gff", Some (Bytes "##gff")) ].

(** Two coding-sequence files under directories of the same name. *)
Definition colliding_archive : content :=
  Zip [ (["first"; "speciesA"], "cds_from_genomic.fna", Some (Bytes ">one"));
        (["second"; "speciesA"], "cds_from_genomic.fna", Some (Bytes ">two")) ].

(** The working directory after the constructor, with an archive. *)
Definition disk_with (archive : content) : FS :=
  list_to_map [ (["refseq_data"], Dir);
                (["refseq_data"; "cds_files"], Dir);
                (["refseq_data"; "gff_files"], Dir);
                ([zip_name "Gobiidae"], File archive) ].

Definition world_with (archive : content) : World :=
  {| fs := disk_with archive; log := []; calls := [] |}.

Definition extracted (archive : content) : FS :=
  (extractall [zip_name "Gobiidae"] (temp_dir "Gobiidae") (disk_with archive)).2.

Definition empty_world : World := {| fs := ∅; log := []; calls := [] |}.

Definition mock_downloader : RefSeqDataDownloader :=
  new_downloader ["refseq_data"] DATASETS_TOOL.

Definition args_both_skipped : Args :=
  {| arg_family := "Gobiidae"; arg_output_dir := ["refseq_data"];
     arg_no_cds := true; arg_no_gff := true;
     arg_datasets_tool := DATASETS_TOOL |}.


(** A report that holds the marker as a value and declares no count. *)
Definition report_without_count : string :=
  "{" +:+ Json.quoted "note" +:+ ": " +:+ Json.quoted "record_count missing" +:+ "}".

(** The world the prober leaves on an empty disk when the tool declares
    three records. *)
Definition after_probe : World :=
  {| fs := ∅;
     log := [searching_message "Gobiidae"; found_message (JInt 3) "Gobiidae"];
     calls := [preview_cmd DATASETS_TOOL "Gobiidae"] |}.

(** A tool that declares three records when first asked and fails every
    command after that. *)
Definition tool_refusing_download
    : list (list string) → list string → FS → process * FS :=
  λ calls _ fs,
    match calls with
    | [] => (Exited 0 (count_report 3) EmptyString, fs)
    | _ => (Exited 1 EmptyString "connection refused", fs)
    end.

(** A disk that holds the mock archive and nothing else: the output
    folders are missing. *)
Definition bare_world : World :=
  {| fs := {[ [zip_name "Gobiidae"] := File mock_archive ]};
     log := []; calls := [] |}.

(** The disk of the mock run with one more file, in the working
    directory. *)
Definition world_with_notes : World :=
  {| fs := <[ ["notes.txt"] := File (Bytes "keep") ]> (disk_with mock_archive);
     log := []; calls := [] |}.

(** A tool that answers the version check, declares two records, and
    writes the mock archive when asked to download. *)
Definition mock_tool : list (list string) → list string → FS → process * FS :=
  λ calls _ fs,
    match calls with
    | [] => (Exited 0 "datasets version: 18.4.0" EmptyString, fs)
    | [_] => (Exited 0 (count_report 2) EmptyString, fs)
    | _ => (Exited 0 EmptyString EmptyString,
            <[ [zip_name "Gobiidae"] := File mock_archive ]> fs)
    end.

Definition args_default : Args :=
  {| arg_family := "Gobiidae"; arg_output_dir := ["refseq_data"];
     arg_no_cds := false; arg_no_gff := false;
     arg_datasets_tool := DATASETS_TOOL |}.

(** * Properties *)

(** ** The JSON reader on an example *)

Example loads_count :
  Json.loads ("{" +:+ Json.quoted "record_count" +:+ ": 12, "
              +:+ Json.quoted "x" +:+ ": [1.5e3, null]}")
  = Some (JObject [("record_count", JInt 12);
                   ("x", JArray [JFloat false 15 2; JNull])]).
Proof. vm_compute. reflexivity. Qed.

(** ** Paths *)

Lemma dirname_snoc (d : path) (n : string) : dirname (d ++ [n]) = d.
Proof. unfold dirname. apply removelast_last. Qed.

Lemma basename_snoc (d : path) (n : string) : basename (d ++ [n]) = n.
Proof. unfold basename. by rewrite last_snoc. Qed.

Lemma snoc_not_nil (d : path) (n : string) : d ++ [n] ≠ [].
Proof. by destruct d. Qed.

Lemma snoc_ne_self (d : path) (n : string) : d ≠ d ++ [n].
Proof.
  intros H. apply (f_equal length) in H. rewrite length_app in H. simpl in H. lia.
Qed.

Lemma stat_lookup (fs : FS) (p : path) : p ≠ [] → stat fs p = fs !! p.
Proof. by destruct p. Qed.

Lemma stat_snoc (fs : FS) (d : path) (n : string) :
  stat fs (d ++ [n]) = fs !! (d ++ [n]).
Proof. apply stat_lookup, snoc_not_nil. Qed.

Lemma stat_file_lookup (fs : FS) (p : path) (c : content) :
  stat fs p = Some (File c) ↔ fs !! p = Some (File c) ∧ p ≠ [].
Proof.
  destruct p as [|a p]; simpl; [split; [discriminate | intros [_ H]; done] |].
  split; [intros H; split; [done | discriminate] | by intros [H _]].
Qed.

Lemma stat_insert_ne (fs : FS) (p q : path) (x : node) :
  p ≠ q → stat (<[q := x]> fs) p = stat fs p.
Proof. intros H. destruct p; [done |]. simpl. by rewrite lookup_insert_ne. Qed.

Lemma stat_delete_ne (fs : FS) (p q : path) :
  p ≠ q → stat (delete q fs) p = stat fs p.
Proof. intros H. destruct p; [done |]. simpl. by rewrite lookup_delete_ne. Qed.

Lemma prefix_snoc_ne (d p : path) (n : string) :
  ¬ d `prefix_of` p → p ≠ d ++ [n].
Proof. intros H ->. apply H. by apply prefix_app_r. Qed.

(** ** One move of a regular file into a flat directory *)

Lemma shutil_move_file (fs : FS) (f dir : path) (n : string) (c : content) :
  stat fs f = Some (File c) →
  stat fs dir = Some Dir →
  fs !! (dir ++ [n]) ≠ Some Dir →
  shutil_move f (dir ++ [n]) fs
  = (Ok tt, <[dir ++ [n] := File c]> (delete f fs)).
Proof.
  intros Hf Hd Hn.
  assert (isdir fs (dir ++ [n]) = false) as Hnd.
  { unfold isdir. rewrite stat_snoc. destruct (fs !! (dir ++ [n])) as [[]|]; done. }
  unfold shutil_move, bind, get, try_except, os_rename. simpl.
  rewrite Hnd. unfold bind, get. rewrite Hf, dirname_snoc, Hd, Hnd. done.
Qed.

Section Moves.

Variable dir : path.
Variable name : path → string.

Let dst (f : path) : path := dir ++ [name f].

Lemma movable_step (f : path) (l : list path) (fs : FS) (c : content) :
  NoDup (f :: l) →
  (∀ g, g ∈ f :: l → ¬ dir `prefix_of` g) →
  movable dir (f :: l) fs →
  stat fs f = Some (File c) →
  movable dir l (<[dst f := File c]> (delete f fs)).
Proof.
  intros [Hfl Hnd]%NoDup_cons Hout (Hdir & Hfiles & Hflat) Hf.
  assert (f ≠ dir) as Hfd by (intros ->; congruence).
  split_and!.
  - rewrite stat_insert_ne, stat_delete_ne; [done | congruence |].
    apply snoc_ne_self.
  - intros g Hg. destruct (Hfiles g) as [cg Hcg]; [by right |].
    exists cg. rewrite stat_insert_ne, stat_delete_ne; [done | set_solver |].
    apply prefix_snoc_ne, Hout. by right.
  - intros n. destruct (decide (dir ++ [n] = dst f)) as [-> | Hne].
    + by rewrite lookup_insert_eq.
    + rewrite lookup_insert_ne by done.
      destruct (decide (dir ++ [n] = f)) as [-> | Hne'].
      * by rewrite lookup_delete_eq.
      * rewrite lookup_delete_ne by done. apply Hflat.
Qed.

Lemma moves_ok (l : list path) (fs : FS) :
  NoDup l →
  (∀ f, f ∈ l → ¬ dir `prefix_of` f) →
  movable dir l fs →
  for_each l (λ f, shutil_move f (dst f)) fs = (Ok tt, foldl (place dst) fs l).
Proof.
  revert fs. induction l as [|f l IH]; intros fs Hnd Hout Hmv; [done |].
  destruct Hmv as (Hdir & Hfiles & Hflat).
  destruct (Hfiles f) as [c Hc]; [by left |].
  simpl. unfold bind at 1.
  unfold dst at 1. rewrite (shutil_move_file fs f dir (name f) c) by done.
  assert (place dst fs f = <[dst f := File c]> (delete f fs)) as ->.
  { unfold place. apply stat_file_lookup in Hc as [-> _]. done. }
  apply IH.
  - by apply NoDup_cons in Hnd as [_ ?].
  - intros g Hg. apply Hout. by right.
  - by apply movable_step.
Qed.

(** Lookups in the file system the loop leaves. *)

Lemma place_all_other (l : list path) (fs : FS) (p : path) :
  p ∉ l → (∀ f, f ∈ l → dst f ≠ p) →
  foldl (place dst) fs l !! p = fs !! p.
Proof.
  revert fs. induction l as [|f l IH]; intros fs Hp Hd; [done |].
  simpl. rewrite IH; [| set_solver | set_solver].
  unfold place. destruct (fs !! f) eqn:Hf; [| done].
  rewrite lookup_insert_ne, lookup_delete_ne; [done | set_solver | set_solver].
Qed.

Lemma place_all_source (l : list path) (fs : FS) (p : path) :
  NoDup l → p ∈ l → (∀ f, f ∈ l → is_Some (fs !! f)) →
  (∀ f, f ∈ l → dst f ∉ l) →
  foldl (place dst) fs l !! p = None.
Proof.
  revert fs. induction l as [|f l IH]; intros fs Hnd Hp Hs Hd; [by apply elem_of_nil in Hp |].
  apply NoDup_cons in Hnd as [Hfl Hnd].
  destruct (Hs f) as [x Hx]; [by left |].
  simpl. unfold place at 2. rewrite Hx.
  assert (dst f ≠ f) as Hne by (intros He; apply (Hd f); [by left | rewrite He; by left]).
  apply elem_of_cons in Hp as [-> | Hp].
  - rewrite place_all_other; [| done |].
    + rewrite lookup_insert_ne, lookup_delete_eq; done.
    + intros g Hg He. apply (Hd g); [by right | rewrite He; by left].
  - apply IH; [done | done | |].
    + intros g Hg. rewrite lookup_insert_ne, lookup_delete_ne; [apply Hs; by right | |].
      * intros ->. done.
      * intros He. apply (Hd f); [by left | rewrite He; by right].
    + intros g Hg Hin. apply (Hd g); [by right | by right].
Qed.

Lemma place_all_last (l1 l2 : list path) (f : path) (fs : FS) :
  NoDup (l1 ++ f :: l2) →
  (∀ g, g ∈ l1 ++ f :: l2 → dst g ∉ l1 ++ f :: l2) →
  (∀ g, g ∈ l1 ++ f :: l2 → is_Some (fs !! g)) →
  (∀ g, g ∈ l2 → dst g ≠ dst f) →
  foldl (place dst) fs (l1 ++ f :: l2) !! dst f = fs !! f.
Proof.
  intros Hnd Hd Hs Hlast.
  apply NoDup_app in Hnd as (Hnd1 & Hdisj & [Hfl2 Hnd2]%NoDup_cons).
  rewrite foldl_app. simpl.
  rewrite place_all_other; [| | done].
  - assert (foldl (place dst) fs l1 !! f = fs !! f) as Hf.
    { apply place_all_other.
      + intros Hin. apply (Hdisj f Hin). by left.
      + intros g Hg He. apply (Hd g); [set_solver | rewrite He; set_solver]. }
    unfold place at 1. rewrite Hf. destruct (Hs f) as [x Hx]; [set_solver |].
    rewrite Hx. by rewrite lookup_insert_eq.
  - intros Hin. apply (Hd f); set_solver.
Qed.

End Moves.

(** ** Scans *)

Section Scan.

Variable order : list path → list path.
Hypothesis order_perm : ∀ l, order l ≡ₚ l.

Lemma elem_of_rglob (dir : path) (m : string → bool) (fs : FS) (p : path) :
  p ∈ rglob order dir m fs ↔
  isdir fs dir = true ∧ below dir p ∧ m (basename p) = true ∧ is_Some (fs !! p).
Proof.
  unfold rglob. destruct (isdir fs dir).
  - rewrite order_perm, list_elem_of_filter, list_elem_of_fmap. split.
    + intros [[Hb Hm] [[q x] [-> Hin]]]. apply elem_of_map_to_list in Hin.
      simpl in *. eauto.
    + intros (_ & Hb & Hm & [x Hx]). split; [done |].
      exists (p, x). split; [done |]. by apply elem_of_map_to_list.
  - split; [intros []%elem_of_nil | intros [? _]; done].
Qed.

Lemma NoDup_rglob (dir : path) (m : string → bool) (fs : FS) :
  NoDup (rglob order dir m fs).
Proof.
  unfold rglob. destruct (isdir fs dir); [| constructor].
  rewrite order_perm. apply NoDup_filter, NoDup_fst_map_to_list.
Qed.

Lemma rglob_below (dir : path) (m : string → bool) (fs : FS) (p : path) :
  p ∈ rglob order dir m fs → dir `prefix_of` p.
Proof. intros (_ & [H _] & _)%elem_of_rglob. done. Qed.

End Scan.

(** ** Loops that move and log *)

Lemma for_each_lift_ok {A} (op : A → M FS unit) (lv : level)
    (msg : A → message) (l : list A) (w : World) (fs' : FS) :
  for_each l op (fs w) = (Ok tt, fs') →
  for_each l (λ x, lift (op x) ;; logger lv (msg x)) w
  = (Ok tt, {| fs := fs'; log := log w ++ map (λ x, (lv, msg x)) l;
               calls := calls w |}).
Proof.
  revert w. induction l as [|x l IH]; intros w H; simpl in *.
  - unfold ret in *. destruct w; simpl in *. rewrite app_nil_r. congruence.
  - unfold bind in H. destruct (op x (fs w)) as [[[]|e] fs1] eqn:Hop; [| discriminate].
    unfold bind at 1. unfold bind at 1. unfold lift at 1. rewrite Hop. simpl.
    rewrite (IH {| fs := fs1; log := log w ++ [(lv, msg x)]; calls := calls w |}) by done.
    simpl. by rewrite <- app_assoc.
Qed.

(** ** What extraction leaves alone *)

Lemma makedirs_walk_frame (t base rest : path) (fs fs' : FS) (r : outcome unit) :
  makedirs_walk base rest fs = (r, fs') →
  t `prefix_of` base ++ take 1 rest →
  ∀ p, ¬ t `prefix_of` p → fs' !! p = fs !! p.
Proof.
  revert base fs. induction rest as [|d rest IH]; intros base fs H Ht p Hp; simpl in *.
  - unfold ret in H. congruence.
  - unfold bind, get in H.
    assert (p ≠ base ++ [d]) as Hne by (intros ->; done).
    destruct (stat fs (base ++ [d])) as [[c|]|]; simpl in H.
    + unfold raise in H. congruence.
    + unfold ret in H. eapply IH in H; [done | by apply prefix_app_r | done].
    + unfold put in H. eapply IH in H; [| by apply prefix_app_r | done].
      by rewrite H, lookup_insert_ne.
Qed.

Lemma write_file_frame (q : path) (c : content) (fs fs' : FS) (r : outcome unit) :
  write_file q c fs = (r, fs') → ∀ p, p ≠ q → fs' !! p = fs !! p.
Proof.
  unfold write_file, bind, get, put, raise. intros H p Hp.
  destruct (stat fs q) as [[|]|]; destruct (stat fs (dirname q)) as [[|]|];
    inversion H; subst; try done; by rewrite lookup_insert_ne.
Qed.

Lemma os_mkdir_frame (q : path) (fs fs' : FS) (r : outcome unit) :
  os_mkdir q fs = (r, fs') → ∀ p, p ≠ q → fs' !! p = fs !! p.
Proof.
  unfold os_mkdir, bind, get, put, raise. intros H p Hp.
  destruct (stat fs q) as [[|]|]; destruct (stat fs (dirname q)) as [[|]|];
    inversion H; subst; try done; by rewrite lookup_insert_ne.
Qed.

Lemma extract_member_frame (t : string) (m : member) (fs fs' : FS) (r : outcome unit) :
  extract_member [t] m fs = (r, fs') →
  ∀ p, ¬ [t] `prefix_of` p → fs' !! p = fs !! p.
Proof.
  destruct m as [[dirs name] payload]. intros H p Hp.
  assert (p ≠ ([t] ++ dirs) ++ [name]) as Hne.
  { intros ->. apply Hp. rewrite <- app_assoc. by apply prefix_app_r. }
  unfold extract_member, bind at 1, get in H.
  assert (∃ r1 fs1,
    (if bool_decide ([t] ++ dirs ≠ []) && negb (exists_ fs ([t] ++ dirs))
     then os_makedirs ([t] ++ dirs) else ret ()) fs = (r1, fs1) ∧
    fs1 !! p = fs !! p) as (r1 & fs1 & Hd & <-).
  { destruct (bool_decide ([t] ++ dirs ≠ []) && negb (exists_ fs ([t] ++ dirs))).
    - unfold os_makedirs, bind, get.
      destruct (exists_ fs ([t] ++ dirs)); [by eexists _, _ |].
      destruct (makedirs_walk [] ([t] ++ dirs) fs) as [r1 fs1] eqn:Hw.
      exists r1, fs1. split; [done |].
      eapply makedirs_walk_frame; [done | | done]. done.
    - by eexists _, _. }
  unfold bind in H. rewrite Hd in H.
  destruct r1 as [[]|e]; [| congruence].
  destruct payload as [c|].
  - by eapply write_file_frame.
  - unfold get in H. destruct (isdir fs1 (([t] ++ dirs) ++ [name]));
      [unfold ret in H; congruence | by eapply os_mkdir_frame].
Qed.

Lemma for_each_frame {A} (body : A → M FS unit) (P : path → Prop) (l : list A) :
  (∀ x fs r fs', body x fs = (r, fs') → ∀ p, P p → fs' !! p = fs !! p) →
  ∀ fs r fs', for_each l body fs = (r, fs') → ∀ p, P p → fs' !! p = fs !! p.
Proof.
  intros Hb. induction l as [|x l IH]; intros fs r fs' H p Hp; simpl in H.
  - unfold ret in H. congruence.
  - unfold bind in H. destruct (body x fs) as [[[]|e] fs1] eqn:Hx.
    + rewrite (IH _ _ _ H p Hp). eauto.
    + inversion H; subst. eauto.
Qed.

Lemma extractall_frame (zip_filename : path) (t : string) (fs fs' : FS)
    (r : outcome unit) :
  extractall zip_filename [t] fs = (r, fs') →
  ∀ p, ¬ [t] `prefix_of` p → fs' !! p = fs !! p.
Proof.
  unfold extractall, bind, get, raise. intros H p Hp.
  destruct (stat fs zip_filename) as [[[data|members]|]|]; try congruence.
  eapply (for_each_frame (extract_member [t]) (λ p, ¬ [t] `prefix_of` p)); [| done | done].
  intros. by eapply extract_member_frame.
Qed.

Lemma extractall_is_zip (zip_filename target : path) (fs fs' : FS) :
  extractall zip_filename target fs = (Ok tt, fs') →
  ∃ members, stat fs zip_filename = Some (File (Zip members)).
Proof.
  unfold extractall, bind, get, raise. intros H.
  destruct (stat fs zip_filename) as [[[data|members]|]|]; try congruence. eauto.
Qed.

Lemma flat_lookup (dir : path) (fs : FS) (n : string) :
  flat dir fs → fs !! (dir ++ [n]) ≠ Some Dir.
Proof.
  intros H Hl. apply (map_Forall_lookup_1 _ _ _ _ H) in Hl; [done |].
  apply dirname_snoc.
Qed.

Lemma prefix_one (t : string) (p : path) :
  [t] `prefix_of` p ↔ ∃ q, p = t :: q.
Proof. split; intros [q ->]; by exists q. Qed.

Lemma prefix_one_app (t : string) (p q : path) :
  p ≠ [] → [t] `prefix_of` p ++ q → [t] `prefix_of` p.
Proof.
  intros Hp [r Hr]%prefix_one. destruct p as [|a p]; [done |].
  simpl in Hr. inversion Hr; subst. apply prefix_one. eauto.
Qed.

Lemma only_logs_for_each {A} (l : list A) (body : A → M World unit) :
  (∀ x w, ∃ lg, body x w = (Ok tt, {| fs := fs w; log := log w ++ lg;
                                      calls := calls w |})) →
  ∀ w, ∃ lg, for_each l body w = (Ok tt, {| fs := fs w; log := log w ++ lg;
                                            calls := calls w |}).
Proof.
  intros Hb. induction l as [|x l IH]; intros w; simpl.
  - exists []. unfold ret. destruct w; simpl. by rewrite app_nil_r.
  - destruct (Hb x w) as [lg1 H1]. unfold bind. rewrite H1.
    destruct (IH {| fs := fs w; log := log w ++ lg1; calls := calls w |}) as [lg2 H2].
    rewrite H2. simpl. exists (lg1 ++ lg2). by rewrite app_assoc.
Qed.

(** ** The output folders lie outside the scratch directory *)

Section Folders.

Variable order : list path → list path.
Hypothesis order_perm : ∀ l, order l ≡ₚ l.

Lemma warn_no_files_ok (family : string) (w : World) :
  ∃ lg, warn_no_files order family w
        = (Ok tt, {| fs := fs w;
                     log := log w ++
                       (WARNING, [Text ("No CDS or GFF files found for " +:+
                                        family +:+ ". This may indicate:")]) :: lg;
                     calls := calls w |}).
Proof.
  unfold warn_no_files, bind, logger, scan. simpl.
  match goal with |- context [for_each ?l ?b ?w'] =>
    destruct (only_logs_for_each l b) with (w := w') as [lg Hlg] end.
  - intros x w0. unfold bind, get. destruct (isfile (fs w0) x).
    + eexists [_]. done.
    + exists []. unfold ret. destruct w0; simpl. by rewrite app_nil_r.
  - rewrite Hlg. simpl. eexists. f_equal. f_equal.
    rewrite <- !app_assoc. simpl. done.
Qed.

Variables (out : path) (tool_path family : string) (zip_filename : path).

Let self : RefSeqDataDownloader := new_downloader out tool_path.
Let temp : path := temp_dir family.
Let cds_dst (f : path) : path := self.(cds_dir) ++ [cds_new_name family f].
Let gff_dst (f : path) : path := self.(gff_dir) ++ [gff_new_name family f].

Lemma temp_not_cds_dir : ¬ temp `prefix_of` out → ¬ temp `prefix_of` self.(cds_dir).
Proof.
  intros Hout H. simpl in H. destruct out as [|a o]; simpl in *.
  - apply prefix_one in H as [q Hq]. discriminate.
  - apply Hout. apply prefix_one in H as [q Hq]. inversion Hq; subst.
    apply prefix_one. eauto.
Qed.

Lemma temp_not_gff_dir : ¬ temp `prefix_of` out → ¬ temp `prefix_of` self.(gff_dir).
Proof.
  intros Hout H. simpl in H. destruct out as [|a o]; simpl in *.
  - apply prefix_one in H as [q Hq]. discriminate.
  - apply Hout. apply prefix_one in H as [q Hq]. inversion Hq; subst.
    apply prefix_one. eauto.
Qed.

Lemma cds_dst_outside (f : path) : ¬ temp `prefix_of` out → ¬ temp `prefix_of` cds_dst f.
Proof.
  intros Hout H. apply (temp_not_cds_dir Hout).
  eapply prefix_one_app; [| exact H]. simpl. by destruct out.
Qed.

Lemma gff_dst_outside (f : path) : ¬ temp `prefix_of` out → ¬ temp `prefix_of` gff_dst f.
Proof.
  intros Hout H. apply (temp_not_gff_dir Hout).
  eapply prefix_one_app; [| exact H]. simpl. by destruct out.
Qed.

Lemma cds_gff_dst_ne (f g : path) : cds_dst f ≠ gff_dst g.
Proof.
  unfold cds_dst, gff_dst. simpl. rewrite <- !app_assoc. simpl.
  intros H%app_inv_head. discriminate.
Qed.

Lemma cds_dir_not_dst (f : path) : self.(cds_dir) ≠ cds_dst f ∧ self.(cds_dir) ≠ gff_dst f.
Proof.
  unfold cds_dst, gff_dst. simpl. split.
  - apply snoc_ne_self.
  - rewrite <- app_assoc. simpl. intros H%app_inv_head. discriminate.
Qed.

Lemma gff_dir_not_dst (f : path) : self.(gff_dir) ≠ cds_dst f ∧ self.(gff_dir) ≠ gff_dst f.
Proof.
  unfold cds_dst, gff_dst. simpl. split.
  - rewrite <- app_assoc. simpl. intros H%app_inv_head. discriminate.
  - apply snoc_ne_self.
Qed.

End Folders.

(** ** Stepping through the monad *)

Lemma bind_ok {S A B} (m : M S A) (k : A → M S B) (s s' : S) (a : A) :
  m s = (Ok a, s') → bind m k s = k a s'.
Proof. unfold bind. by intros ->. Qed.

Lemma lift_ok {A} (m : M FS A) (w : World) (a : A) (fs' : FS) :
  m (fs w) = (Ok a, fs') →
  lift m w = (Ok a, {| fs := fs'; log := log w; calls := calls w |}).
Proof. unfold lift. by intros ->. Qed.

Lemma cds_name_not_gff (n : string) : is_cds_name n = true → is_gff_name n = false.
Proof. unfold is_cds_name. intros ->%String.eqb_eq. reflexivity. Qed.

Lemma node_file (x : node) : node_is_dir x = false → ∃ c, x = File c.
Proof. destruct x; [eauto | discriminate]. Qed.

Lemma lookup_remove_tree (t p : path) (fs : FS) :
  remove_tree t fs !! p = if decide (t `prefix_of` p) then None else fs !! p.
Proof.
  unfold remove_tree. destruct (decide (t `prefix_of` p)) as [H|H].
  - apply map_lookup_filter_None. right. intros x _ Hn. by apply Hn.
  - destruct (fs !! p) as [x|] eqn:Hx.
    + by apply map_lookup_filter_Some.
    + apply map_lookup_filter_None. by left.
Qed.


(** ** The extractor: a missing archive, and the value returned *)

Lemma bind_inv_ok {S A B} (m : M S A) (k : A → M S B) (s s' : S) (b : B) :
  bind m k s = (Ok b, s') → ∃ a s1, m s = (Ok a, s1) ∧ k a s1 = (Ok b, s').
Proof.
  unfold bind. destruct (m s) as [[a|e] s1]; [eauto | discriminate].
Qed.

Lemma lift_inv_ok {A} (m : M FS A) (w w' : World) (a : A) :
  lift m w = (Ok a, w') →
  m (fs w) = (Ok a, fs w') ∧ log w' = log w ∧ calls w' = calls w.
Proof.
  unfold lift. destruct (m (fs w)) as [r fs1]. intros H. inversion H; subst. done.
Qed.

Section Extractor.

Variable order : list path → list path.
Variable self : RefSeqDataDownloader.
Variable zip_filename : path.
Variable family : string.

(** The function is its [try] body once the archive is there. *)
Lemma extract_and_organize_files_body (w : World) :
  exists_ (fs w) zip_filename = true →
  extract_and_organize_files order self zip_filename family w
  = try_except (organize order self zip_filename family) is_Exception
      (λ e, logger ERROR [Text "Error extracting files: "; OfExn e] ;; ret false)
      (logged INFO (start_message zip_filename) w).
Proof.
  intros H. unfold extract_and_organize_files, bind, logger, get. simpl.
  by rewrite H.
Qed.

Lemma extract_and_organize_files_ok (w w' : World) (b : bool) :
  exists_ (fs w) zip_filename = true →
  organize order self zip_filename family (logged INFO (start_message zip_filename) w)
  = (Ok b, w') →
  extract_and_organize_files order self zip_filename family w = (Ok b, w').
Proof.
  intros H Hb. rewrite extract_and_organize_files_body by done.
  unfold try_except. by rewrite Hb.
Qed.

(** Claim C4.  When the archive named by [zip_filename] does not exist on
    disk, the extractor logs the error "Zip file ... not found" and returns
    [False]; the file system is left as it was (no scratch directory is
    created) and no process is started. *)
Theorem missing_archive_fails (w : World) :
  exists_ (fs w) zip_filename = false →
  extract_and_organize_files order self zip_filename family w
  = (Ok false,
     {| fs := fs w;
        log := log w ++ [(INFO, start_message zip_filename);
                         (ERROR, [Text "Zip file "; OfPath zip_filename;
                                  Text " not found"])];
        calls := calls w |}).
Proof.
  intros H. unfold extract_and_organize_files, bind, logger, get, ret. simpl.
  rewrite H. simpl. by rewrite <- app_assoc.
Qed.

(** A [try] body that ends without exception went through the extraction
    and the two loops, and returns whether it listed any file. *)
Lemma organize_inv (w w' : World) (b : bool) :
  organize order self zip_filename family w = (Ok b, w') →
  ∃ fs1 w2 w3,
    extractall zip_filename (temp_dir family) (fs w) = (Ok tt, fs1) ∧
    for_each (rglob order (temp_dir family) is_cds_name fs1)
      (move_cds self family) {| fs := fs1; log := log w; calls := calls w |}
    = (Ok tt, w2) ∧
    for_each (rglob order (temp_dir family) is_gff_name (fs w2))
      (move_gff self family) w2 = (Ok tt, w3) ∧
    b = (0 <? length (rglob order (temp_dir family) is_cds_name fs1)
            + length (rglob order (temp_dir family) is_gff_name (fs w2)))%nat.
Proof.
  unfold organize. intros H.
  apply bind_inv_ok in H as ([] & w1 & Hx & H).
  apply lift_inv_ok in Hx as (Hx & Hl & Hc).
  apply bind_inv_ok in H as (cds & w1' & Hs & H).
  unfold scan in Hs. inversion Hs; subst cds w1'. clear Hs.
  apply bind_inv_ok in H as ([] & w2 & Hcds & H).
  apply bind_inv_ok in H as (gff & w2' & Hs & H).
  unfold scan in Hs. inversion Hs; subst gff w2'. clear Hs.
  apply bind_inv_ok in H as ([] & w3 & Hgff & H).
  apply bind_inv_ok in H as ([] & w4 & _ & H).
  apply bind_inv_ok in H as ([] & w5 & _ & H).
  apply bind_inv_ok in H as ([] & w6 & _ & H).
  unfold ret in H. inversion H; subst.
  exists (fs w1), w2, w3. split_and!; [done | | done | done].
  destruct w1; simpl in *. by subst.
Qed.

End Extractor.

Lemma lift_inv {A} (m : M FS A) (w w' : World) (r : outcome A) :
  lift m w = (r, w') →
  m (fs w) = (r, fs w') ∧ log w' = log w ∧ calls w' = calls w.
Proof.
  unfold lift. destruct (m (fs w)) as [r1 fs1]. intros H. inversion H; subst. done.
Qed.

Lemma rmtree_exn (p : path) (fs fs' : FS) (e : exn) :
  rmtree p fs = (Raise e, fs') → is_Exception e = true.
Proof.
  unfold rmtree, bind, get, put, raise. intros H.
  destruct (stat fs p) as [[c|]|]; inversion H; done.
Qed.

Lemma os_remove_exn (p : path) (fs fs' : FS) (e : exn) :
  os_remove p fs = (Raise e, fs') → is_Exception e = true.
Proof.
  unfold os_remove, bind, get, put, raise. intros H.
  destruct (stat fs p) as [[c|]|]; inversion H; done.
Qed.

Section Returns.

Variable order : list path → list path.
Variable self : RefSeqDataDownloader.
Variable zip_filename : path.
Variable family : string.

(** A run that matched nothing: whatever the clean-up does, the function
    returns [False] after the warning. *)
Lemma organize_nothing (w : World) (fs1 : FS) :
  extractall zip_filename (temp_dir family) (fs w) = (Ok tt, fs1) →
  rglob order (temp_dir family) is_cds_name fs1 = [] →
  rglob order (temp_dir family) is_gff_name fs1 = [] →
  ∃ r w', organize order self zip_filename family w = (r, w') ∧
          no_files_warning family ∈ log w' ∧
          match r with
          | Ok b => b = false
          | Raise e => is_Exception e = true
          end.
Proof.
  intros Hx Hc Hg. unfold organize.
  rewrite (bind_ok _ _ _ _ _ (lift_ok _ w _ _ Hx)).
  unfold scan at 1. unfold bind at 1. simpl fs. rewrite Hc.
  simpl for_each. unfold ret at 1. unfold bind at 1.
  unfold scan at 1. unfold bind at 1. simpl fs. rewrite Hg.
  simpl for_each. unfold ret at 1. unfold bind at 1. simpl Nat.eqb. cbv iota.
  match goal with |- context [bind (warn_no_files order family) _ ?w0] =>
    destruct (warn_no_files_ok order family w0) as [lg Hw] end.
  rewrite (bind_ok _ _ _ _ _ Hw). simpl log. simpl calls. simpl fs.
  set (w4 := {| fs := fs1; log := _; calls := _ |}).
  assert (no_files_warning family ∈ log w4) as Hin.
  { unfold w4, no_files_warning. simpl. set_solver. }
  unfold bind at 1.
  destruct (lift (rmtree (temp_dir family)) w4) as [[[]|e] w5] eqn:H5.
  - apply lift_inv in H5 as (_ & Hl5 & _). unfold bind at 1.
    destruct (lift (os_remove zip_filename) w5) as [[[]|e] w6] eqn:H6.
    + apply lift_inv in H6 as (_ & Hl6 & _).
      eexists _, _. split; [reflexivity |]. split; [| reflexivity].
      by rewrite Hl6, Hl5.
    + apply lift_inv in H6 as (H6 & Hl6 & _). apply os_remove_exn in H6.
      eexists _, _. split; [reflexivity |]. split; [| done].
      by rewrite Hl6, Hl5.
  - apply lift_inv in H5 as (H5 & Hl5 & _). apply rmtree_exn in H5.
    eexists _, _. split; [reflexivity |]. split; [| done].
    by rewrite Hl5.
Qed.

(** Claim C2.  For an archive that exists: (1) when the [try] body of the
    extractor raises no exception, the function returns the body's value,
    and that value is [True] exactly when the number of coding-sequence
    files listed (and moved) plus the number of gene-feature files listed
    (and moved) is greater than zero; (2) when the extraction succeeds and
    both scans list nothing, the function returns [False], no exception
    leaves it, and the log holds the warning "No CDS or GFF files found
    for {family}". *)
Theorem returns_whether_any_file_moved (w : World) :
  exists_ (fs w) zip_filename = true →
  (∀ b w',
     organize order self zip_filename family
       (logged INFO (start_message zip_filename) w) = (Ok b, w') →
     extract_and_organize_files order self zip_filename family w = (Ok b, w') ∧
     ∃ fs1 w2 w3,
       extractall zip_filename (temp_dir family) (fs w) = (Ok tt, fs1) ∧
       for_each (rglob order (temp_dir family) is_cds_name fs1)
         (move_cds self family)
         {| fs := fs1; log := log w ++ [(INFO, start_message zip_filename)];
            calls := calls w |} = (Ok tt, w2) ∧
       for_each (rglob order (temp_dir family) is_gff_name (fs w2))
         (move_gff self family) w2 = (Ok tt, w3) ∧
       (b = true ↔
        0 < length (rglob order (temp_dir family) is_cds_name fs1)
            + length (rglob order (temp_dir family) is_gff_name (fs w2)))) ∧
  (∀ fs1,
     extractall zip_filename (temp_dir family) (fs w) = (Ok tt, fs1) →
     rglob order (temp_dir family) is_cds_name fs1 = [] →
     rglob order (temp_dir family) is_gff_name fs1 = [] →
     ∃ w', extract_and_organize_files order self zip_filename family w
           = (Ok false, w') ∧
           no_files_warning family ∈ log w').
Proof.
  intros He. split.
  - intros b w' Hb. split; [by apply extract_and_organize_files_ok |].
    apply organize_inv in Hb as (fs1 & w2 & w3 & Hx & Hc & Hg & ->).
    exists fs1, w2, w3. split_and!; [done | done | done |].
    rewrite Nat.ltb_lt. done.
  - intros fs1 Hx Hc Hg.
    rewrite extract_and_organize_files_body by done.
    destruct (organize_nothing (logged INFO (start_message zip_filename) w) fs1)
      as (r & w' & Ho & Hin & Hr); [done | done | done |].
    unfold try_except. rewrite Ho. destruct r as [b|e].
    + subst b. eauto.
    + rewrite Hr. unfold bind, logger, ret. simpl.
      eexists. split; [done |]. simpl. set_solver.
Qed.

(** Claim C3 does not hold of the code.  For an archive without members
    and no scratch directory left by an earlier run, the extraction
    succeeds and creates nothing, both scans list nothing, and yet the
    function returns [False] with the file system unchanged: the archive
    is still there.  The clean-up [shutil.rmtree] raises
    [FileNotFoundError] on the missing scratch directory, the [except]
    clause logs it, and [os.remove] is never reached. *)
Theorem empty_archive_is_left_behind (w : World) :
  stat (fs w) zip_filename = Some (File (Zip [])) →
  stat (fs w) (temp_dir family) = None →
  extractall zip_filename (temp_dir family) (fs w) = (Ok tt, fs w) ∧
  rglob order (temp_dir family) is_cds_name (fs w) = [] ∧
  rglob order (temp_dir family) is_gff_name (fs w) = [] ∧
  ∃ lg, extract_and_organize_files order self zip_filename family w
        = (Ok false, {| fs := fs w; log := log w ++ lg; calls := calls w |}) ∧
        (ERROR, [Text "Error extracting files: "; OfExn FileNotFoundError]) ∈ lg.
Proof.
  intros Hz Ht.
  assert (extractall zip_filename (temp_dir family) (fs w) = (Ok tt, fs w)) as Hx.
  { unfold extractall, bind, get. by rewrite Hz. }
  assert (∀ m, rglob order (temp_dir family) m (fs w) = []) as Hs.
  { intros m. unfold rglob, isdir. by rewrite Ht. }
  split_and!; [done | done | done |].
  rewrite extract_and_organize_files_body by (unfold exists_; by rewrite Hz).
  unfold try_except, organize.
  rewrite (bind_ok _ _ _ _ _
             (lift_ok _ (logged INFO (start_message zip_filename) w) _ _ Hx)).
  unfold scan at 1. unfold bind at 1. simpl fs. rewrite Hs.
  simpl for_each. unfold ret at 1. unfold bind at 1.
  unfold scan at 1. unfold bind at 1. simpl fs. rewrite Hs.
  simpl for_each. unfold ret at 1. unfold bind at 1. simpl Nat.eqb. cbv iota.
  match goal with |- context [bind (warn_no_files order family) _ ?w0] =>
    destruct (warn_no_files_ok order family w0) as [lg Hw] end.
  rewrite (bind_ok _ _ _ _ _ Hw). simpl log. simpl calls. simpl fs.
  set (w4 := {| fs := fs w; log := _; calls := _ |}).
  assert (lift (rmtree (temp_dir family)) w4 = (Raise FileNotFoundError, w4)) as H5.
  { unfold lift, rmtree, bind, get, raise. change (fs w4) with (fs w).
    by rewrite Ht. }
  unfold bind at 1. rewrite H5. cbv beta iota.
  unfold bind, logger, ret, w4. simpl.
  eexists. split.
  - f_equal. f_equal. rewrite <- !app_assoc. done.
  - set_solver.
Qed.

End Returns.

(** ** A run of the organizer that goes through *)

Section Organize.

Variable order : list path → list path.
Hypothesis order_perm : ∀ l, order l ≡ₚ l.
Variables (out : path) (tool_path family : string) (zip_filename : path).

Let self : RefSeqDataDownloader := new_downloader out tool_path.
Let temp : path := temp_dir family.
Let cds_dst (f : path) : path := self.(cds_dir) ++ [cds_new_name family f].
Let gff_dst (f : path) : path := self.(gff_dir) ++ [gff_new_name family f].

Variables (fs0 fs1 : FS).
Hypothesis Horg : organizable self zip_filename family fs0 fs1.

Let cds : list path := rglob order temp is_cds_name fs1.
Let fs2 : FS := foldl (place cds_dst) fs1 cds.
Let gff : list path := rglob order temp is_gff_name fs2.
Let fs3 : FS := foldl (place gff_dst) fs2 gff.

Lemma outside_extract (p : path) : ¬ temp `prefix_of` p → fs1 !! p = fs0 !! p.
Proof. intros Hp. eapply extractall_frame; [apply (org_extract _ _ _ _ _ Horg) | done]. Qed.

Lemma scan_not_in_dir (dir : path) (m : string → bool) (fs : FS) (f : path) :
  ¬ temp `prefix_of` dir → dir ≠ [] →
  f ∈ rglob order temp m fs → ¬ dir `prefix_of` f.
Proof.
  intros Hd Hne Hf Hp. apply (rglob_below order order_perm) in Hf.
  subst temp. unfold temp_dir in *. destruct Hf as [q ->].
  destruct dir as [|a d]; [done |]. simpl in Hp.
  apply prefix_cons_inv_1 in Hp. subst a. apply Hd, prefix_one. eauto.
Qed.

Lemma outside_fs2 (p : path) : ¬ temp `prefix_of` p → (∀ f, cds_dst f ≠ p) → fs2 !! p = fs1 !! p.
Proof.
  intros Hp Hd. apply place_all_other; [| intros f _; apply Hd].
  intros Hin. by apply (rglob_below order order_perm) in Hin.
Qed.

Lemma outside_fs3 (p : path) : ¬ temp `prefix_of` p → (∀ f, gff_dst f ≠ p) → fs3 !! p = fs2 !! p.
Proof.
  intros Hp Hd. apply place_all_other; [| intros f _; apply Hd].
  intros Hin. by apply (rglob_below order order_perm) in Hin.
Qed.

Lemma cds_are_files (f : path) : f ∈ cds → ∃ c, stat fs1 f = Some (File c).
Proof.
  intros (_ & Hb & Hm & [x Hx])%elem_of_rglob; [| done].
  pose proof (map_Forall_lookup_1 _ _ _ _ (org_files _ _ _ _ _ Horg) Hx Hb) as Hf.
  rewrite Hm in Hf. destruct (node_file x (Hf eq_refl)) as [c ->].
  exists c. apply stat_file_lookup. split; [done |].
  intros ->. destruct Hb as [[q Hq] _]. done.
Qed.

Lemma gff_lookup_fs2 (g : path) : g ∈ gff → fs2 !! g = fs1 !! g.
Proof.
  intros Hg. pose proof Hg as (_ & Hb & Hm & _)%elem_of_rglob; [| done].
  apply place_all_other.
  - intros (_ & _ & Hc & _)%elem_of_rglob; [| done].
    apply cds_name_not_gff in Hc. congruence.
  - intros f _ <-. apply (cds_dst_outside out tool_path family f); [| apply Hb].
    apply (org_out _ _ _ _ _ Horg).
Qed.

Lemma gff_are_files (g : path) : g ∈ gff → ∃ c, stat fs2 g = Some (File c).
Proof.
  intros Hg. pose proof Hg as (_ & Hb & Hm & [x Hx])%elem_of_rglob; [| done].
  rewrite (gff_lookup_fs2 g Hg) in Hx.
  pose proof (map_Forall_lookup_1 _ _ _ _ (org_files _ _ _ _ _ Horg) Hx Hb) as Hf.
  rewrite Hm, orb_true_r in Hf. destruct (node_file x (Hf eq_refl)) as [c ->].
  exists c. apply stat_file_lookup. split; [by rewrite gff_lookup_fs2 |].
  intros ->. destruct Hb as [[q Hq] _]. done.
Qed.

Lemma cds_loop :
  for_each cds (λ f, shutil_move f (cds_dst f)) fs1 = (Ok tt, fs2).
Proof.
  pose proof (org_out _ _ _ _ _ Horg) as Hout.
  apply (moves_ok self.(cds_dir) (cds_new_name family)).
  - apply NoDup_rglob, order_perm.
  - intros f Hf. eapply scan_not_in_dir; [| | exact Hf].
    + by apply temp_not_cds_dir.
    + simpl. by destruct out.
  - split_and!.
    + rewrite stat_lookup by (simpl; by destruct out).
      rewrite outside_extract by (by apply temp_not_cds_dir).
      rewrite <- stat_lookup by (simpl; by destruct out).
      apply (org_cds_dir _ _ _ _ _ Horg).
    + apply cds_are_files.
    + intros n. rewrite outside_extract.
      * apply flat_lookup, (org_cds_flat _ _ _ _ _ Horg).
      * intros H. apply (temp_not_cds_dir out tool_path family Hout).
        eapply prefix_one_app; [| exact H]. simpl. by destruct out.
Qed.

Lemma gff_loop :
  for_each gff (λ f, shutil_move f (gff_dst f)) fs2 = (Ok tt, fs3).
Proof.
  pose proof (org_out _ _ _ _ _ Horg) as Hout.
  assert (∀ n, ¬ temp `prefix_of` self.(gff_dir) ++ [n]) as Hgn.
  { intros n H. apply (temp_not_gff_dir out tool_path family Hout).
    eapply prefix_one_app; [| exact H]. simpl. by destruct out. }
  apply (moves_ok self.(gff_dir) (gff_new_name family)).
  - apply NoDup_rglob, order_perm.
  - intros f Hf. eapply scan_not_in_dir; [| | exact Hf].
    + by apply temp_not_gff_dir.
    + simpl. by destruct out.
  - split_and!.
    + rewrite stat_lookup by (simpl; by destruct out).
      rewrite outside_fs2.
      * rewrite outside_extract by (by apply temp_not_gff_dir).
        rewrite <- stat_lookup by (simpl; by destruct out).
        apply (org_gff_dir _ _ _ _ _ Horg).
      * by apply temp_not_gff_dir.
      * intros f H. destruct (gff_dir_not_dst out tool_path family f) as [Hn _].
        apply Hn. symmetry. exact H.
    + apply gff_are_files.
    + intros n. rewrite outside_fs2, outside_extract; [| done | done |].
      * apply flat_lookup, (org_gff_flat _ _ _ _ _ Horg).
      * intros f H. apply (cds_gff_dst_ne out tool_path family f (self.(gff_dir) ++ [n])).
        unfold cds_dst in H. simpl in *. rewrite <- !app_assoc in *. simpl in *.
        apply app_inv_head in H. discriminate.
Qed.

Lemma scratch_fs3 : stat fs3 temp = Some Dir.
Proof.
  pose proof (org_out _ _ _ _ _ Horg) as Hout.
  pose proof (org_scratch _ _ _ _ _ Horg) as Hs.
  assert (∀ p, below temp p → temp ≠ p) as Hb by (by intros p [_ ?]).
  change (stat fs3 temp) with (fs3 !! temp). change (stat fs1 temp) with (fs1 !! temp) in Hs.
  rewrite <- Hs. transitivity (fs2 !! temp).
  - apply (place_all_other self.(gff_dir) (gff_new_name family)).
    + intros (_ & [_ Hne] & _)%elem_of_rglob; done.
    + intros f _ H. apply (gff_dst_outside out tool_path family f Hout).
      change (temp `prefix_of` self.(gff_dir) ++ [gff_new_name family f]).
      by rewrite H.
  - apply (place_all_other self.(cds_dir) (cds_new_name family)).
    + intros (_ & [_ Hne] & _)%elem_of_rglob; done.
    + intros f _ H. apply (cds_dst_outside out tool_path family f Hout).
      change (temp `prefix_of` self.(cds_dir) ++ [cds_new_name family f]).
      by rewrite H.
Qed.

Lemma outside_final (p : path) :
  ¬ temp `prefix_of` p → (∀ f, cds_dst f ≠ p) → (∀ f, gff_dst f ≠ p) →
  fs3 !! p = fs0 !! p.
Proof.
  intros Hp Hc Hg. by rewrite outside_fs3, outside_fs2, outside_extract.
Qed.

Lemma zip_fs3 :
  ∃ ms, stat (remove_tree temp fs3) zip_filename = Some (File (Zip ms)).
Proof.
  destruct (extractall_is_zip _ _ _ _ (org_extract _ _ _ _ _ Horg)) as [ms Hz].
  exists ms. apply stat_file_lookup in Hz as [Hz Hne].
  apply stat_file_lookup. split; [| done].
  rewrite lookup_remove_tree.
  destruct (decide (temp `prefix_of` zip_filename)) as [H|H];
    [by apply (org_zip_scratch _ _ _ _ _ Horg) in H |].
  rewrite outside_final; [done | done | |].
  - intros f Hf. apply (org_zip_cds _ _ _ _ _ Horg). rewrite <- Hf.
    unfold cds_dst. by apply prefix_app_r.
  - intros f Hf. apply (org_zip_gff _ _ _ _ _ Horg). rewrite <- Hf.
    unfold gff_dst. by apply prefix_app_r.
Qed.

Lemma organize_ok (w : World) :
  fs w = fs0 →
  ∃ lg, organize order self zip_filename family w
        = (Ok (0 <? length cds + length gff)%nat,
           {| fs := delete zip_filename (remove_tree temp fs3);
              log := log w ++ lg; calls := calls w |}).
Proof.
  intros Hw.
  pose proof (org_extract _ _ _ _ _ Horg) as Hx. rewrite <- Hw in Hx.
  pose proof (lift_ok _ w _ _ Hx) as H1.
  set (w1 := {| fs := fs1; log := log w; calls := calls w |}) in *.
  pose proof (for_each_lift_ok (λ f, shutil_move f (cds_dst f)) INFO
    (λ f, [Text ("Moved CDS file: " +:+ cds_new_name family f)]) cds w1 fs2 cds_loop) as H2.
  set (w2 := {| fs := fs2; log := _; calls := _ |}) in H2.
  pose proof (for_each_lift_ok (λ f, shutil_move f (gff_dst f)) INFO
    (λ f, [Text ("Moved GFF file: " +:+ gff_new_name family f)]) gff w2 fs3 gff_loop) as H3.
  set (w3 := {| fs := fs3; log := _; calls := _ |}) in H3.
  assert (∃ lg, (if (length cds + length gff =? 0)%nat
                 then warn_no_files order family else ret ()) w3
                = (Ok tt, {| fs := fs3; log := log w3 ++ lg; calls := calls w |}))
    as [lg4 H4].
  { destruct (length cds + length gff =? 0)%nat.
    - destruct (warn_no_files_ok order family w3) as [lg H]. eauto.
    - exists []. unfold ret. by rewrite app_nil_r. }
  set (w4 := {| fs := fs3; log := log w3 ++ lg4; calls := calls w |}) in H4.
  assert (lift (rmtree temp) w4
          = (Ok tt, {| fs := remove_tree temp fs3; log := log w4; calls := calls w4 |})) as H5.
  { apply lift_ok. change (fs w4) with fs3.
    unfold rmtree, bind, get, put. by rewrite scratch_fs3. }
  destruct zip_fs3 as [ms Hz].
  set (w5 := {| fs := remove_tree temp fs3; log := _; calls := _ |}) in H5.
  assert (lift (os_remove zip_filename) w5
          = (Ok tt, {| fs := delete zip_filename (remove_tree temp fs3);
                       log := log w5; calls := calls w5 |})) as H6.
  { apply lift_ok. change (fs w5) with (remove_tree temp fs3).
    unfold os_remove, bind, get, put. by rewrite Hz. }
  exists (map (λ f, (INFO, [Text ("Moved CDS file: " +:+ cds_new_name family f)])) cds
          ++ map (λ f, (INFO, [Text ("Moved GFF file: " +:+ gff_new_name family f)])) gff
          ++ lg4).
  unfold organize.
  rewrite (bind_ok _ _ _ _ _ H1).
  unfold scan at 1. unfold bind at 1. fold cds.
  rewrite (bind_ok _ _ _ _ _ H2).
  unfold scan at 1. unfold bind at 1. simpl fs. fold gff.
  rewrite (bind_ok _ _ _ _ _ H3).
  rewrite (bind_ok _ _ _ _ _ H4).
  rewrite (bind_ok _ _ _ _ _ H5).
  rewrite (bind_ok _ _ _ _ _ H6).
  unfold ret. simpl. by rewrite <- !app_assoc.
Qed.

Let final : FS := delete zip_filename (remove_tree temp fs3).

Lemma final_outside (p : path) :
  ¬ temp `prefix_of` p → p ≠ zip_filename → final !! p = fs3 !! p.
Proof.
  intros Hp Hz. unfold final. rewrite lookup_delete_ne by done.
  rewrite lookup_remove_tree. by destruct (decide (temp `prefix_of` p)).
Qed.

Lemma final_scratch (p : path) : temp `prefix_of` p → final !! p = None.
Proof.
  intros Hp. unfold final.
  destruct (decide (zip_filename = p)) as [-> | Hne]; [by rewrite lookup_delete_eq |].
  rewrite lookup_delete_ne by done. rewrite lookup_remove_tree.
  by destruct (decide (temp `prefix_of` p)).
Qed.

Lemma final_zip : final !! zip_filename = None.
Proof. unfold final. by rewrite lookup_delete_eq. Qed.

Lemma cds_dst_not_zip (f : path) : cds_dst f ≠ zip_filename.
Proof.
  intros H. apply (org_zip_cds _ _ _ _ _ Horg). rewrite <- H.
  unfold cds_dst. by apply prefix_app_r.
Qed.

Lemma gff_dst_not_zip (f : path) : gff_dst f ≠ zip_filename.
Proof.
  intros H. apply (org_zip_gff _ _ _ _ _ Horg). rewrite <- H.
  unfold gff_dst. by apply prefix_app_r.
Qed.

Lemma elem_of_cds (f : path) :
  f ∈ cds ↔ below temp f ∧ is_cds_name (basename f) = true ∧ is_Some (fs1 !! f).
Proof.
  pose proof (org_scratch _ _ _ _ _ Horg) as Hs. fold temp in Hs.
  unfold cds. rewrite elem_of_rglob by done. unfold isdir.
  rewrite Hs. split; [by intros (_ & ? & ? & ?) | by intros (? & ? & ?)].
Qed.

Lemma elem_of_gff (g : path) :
  g ∈ gff ↔ below temp g ∧ is_gff_name (basename g) = true ∧ is_Some (fs1 !! g).
Proof.
  pose proof (org_out _ _ _ _ _ Horg) as Hout.
  assert (isdir fs2 temp = true) as Hd.
  { unfold isdir. change (stat fs2 temp) with (fs2 !! temp).
    assert (fs2 !! temp = fs1 !! temp) as ->.
    { apply (place_all_other self.(cds_dir) (cds_new_name family)).
      - intros (_ & [_ Hne] & _)%elem_of_rglob; done.
      - intros f _ H. apply (cds_dst_outside out tool_path family f Hout).
        change (temp `prefix_of` self.(cds_dir) ++ [cds_new_name family f]).
        by rewrite H. }
    pose proof (org_scratch _ _ _ _ _ Horg) as Hs. fold temp in Hs.
    change (fs1 !! temp) with (stat fs1 temp). by rewrite Hs. }
  assert (∀ g, below temp g → is_gff_name (basename g) = true →
               fs2 !! g = fs1 !! g) as Heq.
  { intros g' Hb Hm. apply place_all_other.
    - intros (_ & Hc & _)%elem_of_cds. apply cds_name_not_gff in Hc. congruence.
    - intros f _ <-. apply (cds_dst_outside out tool_path family f Hout), Hb. }
  unfold gff. rewrite elem_of_rglob by done. rewrite Hd. split.
  - intros (_ & Hb & Hm & Hs). rewrite Heq in Hs by done. done.
  - intros (Hb & Hm & Hs). rewrite <- Heq in Hs by done. done.
Qed.

Lemma final_cds_last (l1 l2 : list path) (f : path) :
  cds = l1 ++ f :: l2 →
  (∀ g, g ∈ l2 → cds_new_name family g ≠ cds_new_name family f) →
  final !! cds_dst f = fs1 !! f.
Proof.
  intros Hl Hlast.
  pose proof (org_out _ _ _ _ _ Horg) as Hout.
  rewrite final_outside;
    [| by apply (cds_dst_outside out tool_path family) | apply cds_dst_not_zip].
  rewrite outside_fs3;
    [| by apply (cds_dst_outside out tool_path family)
     | intros g H; by apply (cds_gff_dst_ne out tool_path family f g)].
  unfold fs2. rewrite Hl.
  apply (place_all_last self.(cds_dir) (cds_new_name family)).
  - rewrite <- Hl. apply NoDup_rglob, order_perm.
  - rewrite <- Hl. intros g _ Hin. apply (rglob_below order order_perm) in Hin.
    by apply (cds_dst_outside out tool_path family g Hout).
  - rewrite <- Hl. by intros g (_ & _ & Hs)%elem_of_cds.
  - intros g Hg H. apply (Hlast g Hg). apply app_inv_head in H. congruence.
Qed.

Lemma final_gff_last (l1 l2 : list path) (g : path) :
  gff = l1 ++ g :: l2 →
  (∀ h, h ∈ l2 → gff_new_name family h ≠ gff_new_name family g) →
  final !! gff_dst g = fs1 !! g.
Proof.
  intros Hl Hlast.
  pose proof (org_out _ _ _ _ _ Horg) as Hout.
  assert (g ∈ gff) as Hg by (rewrite Hl; set_solver).
  rewrite final_outside;
    [| by apply (gff_dst_outside out tool_path family) | apply gff_dst_not_zip].
  rewrite <- (gff_lookup_fs2 g Hg).
  unfold fs3. rewrite Hl.
  apply (place_all_last self.(gff_dir) (gff_new_name family)).
  - rewrite <- Hl. apply NoDup_rglob, order_perm.
  - rewrite <- Hl. intros h _ Hin. apply (rglob_below order order_perm) in Hin.
    by apply (gff_dst_outside out tool_path family h Hout).
  - rewrite <- Hl. intros h Hh. pose proof Hh as (_ & _ & Hs)%elem_of_gff.
    by rewrite gff_lookup_fs2.
  - intros h Hh H. apply (Hlast h Hh). apply app_inv_head in H. congruence.
Qed.


Lemma run_ok (w : World) :
  fs w = fs0 →
  ∃ lg,
    extract_and_organize_files order self zip_filename family w
    = (Ok (0 <? length cds + length gff)%nat,
       {| fs := final; log := log w ++ lg; calls := calls w |}).
Proof.
  intros Hw.
  destruct (organize_ok (logged INFO (start_message zip_filename) w) Hw) as [lg Hlg].
  exists ((INFO, start_message zip_filename) :: lg).
  erewrite extract_and_organize_files_ok; [| | exact Hlg].
  - simpl. by rewrite <- app_assoc.
  - destruct (extractall_is_zip _ _ _ _ (org_extract _ _ _ _ _ Horg)) as [ms Hz].
    unfold exists_. by rewrite Hw, Hz.
Qed.





(** The part of the clean-up that holds: after a run that goes through,
    nothing is left of the scratch directory nor of the archive. *)
Lemma cleaned_up_after_organizing (w : World) :
  fs w = fs0 →
  ∃ b w',
    extract_and_organize_files order (new_downloader out tool_path)
      zip_filename family w = (Ok b, w') ∧
    (∀ p, temp_dir family `prefix_of` p → fs w' !! p = None) ∧
    fs w' !! zip_filename = None.
Proof.
  intros Hw. destruct (run_ok w Hw) as [lg Hrun].
  eexists _, _. split; [exact Hrun |]. simpl fs. split.
  - apply final_scratch.
  - apply final_zip.
Qed.


(** Claim C8.  In a run that can go through, when the scan lists two
    matched files [f1] before [f2] with the same destination name and no
    file listed after [f2] shares it, the run ends without exception, it
    returns [True], and the one file under that name in the output folder
    has the contents of [f2]: the later move has replaced what the earlier
    one put there.  This holds of the coding-sequence loop and, with the
    scan made after that loop, of the gene-feature loop. *)
Theorem last_write_wins (w : World) :
  fs w = fs0 →
  ∃ b w',
    extract_and_organize_files order (new_downloader out tool_path)
      zip_filename family w = (Ok b, w') ∧
    (∀ l1 f1 l2 f2 l3,
       rglob order (temp_dir family) is_cds_name fs1
       = l1 ++ f1 :: l2 ++ f2 :: l3 →
       cds_new_name family f1 = cds_new_name family f2 →
       (∀ g, g ∈ l3 → cds_new_name family g ≠ cds_new_name family f2) →
       b = true ∧
       ∃ c, fs1 !! f2 = Some (File c) ∧
            fs w' !! ((out ++ ["cds_files"]) ++ [cds_new_name family f1])
            = Some (File c)) ∧
    (∀ w2 l1 g1 l2 g2 l3,
       for_each (rglob order (temp_dir family) is_cds_name fs1)
         (move_cds (new_downloader out tool_path) family)
         {| fs := fs1; log := log w ++ [(INFO, start_message zip_filename)];
            calls := calls w |} = (Ok tt, w2) →
       rglob order (temp_dir family) is_gff_name (fs w2)
       = l1 ++ g1 :: l2 ++ g2 :: l3 →
       gff_new_name family g1 = gff_new_name family g2 →
       (∀ g, g ∈ l3 → gff_new_name family g ≠ gff_new_name family g2) →
       b = true ∧
       ∃ c, fs1 !! g2 = Some (File c) ∧
            fs w' !! ((out ++ ["gff_files"]) ++ [gff_new_name family g1])
            = Some (File c)).
Proof.
  intros Hw. destruct (run_ok w Hw) as [lg Hrun].
  eexists _, _. split; [exact Hrun |]. simpl fs. split.
  - intros l1 f1 l2 f2 l3 Hl Hsame Hlast. fold temp cds in Hl. split.
    + rewrite Hl, length_app. simpl. apply Nat.ltb_lt. lia.
    + assert (f2 ∈ cds) as Hin by (rewrite Hl; set_solver).
      destruct (cds_are_files f2 Hin) as [c Hc].
      apply stat_file_lookup in Hc as [Hc _]. exists c. split; [done |].
      rewrite Hsame, <- Hc.
      apply (final_cds_last (l1 ++ f1 :: l2) l3 f2); [| done].
      by rewrite Hl, <- app_assoc.
  - intros w2 l1 g1 l2 g2 l3 Hloop Hl Hsame Hlast.
    pose proof (for_each_lift_ok (λ f, shutil_move f (cds_dst f)) INFO
      (λ f, [Text ("Moved CDS file: " +:+ cds_new_name family f)]) cds
      {| fs := fs1; log := log w ++ [(INFO, start_message zip_filename)];
         calls := calls w |} fs2 cds_loop) as H2.
    change (for_each cds (move_cds self family)
              {| fs := fs1; log := log w ++ [(INFO, start_message zip_filename)];
                 calls := calls w |} = (Ok tt, w2)) in Hloop.
    unfold move_cds in Hloop. unfold cds_dst in H2. rewrite H2 in Hloop.
    inversion Hloop; subst w2. simpl fs in Hl. fold temp fs2 gff in Hl. split.
    + rewrite Hl, length_app. simpl. apply Nat.ltb_lt. lia.
    + assert (g2 ∈ gff) as Hin by (rewrite Hl; set_solver).
      destruct (gff_are_files g2 Hin) as [c Hc].
      apply stat_file_lookup in Hc as [Hc _].
      rewrite (gff_lookup_fs2 g2 Hin) in Hc. exists c. split; [done |].
      rewrite Hsame, <- Hc.
      apply (final_gff_last (l1 ++ g1 :: l2) l3 g2); [| done].
      by rewrite Hl, <- app_assoc.
Qed.

End Organize.

Section Tool.

Variable tool : list (list string) → list string → FS → process * FS.
Variable order : list path → list path.
Variable self : RefSeqDataDownloader.
Variable family : string.

(** ** The archive retriever *)

(** Claim C9.  With both content kinds disabled the include parameter is
    "cds,gff3", the retriever behaves exactly as with both enabled, and
    the one command it runs is the download with [--include cds,gff3]. *)
Theorem no_kind_requests_both (w : World) :
  include_param false false = "cds,gff3" ∧
  download_genome_data tool self family false false w
  = download_genome_data tool self family true true w ∧
  calls (download_genome_data tool self family false false w).2
  = calls w ++ [download_cmd self.(datasets_tool) family "cds,gff3"
                  (zip_name family)].
Proof.
  split; [reflexivity |]. split; [reflexivity |].
  unfold download_genome_data, bind, try_except, logger, subprocess_run, ret.
  simpl. change (include_param false false) with "cds,gff3".
  destruct (tool _ _ _) as [[|rc out err] fs']; simpl; [done |].
  by destruct (rc =? 0)%Z.
Qed.

(** ** The availability prober *)


(** Claim C5 does not hold of the code.  When the preview command exits
    with status 0 and its output holds the marker [record_count] without
    being valid JSON, the prober does not return an empty list: the
    [JSONDecodeError] of [json.loads] leaves it, since its [except] clause
    names [CalledProcessError] only. *)
Theorem probe_escalates_bad_json (w : World) (out err : string) (fs' : FS) :
  tool (calls w) (preview_cmd self.(datasets_tool) family) (fs w)
  = (Exited 0 out err, fs') →
  contains "record_count" out = true →
  Json.loads out = None →
  get_available_species tool self family w
  = (Raise JSONDecodeError,
     {| fs := fs'; log := log w ++ [searching_message family];
        calls := calls w ++ [preview_cmd self.(datasets_tool) family] |}).
Proof.
  intros Ht Hc Hj.
  unfold get_available_species, bind, try_except, logger, subprocess_run, ret, raise.
  simpl. rewrite Ht. simpl. rewrite Hc, Hj. done.
Qed.

(** The part of the prober's contract that holds: a failed command and an
    output without the marker give the empty list, with a log record. *)
Lemma probe_failed_command (w : World) (rc : Z) (out err : string) (fs' : FS) :
  tool (calls w) (preview_cmd self.(datasets_tool) family) (fs w)
  = (Exited rc out err, fs') →
  rc ≠ 0%Z →
  get_available_species tool self family w
  = (Ok [],
     {| fs := fs';
        log := log w ++ [searching_message family;
                         (ERROR, [Text ("Error searching for " +:+ family +:+
                                        " species: ");
                                  OfExn (CalledProcessError rc err)])];
        calls := calls w ++ [preview_cmd self.(datasets_tool) family] |}).
Proof.
  intros Ht Hrc.
  unfold get_available_species, bind, try_except, logger, subprocess_run, ret, raise.
  simpl. rewrite Ht. simpl.
  destruct (rc =? 0)%Z eqn:E; [apply Z.eqb_eq in E; done |].
  simpl. by rewrite <- app_assoc.
Qed.

Lemma probe_no_marker (w : World) (out err : string) (fs' : FS) :
  tool (calls w) (preview_cmd self.(datasets_tool) family) (fs w)
  = (Exited 0 out err, fs') →
  contains "record_count" out = false →
  get_available_species tool self family w
  = (Ok [],
     {| fs := fs';
        log := log w ++ [searching_message family;
                         (WARNING, [Text ("No " +:+ family +:+
                            " genomes with chromosome-level assemblies found")])];
        calls := calls w ++ [preview_cmd self.(datasets_tool) family] |}).
Proof.
  intros Ht Hc.
  unfold get_available_species, bind, try_except, logger, subprocess_run, ret, raise.
  simpl. rewrite Ht. simpl. rewrite Hc. simpl. by rewrite <- app_assoc.
Qed.

Lemma probe_not_started (w : World) (fs' : FS) :
  tool (calls w) (preview_cmd self.(datasets_tool) family) (fs w)
  = (NotStarted, fs') →
  get_available_species tool self family w
  = (Raise FileNotFoundError,
     {| fs := fs w; log := log w ++ [searching_message family];
        calls := calls w ++ [preview_cmd self.(datasets_tool) family] |}).
Proof.
  intros Ht.
  unfold get_available_species, bind, try_except, logger, subprocess_run, ret, raise.
  simpl. by rewrite Ht.
Qed.


End Tool.

(** ** The family orchestrator *)

Section Orchestrator.

Variable tool : list (list string) → list string → FS → process * FS.
Variable order : list path → list path.
Variable self : RefSeqDataDownloader.
Variable family : string.
Variables include_cds include_gff : bool.





End Orchestrator.

(** ** The constructor *)

Lemma Path_mkdir_cases (p : path) (fs : FS) :
  (Path_mkdir_exist_ok p fs = (Ok tt, fs) ∧ stat fs p = Some Dir) ∨
  (Path_mkdir_exist_ok p fs = (Ok tt, <[p := Dir]> fs) ∧
   stat fs p = None ∧ stat fs (dirname p) = Some Dir) ∨
  (∃ e, Path_mkdir_exist_ok p fs = (Raise e, fs) ∧ is_OSError e = true ∧
        (isfile fs p = true ∨ stat fs (dirname p) ≠ Some Dir)).
Proof.
  unfold Path_mkdir_exist_ok, try_except, os_mkdir, bind, get, put, raise, ret.
  unfold isdir, isfile.
  destruct (stat fs p) as [[c|]|] eqn:Hp; simpl.
  - rewrite Hp. right. right. eexists. split; [done |]. split; [done |]. by left.
  - rewrite Hp. by left.
  - destruct (stat fs (dirname p)) as [[c|]|] eqn:Hd; simpl.
    + rewrite Hp. right. right. eexists. split; [done |]. split; [done |]. by right.
    + right. left. done.
    + right. right. eexists. split; [done |]. split; [done |]. by right.
Qed.

Lemma stat_insert_dir (fs : FS) (p q : path) :
  stat fs q = Some Dir → stat (<[p := Dir]> fs) q = Some Dir.
Proof.
  intros H. destruct q as [|a q]; [done |]. simpl in *.
  destruct (decide (p = a :: q)) as [-> | Hne].
  - by rewrite lookup_insert_eq.
  - by rewrite lookup_insert_ne.
Qed.

Lemma Path_mkdir_keeps (p q : path) (fs fs' : FS) (r : outcome unit) :
  Path_mkdir_exist_ok p fs = (r, fs') →
  stat fs q = Some Dir → stat fs' q = Some Dir.
Proof.
  intros H Hq.
  destruct (Path_mkdir_cases p fs) as [[H1 _] | [[H1 _] | (e & H1 & _)]];
    rewrite H1 in H; inversion H; subst; [done | | done].
  by apply stat_insert_dir.
Qed.

Lemma Path_mkdir_made (p : path) (fs fs' : FS) :
  Path_mkdir_exist_ok p fs = (Ok tt, fs') → stat fs' p = Some Dir.
Proof.
  intros H.
  destruct (Path_mkdir_cases p fs) as [[H1 Hd] | [[H1 _] | (e & H1 & _)]];
    rewrite H1 in H; inversion H; subst; [done |].
  destruct p as [|a p]; [done |]. simpl. by rewrite lookup_insert_eq.
Qed.

Lemma Path_mkdir_raises (p : path) (fs fs' : FS) (e : exn) :
  Path_mkdir_exist_ok p fs = (Raise e, fs') → is_OSError e = true ∧ fs' = fs.
Proof.
  intros H.
  destruct (Path_mkdir_cases p fs) as [[H1 Hd] | [[H1 _] | (e' & H1 & He & _)]];
    rewrite H1 in H; inversion H; subst; done.
Qed.



(** ** The entry point *)

Section Main.

Variable tool : list (list string) → list string → FS → process * FS.
Variable order : list path → list path.

Lemma init_cases (out : path) (tool_path : string) (w : World) :
  ∃ r fs',
    init out tool_path w = (r, {| fs := fs'; log := log w; calls := calls w |}) ∧
    match r with
    | Ok self =>
        self = new_downloader out tool_path ∧
        directories_exist (new_downloader out tool_path) fs'
    | Raise e => is_OSError e = true
    end.
Proof.
  unfold init. unfold bind at 1. unfold lift at 1. simpl output_dir.
  destruct (Path_mkdir_exist_ok out (fs w)) as [[[]|e] fs1] eqn:H1;
    [| apply Path_mkdir_raises in H1 as [He ->];
       eexists _, _; split; [reflexivity | done]].
  unfold bind at 1. unfold lift at 1. simpl fs. simpl cds_dir.
  destruct (Path_mkdir_exist_ok (out ++ ["cds_files"]) fs1) as [[[]|e] fs2] eqn:H2;
    [| apply Path_mkdir_raises in H2 as [He ->];
       eexists _, _; split; [reflexivity | done]].
  unfold bind at 1. unfold lift at 1. simpl fs. simpl gff_dir.
  destruct (Path_mkdir_exist_ok (out ++ ["gff_files"]) fs2) as [[[]|e] fs3] eqn:H3;
    [| apply Path_mkdir_raises in H3 as [He ->];
       eexists _, _; split; [reflexivity | done]].
  eexists _, fs3. split; [reflexivity |]. split; [done |].
  pose proof (Path_mkdir_made _ _ _ H1) as M1.
  pose proof (Path_mkdir_made _ _ _ H2) as M2.
  pose proof (Path_mkdir_made _ _ _ H3) as M3.
  pose proof (Path_mkdir_keeps _ _ _ _ _ H2 M1) as K1.
  pose proof (Path_mkdir_keeps _ _ _ _ _ H3 K1) as K1'.
  pose proof (Path_mkdir_keeps _ _ _ _ _ H3 M2) as K2.
  unfold directories_exist, isdir. simpl. by rewrite K1', K2, M3.
Qed.

Lemma check_datasets_tool_cases (self : RefSeqDataDownloader) (w : World) :
  ∃ b fs' lg,
    check_datasets_tool tool self w
    = (Ok b, {| fs := fs'; log := log w ++ lg;
                calls := calls w ++ [version_cmd self.(datasets_tool)] |}) ∧
    fs' = match tool (calls w) (version_cmd self.(datasets_tool)) (fs w) with
          | (NotStarted, _) => fs w
          | (Exited _ _ _, fs1) => fs1
          end.
Proof.
  unfold check_datasets_tool, try_except, bind, subprocess_run, logger, ret.
  destruct (tool _ _ _) as [[|rc out err] fs1]; simpl.
  - by eexists _, _, [_].
  - destruct (rc =? 0)%Z; simpl; by eexists _, _, [_].
Qed.

Lemma main_both_skipped (args : Args) (w : World) :
  args.(arg_no_cds) = true →
  args.(arg_no_gff) = true →
  ∃ e w',
    main tool order args w = (Raise e, w') ∧
    (e = SystemExit 1 ∨ is_OSError e = true) ∧
    (calls w' = calls w ∨
     calls w' = calls w ++ [version_cmd args.(arg_datasets_tool)]).
Proof.
  intros Hc Hg. unfold main. unfold bind at 1.
  destruct (init_cases args.(arg_output_dir) args.(arg_datasets_tool) w)
    as ([self|e] & fs1 & -> & Hr).
  - destruct Hr as [-> _]. unfold bind at 1.
    destruct (check_datasets_tool_cases
                (new_downloader args.(arg_output_dir) args.(arg_datasets_tool))
                {| fs := fs1; log := log w; calls := calls w |})
      as (b & fs2 & lg & -> & _).
    rewrite Hc, Hg. destruct b; simpl.
    + eexists _, _. split; [reflexivity |]. split; [by left | by right].
    + eexists _, _. split; [reflexivity |]. split; [by left | by right].
  - eexists _, _. split; [reflexivity |]. split; [by right | by left].
Qed.

(** Claim C6, amended.  With both skip flags set the program ends with a
    non-zero status, and the only command it can have run is the version
    check of the tool, which [main] makes before it looks at the flags: no
    probe and no download is started. *)
Theorem both_skipped_exits_after_version_check (args : Args) (w : World) :
  args.(arg_no_cds) = true →
  args.(arg_no_gff) = true →
  exit_status (main tool order args w).1 ≠ 0%Z ∧
  (calls (main tool order args w).2 = calls w ∨
   calls (main tool order args w).2
   = calls w ++ [version_cmd args.(arg_datasets_tool)]).
Proof.
  intros Hc Hg.
  destruct (main_both_skipped args w Hc Hg) as (e & w' & -> & He & Hcalls).
  simpl. split; [| done].
  destruct He as [-> | He]; [done |]. by destruct e.
Qed.



End Main.


(** * Further properties of the code

    The properties below are read off the code rather than off its
    specification: what each function does on failure and at the edges,
    what it leaves alone, and how the functions compose. *)

(** ** The tool check and the prober *)

Section ToolResults.

Variable tool : list (list string) → list string → FS → process * FS.
Variable self : RefSeqDataDownloader.
Variable family : string.


(** Property X2.  Whatever the tool answers and whatever the outcome (a
    list or an exception), the prober has run exactly one command, the
    preview with [--include cds,gff3], the disk is as the tool left it, and
    the log starts with the search message. *)
Theorem probe_runs_only_the_preview (w : World) :
  calls (get_available_species tool self family w).2
  = calls w ++ [preview_cmd self.(datasets_tool) family] ∧
  fs (get_available_species tool self family w).2
  = left_by (tool (calls w) (preview_cmd self.(datasets_tool) family) (fs w)) (fs w) ∧
  ∃ lg, log (get_available_species tool self family w).2
        = log w ++ searching_message family :: lg.
Proof.
  unfold get_available_species, bind, try_except, logger, subprocess_run, ret, raise.
  simpl. destruct (tool _ _ _) as [[|rc out err] fs']; simpl.
  { split_and!; [done | done |]. by exists []. }
  destruct (rc =? 0)%Z; simpl.
  2: { split_and!; [done | done |]. eexists. by rewrite <- app_assoc. }
  destruct (contains "record_count" out); simpl.
  2: { split_and!; [done | done |]. eexists. by rewrite <- app_assoc. }
  destruct (Json.loads out) as [data|]; simpl.
  2: { split_and!; [done | done |]. by exists []. }
  destruct (dict_get "record_count" (JInt 0) data) as [v|]; simpl.
  2: { split_and!; [done | done |]. by exists []. }
  destruct (gt_zero v) as [[]|]; simpl.
  - split_and!; [done | done |]. eexists. by rewrite <- app_assoc.
  - split_and!; [done | done |]. eexists. by rewrite <- !app_assoc.
  - split_and!; [done | done |]. eexists. by rewrite <- app_assoc.
Qed.


Lemma dict_get_missing (key : string) (d : json) (items : list (string * json)) :
  (∀ v, (key, v) ∉ items) →
  dict_get key d (JObject items) = Some d.
Proof.
  intros H. unfold dict_get. f_equal. revert d.
  induction items as [|[k v] items IH]; intros d; [done |]. simpl.
  destruct (String.eqb k key) eqn:E.
  - apply String.eqb_eq in E as ->. exfalso. apply (H v). by left.
  - apply IH. intros v' Hin. apply (H v'). by right.
Qed.

(** Property X4.  When the output holds the marker but the decoded object
    has no key [record_count], the default 0 of [data.get] is the count:
    the prober logs "Found 0 ..." and the warning, and returns the empty
    list. *)
Theorem probe_missing_key_is_zero (w : World) (out err : string) (fs' : FS)
    (items : list (string * json)) :
  tool (calls w) (preview_cmd self.(datasets_tool) family) (fs w)
  = (Exited 0 out err, fs') →
  contains "record_count" out = true →
  Json.loads out = Some (JObject items) →
  (∀ v, ("record_count", v) ∉ items) →
  get_available_species tool self family w
  = (Ok [],
     {| fs := fs';
        log := log w ++ [searching_message family;
                         found_message (JInt 0) family;
                         no_genomes_warning family];
        calls := calls w ++ [preview_cmd self.(datasets_tool) family] |}).
Proof.
  intros Ht Hc Hj Hk.
  pose proof (dict_get_missing "record_count" (JInt 0) items Hk) as Hd.
  revert Hj Hd. generalize (JObject items). intros data Hj Hd.
  unfold get_available_species, bind, try_except, logger, subprocess_run, ret, raise.
  simpl. rewrite Ht. simpl. rewrite Hc, Hj. simpl. rewrite Hd. simpl.
  by rewrite <- !app_assoc.
Qed.

End ToolResults.

(** ** The JSON reader on the report of a count *)

Lemma list_ascii_app (a b : string) :
  list_ascii_of_string (a +:+ b) = list_ascii_of_string a ++ list_ascii_of_string b.
Proof. induction a as [|c a IH]; simpl; [done | by rewrite IH]. Qed.

Lemma scanstring_plain (k : list ascii) (fuel : nat) (acc rest : list ascii) :
  Forall plain k → length k < fuel →
  Json.scanstring fuel acc (k ++ Json.dquote :: rest)
  = Some (string_of_list_ascii (reverse acc ++ k), rest).
Proof.
  revert fuel acc. induction k as [|c k IH]; intros fuel acc Hk Hf.
  - destruct fuel as [|fuel]; [simpl in Hf; lia |]. cbn [Json.scanstring app].
    rewrite bool_decide_eq_true_2 by done. by rewrite app_nil_r.
  - destruct fuel as [|fuel]; [simpl in Hf; lia |].
    apply Forall_cons in Hk as [(Hq & Hb & Hc) Hk]. cbn [Json.scanstring app].
    rewrite (bool_decide_eq_false_2 (c = Json.dquote)) by done.
    rewrite (bool_decide_eq_false_2 (c = Json.backslash)) by done.
    rewrite Hc. rewrite IH; [| done | simpl in Hf; lia].
    by rewrite reverse_cons, <- app_assoc.
Qed.

Lemma digits_of_uint (l : Decimal.uint) (acc : positive) (cnt : nat)
    (rest : list ascii) :
  Json.digits (N.pos acc) cnt
    (list_ascii_of_string (DecimalString.NilEmpty.string_of_uint l)
     ++ "}"%char :: rest)
  = (N.pos (Pos.of_uint_acc l acc), (cnt + Decimal.nb_digits l)%nat,
     "}"%char :: rest).
Proof.
  revert acc cnt. induction l; intros acc cnt; simpl;
    rewrite ?Nat.add_0_r; try done;
    match goal with
    | |- Json.digits ?a _ _ = _ =>
        match goal with
        | |- context [Pos.of_uint_acc _ ?b] =>
            replace a with (N.pos b) by lia
        end
    end;
    rewrite IHl; f_equal; f_equal; lia.
Qed.

Lemma strip_literal_head (lit : string) (c : ascii) (r : list ascii) :
  match list_ascii_of_string lit with x :: _ => x ≠ c | [] => False end →
  Json.strip_literal lit (c :: r) = None.
Proof.
  unfold Json.strip_literal. destruct (list_ascii_of_string lit) as [|x l]; [done |].
  intros Hx. rewrite bool_decide_eq_false_2; [done |].
  simpl. intros [= -> _]. done.
Qed.

Lemma value_digit (fuel : nat) (c : ascii) (r : list ascii) (d : N) :
  Json.digit c = Some d →
  Json.value (S fuel) (c :: r) = Json.number (c :: r).
Proof.
  intros Hd.
  assert (∀ x, Json.digit x = None → c ≠ x) as Hne by (intros x Hx ->; congruence).
  cbn [Json.value].
  rewrite !bool_decide_eq_false_2 by (apply Hne; reflexivity).
  rewrite strip_literal_head; [done |]. simpl. intros E. symmetry in E. revert E.
  apply Hne. reflexivity.
Qed.

Lemma number_decimal (n : N) (rest : list ascii) :
  Json.number (list_ascii_of_string (decimal n) ++ "}"%char :: rest)
  = Some (JInt (Z.of_N n), "}"%char :: rest) ∧
  ∃ c r d, list_ascii_of_string (decimal n) = c :: r ∧ Json.digit c = Some d.
Proof.
  unfold decimal.
  pose proof (DecimalN.Unsigned.of_to n) as Hof.
  pose proof (DecimalN.Unsigned.to_of (N.to_uint n)) as Hnorm. rewrite Hof in Hnorm.
  destruct (N.to_uint n) as [|l|l|l|l|l|l|l|l|l|l] eqn:E.
  1: by destruct (DecimalFacts.unorm_nonnil Decimal.Nil).
  1: { (* a leading zero: the numeral is 0 *)
    assert (l = Decimal.Nil) as ->.
    { destruct (Decimal.uint_eq_dec (Decimal.nzhead (Decimal.D0 l)) Decimal.Nil)
        as [H0 | H0].
      - apply DecimalFacts.unorm_0 in H0. rewrite <- Hnorm in H0. by injection H0.
      - rewrite (DecimalFacts.unorm_nzhead _ H0) in Hnorm. symmetry in Hnorm.
        by apply DecimalFacts.nzhead_nonzero in Hnorm. }
    rewrite <- Hof. split; [reflexivity |]. by eexists _, _, _. }
  (* a leading digit from 1 to 9 *)
  all: rewrite <- Hof; split; [| by eexists _, _, _];
    simpl list_ascii_of_string; cbn [app]; unfold Json.number;
    match goal with
    | |- context [Json.digit ?c] =>
        let v := eval vm_compute in (Json.digit c) in
        change (Json.digit c) with v
    end;
    cbv iota beta; simpl N.eqb; cbv iota;
    rewrite digits_of_uint; reflexivity.
Qed.

Lemma value_object (fuel : nat) (r : list ascii) :
  Json.value (S fuel) ("{"%char :: Json.dquote :: r) = Json.members fuel [] r.
Proof. reflexivity. Qed.

Lemma members_last (fuel : nat) (acc : list (string * json)) (s t t' : list ascii)
    (k : string) (v : json) :
  Json.scanstring (S (length s)) [] s = Some (k, ":"%char :: " "%char :: t) →
  Json.skip_ws t = t →
  Json.value fuel t = Some (v, "}"%char :: t') →
  Json.members (S fuel) acc s = Some (JObject (reverse ((k, v) :: acc)), t').
Proof.
  intros Hs Ht Hv. cbn [Json.members]. rewrite Hs. cbn [mbind option_bind].
  change (Json.skip_ws (":"%char :: " "%char :: t))
    with (":"%char :: " "%char :: t).
  cbv iota beta.
  change (Json.skip_ws (" "%char :: t)) with (Json.skip_ws t).
  rewrite Ht, Hv. cbn [mbind option_bind].
  change (Json.skip_ws ("}"%char :: t')) with ("}"%char :: t').
  reflexivity.
Qed.

Lemma digit_not_ws (c : ascii) (d : N) : Json.digit c = Some d → Json.is_ws c = false.
Proof.
  unfold Json.digit, Json.is_ws, nat_of_ascii. generalize (N_of_ascii c). intros m.
  destruct (_ && _)%N eqn:E; [| discriminate]. intros _.
  apply andb_true_iff in E as [E1 E2]. apply N.leb_le in E1. apply N.leb_le in E2.
  rewrite !orb_false_iff, !Nat.eqb_neq. lia.
Qed.

Lemma loads_count_report (n : N) :
  Json.loads (count_report n) = Some (JObject [("record_count", JInt (Z.of_N n))]).
Proof.
  destruct (number_decimal n []) as (Hnum & c & r & d & Hc & Hd).
  unfold Json.loads, count_report, Json.quoted.
  rewrite !list_ascii_app.
  set (D := list_ascii_of_string (decimal n)) in *.
  set (key := list_ascii_of_string "record_count").
  set (s := _ ++ _).
  change s with ("{"%char :: Json.dquote :: key ++
                 Json.dquote :: ":"%char :: " "%char :: D ++ ["}"%char]) in *.
  clear s. set (s := "{"%char :: _).
  assert (Json.skip_ws s = s) as -> by reflexivity.
  assert (∃ fuel, length s = S (S fuel)) as [fuel ->] by (by eexists).
  unfold s. rewrite value_object.
  rewrite (members_last (S fuel) [] _ (D ++ ["}"%char]) [] "record_count"
             (JInt (Z.of_N n))).
  - reflexivity.
  - rewrite (scanstring_plain key); [reflexivity | | simpl; lia].
    unfold key. repeat constructor; discriminate.
  - rewrite Hc. cbn [app Json.skip_ws]. by rewrite (digit_not_ws c d Hd).
  - rewrite Hc. cbn [app]. rewrite (value_digit _ c _ d Hd).
    change (c :: r ++ ["}"%char]) with ((c :: r) ++ ["}"%char]).
    rewrite <- Hc. exact Hnum.
Qed.

Lemma contains_count_report (n : N) :
  contains "record_count" (count_report n) = true.
Proof. reflexivity. Qed.

Section CountReport.

Variable tool : list (list string) → list string → FS → process * FS.
Variable self : RefSeqDataDownloader.
Variable family : string.

(** Property X5.  For every natural number [n] below 10^4300 (Python
    refuses an integer literal of more digits), when the preview exits with
    status 0 and prints the object whose one key [record_count] has the
    decimal numeral of [n] as value, the JSON reader decodes that count and
    the prober returns [[family]] if [n] is positive, and the empty list
    after the warning if it is 0. *)
Theorem probe_follows_declared_count (w : World) (n : N) (err : string) (fs' : FS) :
  (n < 10 ^ 4300)%N →
  tool (calls w) (preview_cmd self.(datasets_tool) family) (fs w)
  = (Exited 0 (count_report n) err, fs') →
  get_available_species tool self family w
  = (Ok (if (0 <? n)%N then [family] else []),
     {| fs := fs';
        log := log w ++ searching_message family
                 :: found_message (JInt (Z.of_N n)) family
                 :: (if (0 <? n)%N then [] else [no_genomes_warning family]);
        calls := calls w ++ [preview_cmd self.(datasets_tool) family] |}).
Proof.
  intros _ Ht.
  pose proof (loads_count_report n) as Hj.
  pose proof (contains_count_report n) as Hc.
  revert Ht Hj Hc. generalize (count_report n). intros out Ht Hj Hc.
  unfold get_available_species, bind, try_except, logger, subprocess_run, ret, raise.
  simpl. rewrite Ht. simpl. rewrite Hc, Hj. simpl.
  replace (0 <? Z.of_N n)%Z with (0 <? n)%N.
  2: { destruct (N.ltb_spec 0 n), (Z.ltb_spec 0 (Z.of_N n)); lia. }
  destruct (0 <? n)%N; simpl; by rewrite <- !app_assoc.
Qed.

End CountReport.

(** ** The retriever *)

Section Retriever.

Variable tool : list (list string) → list string → FS → process * FS.
Variable self : RefSeqDataDownloader.
Variable family : string.


End Retriever.

(** ** The constructor: what it creates, when it succeeds *)

Section Constructor.

Variables (out : path) (tool_path : string).

Lemma Path_mkdir_adds (p : path) (fs fs' : FS) (r : outcome unit) :
  Path_mkdir_exist_ok p fs = (r, fs') →
  ∀ q, fs' !! q = fs !! q ∨ (fs !! q = None ∧ fs' !! q = Some Dir ∧ q = p).
Proof.
  intros H q.
  destruct (Path_mkdir_cases p fs) as [[H1 _] | [(H1 & Hn & _) | (e & H1 & _)]];
    rewrite H1 in H; inversion H; subst; [by left | | by left].
  destruct (decide (q = p)) as [-> | Hne].
  - right. rewrite lookup_insert_eq. split_and!; [| done | done].
    destruct p; [discriminate | done].
  - left. by rewrite lookup_insert_ne.
Qed.

Lemma init_adds (w w' : World) (r : outcome RefSeqDataDownloader) :
  init out tool_path w = (r, w') →
  log w' = log w ∧ calls w' = calls w ∧
  ∀ p, fs w' !! p = fs w !! p ∨
       (fs w !! p = None ∧ fs w' !! p = Some Dir ∧
        p ∈ [out; out ++ ["cds_files"]; out ++ ["gff_files"]]).
Proof.
  unfold init. unfold bind at 1. unfold lift at 1. simpl output_dir.
  destruct (Path_mkdir_exist_ok out (fs w)) as [r1 fs1] eqn:H1.
  pose proof (Path_mkdir_adds _ _ _ _ H1) as A1.
  assert (∀ p, fs1 !! p = fs w !! p ∨
               (fs w !! p = None ∧ fs1 !! p = Some Dir ∧
                p ∈ [out; out ++ ["cds_files"]; out ++ ["gff_files"]])) as B1.
  { intros p. destruct (A1 p) as [? | (? & ? & ->)]; [by left | right]. set_solver. }
  destruct r1 as [[]|e]; [| intros [= <- <-]; done].
  unfold bind at 1. unfold lift at 1. simpl fs. simpl cds_dir.
  destruct (Path_mkdir_exist_ok (out ++ ["cds_files"]) fs1) as [r2 fs2] eqn:H2.
  pose proof (Path_mkdir_adds _ _ _ _ H2) as A2.
  assert (∀ p, fs2 !! p = fs w !! p ∨
               (fs w !! p = None ∧ fs2 !! p = Some Dir ∧
                p ∈ [out; out ++ ["cds_files"]; out ++ ["gff_files"]])) as B2.
  { intros p. destruct (A2 p) as [E2 | (N2 & D2 & ->)].
    - rewrite E2. apply B1.
    - destruct (B1 (out ++ ["cds_files"])) as [E1 | (N1 & D1 & Hq)].
      + right. rewrite <- E1. set_solver.
      + congruence. }
  destruct r2 as [[]|e]; [| intros [= <- <-]; done].
  unfold bind at 1. unfold lift at 1. simpl fs. simpl gff_dir.
  destruct (Path_mkdir_exist_ok (out ++ ["gff_files"]) fs2) as [r3 fs3] eqn:H3.
  pose proof (Path_mkdir_adds _ _ _ _ H3) as A3.
  assert (∀ p, fs3 !! p = fs w !! p ∨
               (fs w !! p = None ∧ fs3 !! p = Some Dir ∧
                p ∈ [out; out ++ ["cds_files"]; out ++ ["gff_files"]])) as B3.
  { intros p. destruct (A3 p) as [E3 | (N3 & D3 & ->)].
    - rewrite E3. apply B2.
    - destruct (B2 (out ++ ["gff_files"])) as [E2 | (N2 & D2 & Hq)].
      + right. rewrite <- E2. set_solver.
      + congruence. }
  destruct r3 as [[]|e]; intros [= <- <-]; done.
Qed.

(** Property X7.  Whether it succeeds or raises, the constructor writes
    nothing to the log, runs no command, and changes the disk only by
    creating directories, among its three paths, where nothing was: every
    entry that existed is unchanged. *)
Theorem init_only_adds_directories (w : World) :
  log (init out tool_path w).2 = log w ∧
  calls (init out tool_path w).2 = calls w ∧
  ∀ p, fs (init out tool_path w).2 !! p = fs w !! p ∨
       (fs w !! p = None ∧
        fs (init out tool_path w).2 !! p = Some Dir ∧
        p ∈ [out; out ++ ["cds_files"]; out ++ ["gff_files"]]).
Proof.
  destruct (init out tool_path w) as [r w'] eqn:H. simpl.
  exact (init_adds _ _ _ H).
Qed.

Lemma isfile_insert_dir_ne (fs : FS) (p q : path) :
  q ≠ p → isfile (<[p := Dir]> fs) q = isfile fs q.
Proof.
  intros Hne. unfold isfile. destruct q as [|a q]; [done |]. simpl.
  by rewrite lookup_insert_ne.
Qed.

Lemma Path_mkdir_child (d : path) (n : string) (fs : FS) :
  stat fs d = Some Dir →
  (∃ fs', Path_mkdir_exist_ok (d ++ [n]) fs = (Ok tt, fs') ∧
          stat fs' d = Some Dir ∧
          ∀ q, q ≠ d ++ [n] → isfile fs' q = isfile fs q) ↔
  isfile fs (d ++ [n]) = false.
Proof.
  intros Hd. pose proof (Path_mkdir_cases (d ++ [n]) fs) as H.
  rewrite dirname_snoc in H. unfold isfile in *.
  destruct H as [[H1 Hs] | [(H1 & Hn & _) | (e & H1 & _ & [Hf | Hp])]].
  - rewrite Hs. split; [done | intros _]. by exists fs.
  - rewrite Hn. split; [done | intros _]. eexists. split; [exact H1 |].
    split; [by apply stat_insert_dir |]. intros q Hq. by apply isfile_insert_dir_ne.
  - split; [| congruence]. intros (fs' & H & _). congruence.
  - done.
Qed.

Lemma Path_mkdir_there (p : path) (fs : FS) :
  isdir fs p = true → Path_mkdir_exist_ok p fs = (Ok tt, fs).
Proof.
  intros Hd.
  unfold Path_mkdir_exist_ok, try_except, os_mkdir, bind, get, raise, ret.
  unfold isdir in *. destruct (stat fs p) as [[|]|] eqn:E; try discriminate.
  simpl. by rewrite E.
Qed.

(** Property X8.  The constructor succeeds exactly when the output
    directory is a directory already, or does not exist and has a directory
    as parent, and neither [cds_files] nor [gff_files] below it is a regular
    file. *)
Theorem init_succeeds_iff (w : World) :
  (init out tool_path w).1 = Ok (new_downloader out tool_path) ↔
  (isdir (fs w) out = true ∨
   (stat (fs w) out = None ∧ stat (fs w) (dirname out) = Some Dir)) ∧
  isfile (fs w) (out ++ ["cds_files"]) = false ∧
  isfile (fs w) (out ++ ["gff_files"]) = false.
Proof.
  destruct (init out tool_path w) as [r w'] eqn:Hi. simpl fst.
  unfold init in Hi. unfold bind at 1 in Hi. unfold lift at 1 in Hi.
  simpl output_dir in Hi.
  assert (out ++ ["gff_files"] ≠ out ++ ["cds_files"]) as Hgc
    by (intros H%app_inv_head; discriminate).
  destruct (Path_mkdir_cases out (fs w)) as [[H1 Hs] | [(H1 & Hn & Hp) | (e & H1 & _ & He)]].
  3: { rewrite H1 in Hi. injection Hi as <- <-. split; [discriminate |].
       intros [[Hd | [Hn Hp]] _].
       - rewrite (Path_mkdir_there _ _ Hd) in H1. discriminate.
       - destruct He as [Hf | Hp']; [| done].
         unfold isfile in Hf. by rewrite Hn in Hf. }
  - (* the output directory was there *)
    rewrite H1 in Hi. unfold bind at 1 in Hi. unfold lift at 1 in Hi.
    simpl fs in Hi. simpl cds_dir in Hi.
    assert (isdir (fs w) out = true) as Hd by (unfold isdir; by rewrite Hs).
    destruct (isfile (fs w) (out ++ ["cds_files"])) eqn:Hc.
    { destruct (Path_mkdir_cases (out ++ ["cds_files"]) (fs w))
        as [[_ Hs2] | [(_ & Hn2 & _) | (e & H2 & _)]].
      - unfold isfile in Hc. by rewrite Hs2 in Hc.
      - unfold isfile in Hc. by rewrite Hn2 in Hc.
      - rewrite H2 in Hi. injection Hi as <- <-. split; [discriminate | by intros (_ & ? & _)]. }
    apply (Path_mkdir_child out "cds_files" (fs w) Hs) in Hc as (fs2 & H2 & Ho2 & Hk2).
    rewrite H2 in Hi. unfold bind at 1 in Hi. unfold lift at 1 in Hi.
    simpl fs in Hi. simpl gff_dir in Hi.
    rewrite <- (Hk2 (out ++ ["gff_files"])) by done.
    destruct (isfile fs2 (out ++ ["gff_files"])) eqn:Hg.
    { destruct (Path_mkdir_cases (out ++ ["gff_files"]) fs2)
        as [[_ Hs3] | [(_ & Hn3 & _) | (e & H3 & _)]].
      - unfold isfile in Hg. by rewrite Hs3 in Hg.
      - unfold isfile in Hg. by rewrite Hn3 in Hg.
      - rewrite H3 in Hi. injection Hi as <- <-. split; [discriminate | by intros (_ & _ & ?)]. }
    apply (Path_mkdir_child out "gff_files" fs2 Ho2) in Hg as (fs3 & H3 & _).
    rewrite H3 in Hi. injection Hi as <- <-. split; [| done]. intros _.
    split_and!; [by left | done | done].
  - (* the output directory is created *)
    rewrite H1 in Hi. unfold bind at 1 in Hi. unfold lift at 1 in Hi.
    simpl fs in Hi. simpl cds_dir in Hi.
    set (fs1 := <[out := Dir]> (fs w)) in *.
    assert (stat fs1 out = Some Dir) as Ho1.
    { unfold fs1. destruct out; [done |]. simpl. by rewrite lookup_insert_eq. }
    assert (∀ q, q ≠ out → isfile fs1 q = isfile (fs w) q) as Hk1
      by (intros q Hq; by apply isfile_insert_dir_ne).
    rewrite <- (Hk1 (out ++ ["cds_files"])) by (symmetry; apply snoc_ne_self).
    rewrite <- (Hk1 (out ++ ["gff_files"])) by (symmetry; apply snoc_ne_self).
    destruct (isfile fs1 (out ++ ["cds_files"])) eqn:Hc.
    { destruct (Path_mkdir_cases (out ++ ["cds_files"]) fs1)
        as [[_ Hs2] | [(_ & Hn2 & _) | (e & H2 & _)]].
      - unfold isfile in Hc. by rewrite Hs2 in Hc.
      - unfold isfile in Hc. by rewrite Hn2 in Hc.
      - rewrite H2 in Hi. injection Hi as <- <-. split; [discriminate | by intros (_ & ? & _)]. }
    apply (Path_mkdir_child out "cds_files" fs1 Ho1) in Hc as (fs2 & H2 & Ho2 & Hk2).
    rewrite H2 in Hi. unfold bind at 1 in Hi. unfold lift at 1 in Hi.
    simpl fs in Hi. simpl gff_dir in Hi.
    rewrite <- (Hk2 (out ++ ["gff_files"])) by done.
    destruct (isfile fs2 (out ++ ["gff_files"])) eqn:Hg.
    { destruct (Path_mkdir_cases (out ++ ["gff_files"]) fs2)
        as [[_ Hs3] | [(_ & Hn3 & _) | (e & H3 & _)]].
      - unfold isfile in Hg. by rewrite Hs3 in Hg.
      - unfold isfile in Hg. by rewrite Hn3 in Hg.
      - rewrite H3 in Hi. injection Hi as <- <-. split; [discriminate | by intros (_ & _ & ?)]. }
    apply (Path_mkdir_child out "gff_files" fs2 Ho2) in Hg as (fs3 & H3 & _).
    rewrite H3 in Hi. injection Hi as <- <-. split; [| done]. intros _.
    split_and!; [by right | done | done].
Qed.

(** Property X9.  Constructing a second downloader in the world the first
    construction left changes nothing. *)
Theorem init_idempotent (w w1 : World) (self : RefSeqDataDownloader) :
  init out tool_path w = (Ok self, w1) →
  init out tool_path w1 = (Ok self, w1).
Proof.
  intros Hi.
  destruct (init_cases out tool_path w) as (r & fs1 & Hi' & Hr).
  rewrite Hi in Hi'. injection Hi' as <- ->. destruct Hr as [-> (Ho & Hc & Hg)].
  unfold init.
  unfold bind at 1. unfold lift at 1. cbn [fs log calls].
  rewrite (Path_mkdir_there _ _ Ho).
  unfold bind at 1. unfold lift at 1. cbn [fs log calls].
  rewrite (Path_mkdir_there _ _ Hc).
  unfold bind at 1. unfold lift at 1. cbn [fs log calls].
  rewrite (Path_mkdir_there _ _ Hg). reflexivity.
Qed.

End Constructor.

(** ** What the primitives leave alone *)

Lemma same_outside_refl (R : path → Prop) (fs : FS) : same_outside R fs fs.
Proof. by intros p _. Qed.

Lemma same_outside_trans (R : path → Prop) (fs1 fs2 fs3 : FS) :
  same_outside R fs1 fs2 → same_outside R fs2 fs3 → same_outside R fs1 fs3.
Proof. intros H1 H2 p Hp. by rewrite H2, H1. Qed.

Lemma same_outside_mono (R R' : path → Prop) (fs fs' : FS) :
  (∀ p, R p → R' p) → same_outside R fs fs' → same_outside R' fs fs'.
Proof. intros HR H p Hp. apply H. intros Hq. by apply Hp, HR. Qed.

Lemma fs_local_mono {A : Type} (R R' : path → Prop) (m : M FS A) :
  (∀ p, R p → R' p) → fs_local R m → fs_local R' m.
Proof.
  intros HR H fs r fs' Hm. destruct (H fs r fs' Hm) as [Hs He].
  split; [by eapply same_outside_mono | done].
Qed.

Lemma fs_local_ret {A : Type} (R : path → Prop) (a : A) : fs_local R (ret a).
Proof. intros fs r fs' [= <- <-]. split; [apply same_outside_refl | done]. Qed.

Lemma fs_local_raise {A : Type} (R : path → Prop) (e : exn) :
  is_Exception e = true → fs_local R (raise (A := A) e).
Proof. intros He fs r fs' [= <- <-]. split; [apply same_outside_refl | done]. Qed.

Lemma fs_local_at_bind {A B : Type} (R : path → Prop) (m : M FS A)
    (k : A → M FS B) (fs : FS) :
  fs_local_at R m fs → (∀ a, fs_local R (k a)) → fs_local_at R (bind m k) fs.
Proof.
  intros Hm Hk r fs' H. unfold bind in H.
  destruct (m fs) as [[a|e] fs1] eqn:E; destruct (Hm _ _ E) as [Hs He].
  - destruct (Hk a _ _ _ H) as [Hs' He']. split; [| done].
    by eapply same_outside_trans.
  - inversion H; subst. done.
Qed.

Lemma fs_local_bind {A B : Type} (R : path → Prop) (m : M FS A) (k : A → M FS B) :
  fs_local R m → (∀ a, fs_local R (k a)) → fs_local R (bind m k).
Proof. intros Hm Hk fs. by apply fs_local_at_bind. Qed.

Lemma fs_local_get_bind {A : Type} (R : path → Prop) (k : FS → M FS A) :
  (∀ fs, fs_local_at R (k fs) fs) → fs_local R (bind get k).
Proof. intros Hk fs r fs' H. unfold bind, get in H. by eapply Hk. Qed.

Lemma fs_local_try {A : Type} (R : path → Prop) (body : M FS A) (catches : exn → bool)
    (handler : exn → M FS A) :
  fs_local R body →
  (∀ e, catches e = true → fs_local R (handler e)) →
  fs_local R (try_except body catches handler).
Proof.
  intros Hb Hh fs r fs' H. unfold try_except in H.
  destruct (body fs) as [[a|e] fs1] eqn:E; destruct (Hb _ _ _ E) as [Hs He].
  - inversion H; subst. done.
  - destruct (catches e) eqn:Hc.
    + destruct (Hh e Hc _ _ _ H) as [Hs' He']. split; [| done].
      by eapply same_outside_trans.
    + inversion H; subst. done.
Qed.

Lemma fs_local_for_each {A : Type} (R : path → Prop) (l : list A) (body : A → M FS unit) :
  (∀ x, x ∈ l → fs_local R (body x)) → fs_local R (for_each l body).
Proof.
  induction l as [|x l IH]; intros Hb; simpl.
  - apply fs_local_ret.
  - apply fs_local_bind; [apply Hb; by left |].
    intros _. apply IH. intros y Hy. apply Hb. by right.
Qed.

Lemma os_mkdir_local (p : path) : fs_local (λ q, q = p) (os_mkdir p).
Proof.
  intros fs r fs'. unfold os_mkdir, bind, get, put, raise.
  destruct (stat fs p) as [[|]|]; [| | destruct (stat fs (dirname p)) as [[|]|]];
    intros [= <- <-]; (split; [| done]); try apply same_outside_refl.
  intros q Hq. by rewrite lookup_insert_ne.
Qed.

Lemma write_file_local (p : path) (c : content) :
  fs_local (λ q, q = p) (write_file p c).
Proof.
  intros fs r fs'. unfold write_file, bind, get, put, raise.
  destruct (stat fs p) as [[|]|]; destruct (stat fs (dirname p)) as [[|]|];
    intros [= <- <-]; (split; [| done]); try apply same_outside_refl;
    intros q Hq; by rewrite lookup_insert_ne.
Qed.

Lemma os_remove_local (p : path) : fs_local (λ q, q = p) (os_remove p).
Proof.
  intros fs r fs'. unfold os_remove, bind, get, put, raise.
  destruct (stat fs p) as [[|]|];
    intros [= <- <-]; (split; [| done]); try apply same_outside_refl.
  intros q Hq. by rewrite lookup_delete_ne.
Qed.

Lemma rmtree_local (p : path) : fs_local (λ q, p `prefix_of` q) (rmtree p).
Proof.
  intros fs r fs'. unfold rmtree, bind, get, put, raise.
  destruct (stat fs p) as [[|]|];
    intros [= <- <-]; (split; [| done]); try apply same_outside_refl.
  intros q Hq. simpl in Hq. rewrite lookup_remove_tree.
  destruct (decide (p `prefix_of` q)); [tauto | done].
Qed.

Lemma makedirs_walk_local (base rest : path) :
  fs_local (λ q, q `prefix_of` base ++ rest) (makedirs_walk base rest).
Proof.
  revert base. induction rest as [|d rest IH]; intros base; simpl.
  - apply fs_local_ret.
  - apply fs_local_get_bind. intros fs. apply fs_local_at_bind.
    + destruct (stat fs (base ++ [d])) as [[c|]|].
      * by apply fs_local_raise.
      * apply fs_local_ret.
      * unfold fs_local_at. cbv beta delta [put]. intros r fs' [= <- <-].
        split; [| done].
        intros q Hq. rewrite lookup_insert_ne; [done |].
        intros <-. apply Hq. rewrite (cons_middle d base rest), app_assoc.
        by apply prefix_app_r.
    + intros _. eapply fs_local_mono; [| apply IH].
      intros q. by rewrite (cons_middle d base rest), app_assoc.
Qed.

Lemma os_makedirs_local (p : path) :
  fs_local (λ q, q `prefix_of` p) (os_makedirs p).
Proof.
  apply fs_local_get_bind. intros fs. destruct (exists_ fs p).
  - by apply fs_local_raise.
  - apply (makedirs_walk_local [] p).
Qed.

Lemma lookup_reroot_Some (src dst : path) (fs : FS) (p : path) (x : node) :
  reroot src dst fs !! p = Some x → dst `prefix_of` p.
Proof.
  unfold reroot. intros H. apply elem_of_list_to_map_2 in H.
  apply list_elem_of_omap in H as ([q y] & _ & Hq).
  destruct (decide (src `prefix_of` q)); [| discriminate].
  inversion Hq; subst. by apply prefix_app_r.
Qed.

Lemma lookup_reroot_outside (src dst : path) (fs : FS) (p : path) :
  ¬ dst `prefix_of` p → reroot src dst fs !! p = None.
Proof.
  intros Hp. destruct (reroot src dst fs !! p) as [x|] eqn:E; [| done].
  by apply lookup_reroot_Some in E.
Qed.

Lemma os_rename_local (src dst : path) :
  fs_local (λ q, src `prefix_of` q ∨ dst `prefix_of` q) (os_rename src dst).
Proof.
  assert (∀ fs : FS,
    same_outside (λ q, src `prefix_of` q ∨ dst `prefix_of` q) fs
      (reroot src dst fs ∪ remove_tree src fs)) as Hmv.
  { intros fs q Hq. rewrite lookup_union_r by (apply lookup_reroot_outside; tauto).
    rewrite lookup_remove_tree. destruct (decide (src `prefix_of` q)); tauto. }
  intros fs r fs'. unfold os_rename, bind, get, put, raise, ret.
  destruct (stat fs src) as [[c|]|].
  - destruct (stat fs (dirname dst)) as [[|]|]; [| destruct (isdir fs dst) |];
      intros [= <- <-]; (split; [| done]); try apply same_outside_refl.
    intros q Hq. rewrite lookup_insert_ne, lookup_delete_ne; [done | |];
      intros <-; apply Hq; [by left | by right].
  - destruct (bool_decide (src = dst)); [| destruct (bool_decide (src `prefix_of` dst))];
      [intros [= <- <-]; split; [apply same_outside_refl | done]
      |intros [= <- <-]; split; [apply same_outside_refl | done] |].
    destruct (stat fs (dirname dst)) as [[|]|];
      [| destruct (stat fs dst) as [[|]|]; [| destruct (is_empty_dir fs dst) |] |];
      intros [= <- <-]; (split; [| done]); try apply same_outside_refl; apply Hmv.
  - intros [= <- <-]. split; [apply same_outside_refl | done].
Qed.

Lemma copytree_local (src dst : path) :
  fs_local (λ q, q `prefix_of` dst ∨ dst `prefix_of` q) (copytree src dst).
Proof.
  unfold copytree. apply fs_local_bind.
  - eapply fs_local_mono; [| apply os_makedirs_local]. intros q. by left.
  - intros _ fs r fs'. unfold bind, get, put. intros [= <- <-]. split; [| done].
    intros q Hq. apply lookup_union_r, lookup_reroot_outside. tauto.
Qed.

Lemma shutil_move_local (src dst : path) :
  fs_local (λ q, src `prefix_of` q ∨ dst `prefix_of` q ∨ q `prefix_of` dst)
           (shutil_move src dst).
Proof.
  apply fs_local_get_bind. intros fs. destruct (isdir fs dst).
  - destruct (bool_decide (src = dst)).
    + eapply fs_local_mono; [| apply os_rename_local]. intros q; simpl; tauto.
    + cbv zeta. destruct (exists_ fs (dst ++ [basename src]));
        [by apply fs_local_raise |].
      eapply fs_local_mono; [| apply os_rename_local].
      intros q [H | H]; [by left | right; left].
      etrans; [| exact H]. by apply prefix_app_r.
  - apply fs_local_try.
    + eapply fs_local_mono; [| apply os_rename_local]. intros q; simpl; tauto.
    + intros e He. apply fs_local_get_bind. intros fs1.
      destruct (isdir fs1 src).
      * destruct (bool_decide (src `prefix_of` dst)); [by apply fs_local_raise |].
        apply fs_local_bind.
        -- eapply fs_local_mono; [| apply copytree_local]. intros q; simpl; tauto.
        -- intros _. eapply fs_local_mono; [| apply rmtree_local]. intros q; simpl; tauto.
      * apply fs_local_raise. by destruct e.
Qed.

Lemma extract_member_local (target : path) (m : member) :
  fs_local (λ _, True) (extract_member target m).
Proof.
  destruct m as [[dirs name] payload]. unfold extract_member.
  apply fs_local_get_bind. intros fs. apply fs_local_at_bind.
  - destruct (_ && _); [| apply fs_local_ret].
    eapply fs_local_mono; [| apply os_makedirs_local]. done.
  - intros _. destruct payload as [c|].
    + eapply fs_local_mono; [| apply write_file_local]. done.
    + apply fs_local_get_bind. intros fs1. destruct (isdir fs1 _); [apply fs_local_ret |].
      eapply fs_local_mono; [| apply os_mkdir_local]. done.
Qed.

Lemma extractall_local (zip_filename : path) (t : string) :
  fs_local (λ q, [t] `prefix_of` q) (extractall zip_filename [t]).
Proof.
  intros fs r fs' H. split; [intros p Hp; by eapply extractall_frame |].
  revert fs r fs' H.
  cut (fs_local (λ _, True) (extractall zip_filename [t])).
  { intros Hl fs r fs' H. by destruct (Hl fs r fs' H). }
  apply fs_local_get_bind. intros fs.
  destruct (stat fs zip_filename) as [[[data|members]|]|]; try by apply fs_local_raise.
  apply fs_local_for_each. intros m _. apply extract_member_local.
Qed.

(** ** What the extractor leaves alone *)

Lemma local_at_mono {A : Type} (R R' Rx Rx' : path → Prop) (m : M World A)
    (w : World) :
  (∀ p, R p → R' p) → (∀ p, Rx p → Rx' p) →
  local_at R Rx m w → local_at R' Rx' m w.
Proof.
  intros HR HRx H r w' Hm. destruct (H r w' Hm) as (Hc & Hl & Hr).
  split_and!; [done | done |]. destruct r as [a|e].
  - by eapply same_outside_mono.
  - destruct Hr as [Hs He]. split; [by eapply same_outside_mono | done].
Qed.

Lemma local_at_ret {A : Type} (R Rx : path → Prop) (a : A) (w : World) :
  local_at R Rx (ret a) w.
Proof.
  intros r w' [= <- <-]. split_and!; [done | | apply same_outside_refl].
  exists []. by rewrite app_nil_r.
Qed.

Lemma local_at_logger (R Rx : path → Prop) (l : level) (msg : message)
    (w : World) :
  local_at R Rx (logger l msg) w.
Proof.
  intros r w' [= <- <-]. split_and!; [done | by eexists | apply same_outside_refl].
Qed.

Lemma local_at_lift {A : Type} (R : path → Prop) (m : M FS A) (w : World) :
  fs_local R m → local_at R R (lift m) w.
Proof.
  intros Hm r w' H. apply lift_inv in H as (H & Hl & Hc).
  destruct (Hm _ _ _ H) as [Hs He]. split_and!; [done | |].
  - exists []. by rewrite app_nil_r.
  - by destruct r.
Qed.

Lemma local_at_bind {A B : Type} (R Rx : path → Prop) (m : M World A)
    (k : A → M World B) (w : World) :
  (∀ p, Rx p → R p) →
  local_at Rx Rx m w →
  (∀ a w1, m w = (Ok a, w1) → local_at R Rx (k a) w1) →
  local_at R Rx (bind m k) w.
Proof.
  intros HR Hm Hk r w' H. unfold bind in H.
  destruct (m w) as [[a|e] w1] eqn:E; destruct (Hm _ _ E) as (Hc & [lg Hl] & Hr).
  - destruct (Hk a w1 eq_refl _ _ H) as (Hc' & [lg' Hl'] & Hr').
    split_and!; [congruence | exists (lg ++ lg'); by rewrite Hl', Hl, app_assoc |].
    destruct r as [b|e].
    + eapply same_outside_trans; [| exact Hr']. by eapply same_outside_mono.
    + destruct Hr' as [Hs He]. split; [| done]. by eapply same_outside_trans.
  - inversion H; subst. destruct Hr as [Hs He].
    split_and!; [done | by exists lg | done | done].
Qed.

Lemma local_at_get_bind {A : Type} (R Rx : path → Prop) (k : World → M World A)
    (w : World) :
  local_at R Rx (k w) w → local_at R Rx (bind get k) w.
Proof. intros Hk r w' H. unfold bind, get in H. by apply Hk. Qed.

Lemma local_at_for_each {A : Type} (R : path → Prop) (l : list A)
    (body : A → M World unit) :
  (∀ x, x ∈ l → ∀ w, local_at R R (body x) w) →
  ∀ w, local_at R R (for_each l body) w.
Proof.
  induction l as [|x l IH]; intros Hb w; simpl.
  - apply local_at_ret.
  - apply local_at_bind; [done | apply Hb; by left |].
    intros _ w1 _. apply IH. intros y Hy. apply Hb. by right.
Qed.

Lemma prefix_snoc_inv (q d : path) (n : string) :
  q `prefix_of` d ++ [n] → q `prefix_of` d ∨ q = d ++ [n].
Proof.
  intros [k Hk]. destruct k as [|x k _] using rev_ind.
  - right. by rewrite app_nil_r in Hk.
  - left. rewrite app_assoc in Hk. apply app_inj_tail in Hk as [-> _].
    by apply prefix_app_r.
Qed.

Section Locality.

Variable order : list path → list path.
Variable self : RefSeqDataDownloader.
Variable zip_filename : path.
Variable family : string.

(** A region that holds the scratch tree, what the scans list, and the
    destinations of the moves with the directories above them. *)
Variable R : path → Prop.
Hypothesis R_scratch : ∀ q, temp_dir family `prefix_of` q → R q.
Hypothesis R_listed :
  ∀ fs m f q, f ∈ rglob order (temp_dir family) m fs → f `prefix_of` q → R q.
Hypothesis R_cds :
  ∀ n q, (self.(cds_dir) ++ [n]) `prefix_of` q ∨
         q `prefix_of` self.(cds_dir) ++ [n] → R q.
Hypothesis R_gff :
  ∀ n q, (self.(gff_dir) ++ [n]) `prefix_of` q ∨
         q `prefix_of` self.(gff_dir) ++ [n] → R q.

Lemma move_cds_local (fs0 : FS) (m : string → bool) (f : path) (w : World) :
  f ∈ rglob order (temp_dir family) m fs0 →
  local_at R R (move_cds self family f) w.
Proof.
  intros Hf. unfold move_cds. apply local_at_bind; [done | | intros; apply local_at_logger].
  apply local_at_lift. intros fs. eapply fs_local_mono; [| apply shutil_move_local].
  intros q [H | H]; [by eapply R_listed | by eapply R_cds].
Qed.

Lemma move_gff_local (fs0 : FS) (m : string → bool) (f : path) (w : World) :
  f ∈ rglob order (temp_dir family) m fs0 →
  local_at R R (move_gff self family f) w.
Proof.
  intros Hf. unfold move_gff. apply local_at_bind; [done | | intros; apply local_at_logger].
  apply local_at_lift. intros fs. eapply fs_local_mono; [| apply shutil_move_local].
  intros q [H | H]; [by eapply R_listed | by eapply R_gff].
Qed.

Lemma warn_no_files_local (w : World) : local_at R R (warn_no_files order family) w.
Proof.
  unfold warn_no_files.
  repeat (apply local_at_bind; [done | apply local_at_logger | intros _ ? _]).
  apply local_at_bind; [done | |].
  { intros r w' [= <- <-]. split_and!; [done | | apply same_outside_refl].
    exists []. by rewrite app_nil_r. }
  intros all_files wa _.
  apply local_at_bind; [done | apply local_at_logger | intros _ ? _].
  apply local_at_for_each. intros x _ wb. apply local_at_get_bind.
  destruct (isfile (fs wb) x); [apply local_at_logger | apply local_at_ret].
Qed.

Lemma clean_up_local (b : bool) (w : World) :
  local_at (λ q, R q ∨ q = zip_filename) R
    (lift (os_remove zip_filename) ;; ret b) w.
Proof.
  intros r w'. unfold bind, lift, os_remove, bind, get, put, raise, ret.
  destruct (stat (fs w) zip_filename) as [[c|]|]; intros [= <- <-]; simpl.
  - split_and!; [done | exists []; by rewrite app_nil_r |].
    intros q Hq. rewrite lookup_delete_ne; [done |]. intros <-. apply Hq. by right.
  - split_and!; [done | exists []; by rewrite app_nil_r
                 | apply same_outside_refl | done].
  - split_and!; [done | exists []; by rewrite app_nil_r
                 | apply same_outside_refl | done].
Qed.

Lemma organize_local (w : World) :
  local_at (λ q, R q ∨ q = zip_filename) R
    (organize order self zip_filename family) w.
Proof.
  unfold organize.
  apply local_at_bind; [by left | |].
  { apply local_at_lift. intros fs. eapply fs_local_mono; [| apply extractall_local].
    exact R_scratch. }
  intros _ w1 _. apply local_at_bind; [by left | |].
  { intros r w' [= <- <-]. split_and!; [done | | apply same_outside_refl].
    exists []. by rewrite app_nil_r. }
  intros cds w2 [= <- <-].
  apply local_at_bind; [by left | |].
  { apply local_at_for_each. intros f Hf w0. by eapply move_cds_local. }
  intros _ w3 _. apply local_at_bind; [by left | |].
  { intros r w' [= <- <-]. split_and!; [done | | apply same_outside_refl].
    exists []. by rewrite app_nil_r. }
  intros gff w4 [= <- <-].
  apply local_at_bind; [by left | |].
  { apply local_at_for_each. intros f Hf w0. by eapply move_gff_local. }
  intros _ w5 _. apply local_at_bind; [by left | |].
  { destruct (_ =? _)%nat; [apply warn_no_files_local | apply local_at_ret]. }
  intros _ w6 _. apply local_at_bind; [by left | |].
  { apply local_at_lift. intros fs. eapply fs_local_mono; [| apply rmtree_local].
    exact R_scratch. }
  intros _ w7 _. apply clean_up_local.
Qed.

Lemma extractor_local (w : World) :
  ∃ b w', extract_and_organize_files order self zip_filename family w = (Ok b, w') ∧
          calls w' = calls w ∧
          (∃ lg, log w' = log w ++ (INFO, start_message zip_filename) :: lg) ∧
          same_outside (λ q, R q ∨ q = zip_filename) (fs w) (fs w').
Proof.
  destruct (exists_ (fs w) zip_filename) eqn:He.
  - rewrite extract_and_organize_files_body by done. unfold try_except.
    destruct (organize order self zip_filename family
                (logged INFO (start_message zip_filename) w)) as [[b|e] w1] eqn:Ho;
      destruct (organize_local _ _ _ Ho) as (Hc & [lg Hl] & Hr); simpl in *.
    + exists b, w1. split_and!; [done | done | | done].
      exists lg. by rewrite Hl, <- app_assoc.
    + destruct Hr as [Hs Hx]. rewrite Hx. unfold bind, logger, ret. simpl.
      eexists _, _. split_and!; [done | done | |]; simpl.
      * eexists. by rewrite Hl, <- !app_assoc.
      * eapply same_outside_mono; [| exact Hs]. intros q. by left.
  - rewrite missing_archive_fails by done.
    eexists _, _. split_and!; [done | done | | apply same_outside_refl]; simpl.
    by eexists.
Qed.

End Locality.

(** ** The extractor as a whole *)

Section ExtractorTotal.

Variable order : list path → list path.
Variable self : RefSeqDataDownloader.
Variable zip_filename : path.
Variable family : string.

(** Property X10.  For every input the extractor returns a Boolean: no
    exception leaves it.  It runs no command, and the log only grows, its
    first new record being the start message. *)
Theorem extractor_never_raises (w : World) :
  ∃ b fs' lg,
    extract_and_organize_files order self zip_filename family w
    = (Ok b, {| fs := fs';
                log := log w ++ (INFO, start_message zip_filename) :: lg;
                calls := calls w |}).
Proof.
  destruct (extractor_local order self zip_filename family (λ _, True))
    with (w := w) as (b & w' & Hrun & Hc & [lg Hl] & _); try done.
  exists b, (fs w'), lg. rewrite Hrun. f_equal.
  destruct w' as [fs' log' calls']. simpl in *. by subst.
Qed.

(** The last steps of a [try] body that ends without exception: the
    scratch directory was there and is removed with all it held, then the
    archive, a regular file, is removed. *)
Lemma organize_inv_clean_up (w w' : World) (b : bool) :
  organize order self zip_filename family w = (Ok b, w') →
  ∃ fs4, stat fs4 (temp_dir family) = Some Dir ∧
         fs w' = delete zip_filename (remove_tree (temp_dir family) fs4).
Proof.
  unfold organize. intros H.
  apply bind_inv_ok in H as ([] & w1 & _ & H).
  apply bind_inv_ok in H as (cds & w1' & _ & H).
  apply bind_inv_ok in H as ([] & w2 & _ & H).
  apply bind_inv_ok in H as (gff & w2' & _ & H).
  apply bind_inv_ok in H as ([] & w3 & _ & H).
  apply bind_inv_ok in H as ([] & w4 & _ & H).
  apply bind_inv_ok in H as ([] & w5 & H5 & H).
  apply bind_inv_ok in H as ([] & w6 & H6 & H).
  unfold ret in H. injection H as _ <-.
  apply lift_inv_ok in H5 as (H5 & _ & _). apply lift_inv_ok in H6 as (H6 & _ & _).
  unfold rmtree, bind, get, put, raise in H5.
  destruct (stat (fs w4) (temp_dir family)) as [[c|]|] eqn:Ht; try discriminate.
  inversion H5 as [E5]. clear H5.
  unfold os_remove, bind, get, put, raise in H6.
  destruct (stat (fs w5) zip_filename) as [[c|]|] eqn:Hz; try discriminate.
  inversion H6 as [E6]. clear H6.
  exists (fs w4). split; [done |]. by rewrite E5.
Qed.

Lemma extractor_true_inv (w w' : World) :
  extract_and_organize_files order self zip_filename family w = (Ok true, w') →
  ∃ fs4, fs w' = delete zip_filename (remove_tree (temp_dir family) fs4).
Proof.
  intros H. destruct (exists_ (fs w) zip_filename) eqn:He.
  2: { rewrite missing_archive_fails in H by done. discriminate. }
  rewrite extract_and_organize_files_body in H by done. unfold try_except in H.
  destruct (organize order self zip_filename family
              (logged INFO (start_message zip_filename) w)) as [[b|e] w1] eqn:Ho.
  - injection H as -> <-.
    apply organize_inv_clean_up in Ho as (fs4 & _ & ->). by exists fs4.
  - destruct (is_Exception e); [| discriminate].
    unfold bind, logger, ret in H. discriminate.
Qed.

(** Property X11.  When the extractor returns [True], the archive and the
    whole scratch tree are gone from the disk. *)
Theorem true_means_cleaned_up (w w' : World) :
  extract_and_organize_files order self zip_filename family w = (Ok true, w') →
  (∀ p, temp_dir family `prefix_of` p → fs w' !! p = None) ∧
  fs w' !! zip_filename = None.
Proof.
  intros [fs4 ->]%extractor_true_inv. split.
  - intros p Hp. destruct (decide (zip_filename = p)) as [-> | Hne].
    + by rewrite lookup_delete_eq.
    + rewrite lookup_delete_ne by done. rewrite lookup_remove_tree.
      by destruct (decide (temp_dir family `prefix_of` p)).
  - by rewrite lookup_delete_eq.
Qed.

(** Property X12.  When the archive path exists but is no zip archive (a
    file of another kind, or a directory), the extractor logs the error
    ([BadZipFile], or [IsADirectoryError] for a directory) and returns
    [False]; the disk is unchanged: the file is still there and no scratch
    directory was created. *)
Theorem unreadable_archive_fails (w : World) (x : node) :
  stat (fs w) zip_filename = Some x →
  (∀ members, x ≠ File (Zip members)) →
  extract_and_organize_files order self zip_filename family w
  = (Ok false,
     {| fs := fs w;
        log := log w ++
          [(INFO, start_message zip_filename);
           (ERROR, [Text "Error extracting files: ";
                    OfExn (match x with
                           | Dir => IsADirectoryError
                           | File _ => BadZipFile
                           end)])];
        calls := calls w |}).
Proof.
  intros Hz Hx.
  rewrite extract_and_organize_files_body by (unfold exists_; by rewrite Hz).
  unfold try_except, organize. unfold bind at 1. unfold lift at 1.
  unfold extractall, bind at 1, get. cbn [fs logged]. rewrite Hz.
  destruct x as [[data|members]|].
  - unfold raise, bind, logger, ret. simpl. by rewrite <- app_assoc.
  - by destruct (Hx members).
  - unfold raise, bind, logger, ret. simpl. by rewrite <- app_assoc.
Qed.

End ExtractorTotal.

Section ExtractorFrame.

Variable order : list path → list path.
Hypothesis order_perm : ∀ l, order l ≡ₚ l.
Variable self : RefSeqDataDownloader.
Variable zip_filename : path.
Variable family : string.

Lemma workspace_listed (fs : FS) (m : string → bool) (f q : path) :
  f ∈ rglob order (temp_dir family) m fs → f `prefix_of` q →
  workspace self family q.
Proof.
  intros Hf Hq. left. etrans; [| exact Hq]. by eapply rglob_below.
Qed.

Lemma workspace_cds (n : string) (q : path) :
  (self.(cds_dir) ++ [n]) `prefix_of` q ∨ q `prefix_of` self.(cds_dir) ++ [n] →
  workspace self family q.
Proof.
  intros [H | H].
  - right. left. etrans; [| exact H]. by apply prefix_app_r.
  - apply prefix_snoc_inv in H as [H | ->].
    + right. right. right. by left.
    + right. left. by apply prefix_app_r.
Qed.

Lemma workspace_gff (n : string) (q : path) :
  (self.(gff_dir) ++ [n]) `prefix_of` q ∨ q `prefix_of` self.(gff_dir) ++ [n] →
  workspace self family q.
Proof.
  intros [H | H].
  - right. right. left. etrans; [| exact H]. by apply prefix_app_r.
  - apply prefix_snoc_inv in H as [H | ->].
    + right. right. right. by right.
    + right. right. left. by apply prefix_app_r.
Qed.

(** Property X13.  Whatever the outcome, and for any order of the scans,
    the extractor changes nothing outside its workspace (the scratch tree,
    the two output folders with what they hold, the directories above
    them) and the archive. *)
Theorem extractor_stays_in_its_workspace (w : World) (p : path) :
  ¬ workspace self family p →
  p ≠ zip_filename →
  fs (extract_and_organize_files order self zip_filename family w).2 !! p
  = fs w !! p.
Proof.
  intros Hp Hz.
  destruct (extractor_local order self zip_filename family (workspace self family))
    with (w := w) as (b & w' & -> & _ & _ & Hs).
  - intros q Hq. by left.
  - apply workspace_listed.
  - apply workspace_cds.
  - apply workspace_gff.
  - apply Hs. tauto.
Qed.

(** Property X14.  When the [try] body raises, in the extraction, in a
    move or in the clean-up, the extractor logs the exception and returns
    [False], and an archive that lies outside the workspace is on disk
    exactly as before. *)
Theorem failed_run_keeps_archive (w w1 : World) (e : exn) :
  exists_ (fs w) zip_filename = true →
  ¬ workspace self family zip_filename →
  organize order self zip_filename family
    (logged INFO (start_message zip_filename) w) = (Raise e, w1) →
  extract_and_organize_files order self zip_filename family w
  = (Ok false, logged ERROR [Text "Error extracting files: "; OfExn e] w1) ∧
  fs w1 !! zip_filename = fs w !! zip_filename.
Proof.
  intros He Hz Ho.
  destruct (organize_local order self zip_filename family (workspace self family))
    with (w := logged INFO (start_message zip_filename) w) (r := Raise (A := bool) e)
         (w' := w1) as (_ & _ & Hs & Hx); try done.
  - intros q Hq. by left.
  - apply workspace_listed.
  - apply workspace_cds.
  - apply workspace_gff.
  - split; [| by apply Hs].
    rewrite extract_and_organize_files_body by done. unfold try_except.
    by rewrite Ho, Hx.
Qed.

End ExtractorFrame.

(** ** The listing of a run that matched nothing *)

Lemma for_each_log_files (msg : path → message) (l : list path) (w : World) :
  for_each l (λ file_path,
    w <- get ;;
    if isfile (fs w) file_path then logger INFO (msg file_path) else ret tt) w
  = (Ok tt,
     {| fs := fs w;
        log := log w ++ map (λ p, (INFO, msg p))
                          (filter (λ p, isfile (fs w) p = true) l);
        calls := calls w |}).
Proof.
  revert w. induction l as [|p l IH]; intros w.
  - simpl. unfold ret. destruct w; simpl. by rewrite app_nil_r.
  - cbn [for_each]. unfold bind at 1. unfold bind at 1. unfold get at 1.
    rewrite filter_cons. destruct (isfile (fs w) p) eqn:Hp.
    + rewrite decide_True by done. unfold logger at 1. rewrite IH.
      cbn [fs log calls map]. by rewrite <- app_assoc.
    + rewrite decide_False by congruence. unfold ret at 1. apply IH.
Qed.

(** Property X15.  The warning of a run that matched nothing: four
    warning records, the heading, then one record for each regular file of
    the scratch tree, in scan order, with its path relative to the scratch
    directory; directories are not listed.  The disk is not changed. *)
Theorem listing_names_regular_files (order : list path → list path)
    (family : string) (w : World) :
  warn_no_files order family w
  = (Ok tt,
     {| fs := fs w;
        log := log w ++
          [no_files_warning family;
           (WARNING, [Text "  - The genome assemblies don't have gene annotations"]);
           (WARNING, [Text "  - Annotations are in a different format"]);
           (WARNING, [Text "  - Only raw genome sequences are available"]);
           (INFO, [Text ("Available files in " +:+ family +:+ " dataset:")])] ++
          map (λ p, (INFO, [Text "  - "; OfPath (drop 1 p)]))
              (filter (λ p, isfile (fs w) p = true)
                      (rglob order (temp_dir family) (λ _, true) (fs w)));
        calls := calls w |}).
Proof.
  unfold warn_no_files.
  do 4 (unfold bind at 1; unfold logger at 1).
  unfold bind at 1. unfold scan at 1. unfold bind at 1. unfold logger at 1.
  rewrite for_each_log_files. cbn [fs log calls length temp_dir].
  unfold no_files_warning. by rewrite <- !app_assoc.
Qed.

(** ** The two patterns of the scans *)


Section Patterns.

Variable order : list path → list path.
Hypothesis order_perm : ∀ l, order l ≡ₚ l.


End Patterns.

(** ** The contents of the files that are moved *)

(** What a later member of the archive leaves of a file that an earlier
    one wrote. *)
Lemma makedirs_walk_keeps (base rest p : path) (x : node) (fs fs' : FS) :
  makedirs_walk base rest fs = (Ok tt, fs') →
  fs !! p = Some x → fs' !! p = Some x.
Proof.
  revert base fs. induction rest as [|d rest IH]; intros base fs H Hp; simpl in H.
  - unfold ret in H. by injection H as <-.
  - unfold bind, get in H.
    destruct (stat fs (base ++ [d])) as [[c|]|] eqn:Hs; simpl in H.
    + discriminate.
    + unfold ret in H. by eapply IH.
    + unfold put in H. eapply IH; [exact H |].
      rewrite lookup_insert_ne; [done |]. intros <-.
      rewrite stat_snoc in Hs. congruence.
Qed.

Lemma extract_member_keeps (t : string) (m : member) (dirs : path)
    (name : string) (c : content) (fs fs' : FS) :
  extract_member [t] m fs = (Ok tt, fs') →
  m.1 ≠ (dirs, name) →
  fs !! (([t] ++ dirs) ++ [name]) = Some (File c) →
  fs' !! (([t] ++ dirs) ++ [name]) = Some (File c).
Proof.
  destruct m as [[dirs' name'] payload]. cbn [fst]. intros H Hne Hp.
  assert (([t] ++ dirs) ++ [name] ≠ ([t] ++ dirs') ++ [name']) as Hq.
  { intros [E ->]%app_inj_tail. apply app_inv_head in E as ->. done. }
  unfold extract_member, bind at 1, get in H.
  apply bind_inv_ok in H as ([] & fs1 & Hd & H).
  assert (fs1 !! (([t] ++ dirs) ++ [name]) = Some (File c)) as Hp1.
  { match type of Hd with (if ?b then _ else _) _ = _ => destruct b end.
    - unfold os_makedirs, bind, get in Hd.
      destruct (exists_ fs ([t] ++ dirs')); [discriminate |].
      by eapply makedirs_walk_keeps.
    - unfold ret in Hd. by injection Hd as <-. }
  destruct payload as [c'|].
  - by rewrite (write_file_frame _ _ _ _ _ H).
  - unfold bind, get in H. destruct (isdir fs1 (([t] ++ dirs') ++ [name'])).
    + unfold ret in H. by injection H as <-.
    + by rewrite (os_mkdir_frame _ _ _ _ H).
Qed.

Lemma extract_member_writes (t : string) (dirs : path) (name : string)
    (c : content) (fs fs' : FS) :
  extract_member [t] (dirs, name, Some c) fs = (Ok tt, fs') →
  fs' !! (([t] ++ dirs) ++ [name]) = Some (File c).
Proof.
  unfold extract_member, bind at 1, get. intros H.
  apply bind_inv_ok in H as ([] & fs1 & _ & H).
  unfold write_file, bind, get, put, raise in H.
  destruct (stat fs1 (([t] ++ dirs) ++ [name])) as [[|]|];
    destruct (stat fs1 (dirname (([t] ++ dirs) ++ [name]))) as [[|]|];
    try discriminate; injection H as <-; by rewrite lookup_insert_eq.
Qed.

Lemma for_each_keeps {A : Type} (body : A → M FS unit) (P : FS → Prop)
    (l : list A) (fs fs' : FS) :
  (∀ x fs fs', x ∈ l → body x fs = (Ok tt, fs') → P fs → P fs') →
  for_each l body fs = (Ok tt, fs') → P fs → P fs'.
Proof.
  revert fs. induction l as [|x l IH]; intros fs Hb H HP; simpl in H.
  - unfold ret in H. by injection H as <-.
  - apply bind_inv_ok in H as ([] & fs1 & Hx & H).
    eapply IH; [| exact H |].
    + intros y g g' Hy. apply Hb. by right.
    + eapply Hb; [by left | exact Hx | exact HP].
Qed.

Lemma extractall_writes (zip_filename : path) (t : string) (ms1 ms2 : list member)
    (dirs : path) (name : string) (c : content) (fs fs1 : FS) :
  stat fs zip_filename = Some (File (Zip (ms1 ++ (dirs, name, Some c) :: ms2))) →
  extractall zip_filename [t] fs = (Ok tt, fs1) →
  (∀ m, m ∈ ms2 → m.1 ≠ (dirs, name)) →
  fs1 !! (([t] ++ dirs) ++ [name]) = Some (File c).
Proof.
  intros Hz H Hlast. unfold extractall, bind, get in H. rewrite Hz in H.
  change (for_each (ms1 ++ (dirs, name, Some c) :: ms2) (extract_member [t]) fs
          = (Ok tt, fs1)) in H.
  assert (∀ (l1 l2 : list member) (g g' : FS),
            for_each (l1 ++ l2) (extract_member [t]) g = (Ok tt, g') →
            ∃ g1, for_each l1 (extract_member [t]) g = (Ok tt, g1) ∧
                  for_each l2 (extract_member [t]) g1 = (Ok tt, g')) as Happ.
  { induction l1 as [|x l1 IH]; intros l2 g g' Hg; simpl in *.
    - by exists g.
    - apply bind_inv_ok in Hg as ([] & g0 & Hx & Hg).
      destruct (IH _ _ _ Hg) as (g1 & H1 & H2). exists g1.
      split; [| done]. unfold bind. by rewrite Hx. }
  destruct (Happ _ _ _ _ H) as (g1 & _ & H2). simpl in H2.
  apply bind_inv_ok in H2 as ([] & g2 & Hm & H2).
  apply extract_member_writes in Hm.
  eapply (for_each_keeps (extract_member [t])
            (λ g, g !! (([t] ++ dirs) ++ [name]) = Some (File c)));
    [| exact H2 | exact Hm].
  intros m g g' Hin Hx Hg. eapply extract_member_keeps; [exact Hx | | exact Hg].
  by apply Hlast.
Qed.

Lemma string_app_inj_r (a b s : string) : a +:+ s = b +:+ s → a = b.
Proof.
  intros H. apply (f_equal list_ascii_of_string) in H.
  rewrite !list_ascii_app in H. apply app_inv_tail in H.
  apply (f_equal string_of_list_ascii) in H.
  by rewrite !string_of_list_ascii_of_string in H.
Qed.

Section Contents.

Variable order : list path → list path.
Hypothesis order_perm : ∀ l, order l ≡ₚ l.
Variables (out : path) (tool_path family : string) (zip_filename : path).
Variables (fs0 fs1 : FS).
Hypothesis Horg :
  organizable (new_downloader out tool_path) zip_filename family fs0 fs1.

Lemma cds_content (w' : World) (f : path) :
  fs w' = delete zip_filename
            (remove_tree (temp_dir family)
               (foldl (place (λ f, (out ++ ["gff_files"]) ++ [gff_new_name family f]))
                  (foldl (place (λ f, (out ++ ["cds_files"]) ++ [cds_new_name family f]))
                     fs1 (rglob order (temp_dir family) is_cds_name fs1))
                  (rglob order (temp_dir family) is_gff_name
                     (foldl (place (λ f, (out ++ ["cds_files"]) ++
                                          [cds_new_name family f]))
                        fs1 (rglob order (temp_dir family) is_cds_name fs1))))) →
  matched is_cds_name (temp_dir family) fs1 f →
  (∀ g, matched is_cds_name (temp_dir family) fs1 g →
        cds_new_name family g = cds_new_name family f → g = f) →
  fs w' !! ((out ++ ["cds_files"]) ++ [cds_new_name family f]) = fs1 !! f.
Proof.
  intros -> Hf Huniq.
  pose proof (proj2 (elem_of_cds order order_perm out tool_path family
                       zip_filename fs0 fs1 Horg f) Hf) as Hin.
  apply list_elem_of_split in Hin as (l1 & l2 & Hl).
  apply (final_cds_last order order_perm out tool_path family zip_filename
           fs0 fs1 Horg l1 l2 f Hl).
  intros g Hg Hsame.
  assert (NoDup (l1 ++ f :: l2)) as Hnd by (rewrite <- Hl; by apply NoDup_rglob).
  apply NoDup_app in Hnd as (_ & _ & [Hfl2 _]%NoDup_cons).
  apply Hfl2. rewrite <- (Huniq g); [done | | done].
  apply (elem_of_cds order order_perm out tool_path family zip_filename
           fs0 fs1 Horg g).
  rewrite Hl. set_solver.
Qed.

Lemma gff_content (w' : World) (f : path) :
  fs w' = delete zip_filename
            (remove_tree (temp_dir family)
               (foldl (place (λ f, (out ++ ["gff_files"]) ++ [gff_new_name family f]))
                  (foldl (place (λ f, (out ++ ["cds_files"]) ++ [cds_new_name family f]))
                     fs1 (rglob order (temp_dir family) is_cds_name fs1))
                  (rglob order (temp_dir family) is_gff_name
                     (foldl (place (λ f, (out ++ ["cds_files"]) ++
                                          [cds_new_name family f]))
                        fs1 (rglob order (temp_dir family) is_cds_name fs1))))) →
  matched is_gff_name (temp_dir family) fs1 f →
  (∀ g, matched is_gff_name (temp_dir family) fs1 g →
        gff_new_name family g = gff_new_name family f → g = f) →
  fs w' !! ((out ++ ["gff_files"]) ++ [gff_new_name family f]) = fs1 !! f.
Proof.
  intros -> Hf Huniq.
  pose proof (proj2 (elem_of_gff order order_perm out tool_path family
                       zip_filename fs0 fs1 Horg f) Hf) as Hin.
  apply list_elem_of_split in Hin as (l1 & l2 & Hl).
  apply (final_gff_last order order_perm out tool_path family zip_filename
           fs0 fs1 Horg l1 l2 f Hl).
  intros g Hg Hsame.
  assert (NoDup (l1 ++ f :: l2)) as Hnd by (rewrite <- Hl; by apply NoDup_rglob).
  apply NoDup_app in Hnd as (_ & _ & [Hfl2 _]%NoDup_cons).
  apply Hfl2. rewrite <- (Huniq g); [done | | done].
  apply (elem_of_gff order order_perm out tool_path family zip_filename
           fs0 fs1 Horg g).
  rewrite Hl. set_solver.
Qed.

(** Property X17.  In a run that can go through, a matched file whose new
    name no other match shares is found in its folder with exactly the
    contents it had in the extracted tree (a file of that name left by an
    earlier run is replaced); this holds of both kinds and for any order of
    the scans. *)
Theorem moved_files_keep_their_content (w : World) :
  fs w = fs0 →
  ∃ b w',
    extract_and_organize_files order (new_downloader out tool_path)
      zip_filename family w = (Ok b, w') ∧
    (∀ f, matched is_cds_name (temp_dir family) fs1 f →
       (∀ g, matched is_cds_name (temp_dir family) fs1 g →
             cds_new_name family g = cds_new_name family f → g = f) →
       fs w' !! ((out ++ ["cds_files"]) ++ [cds_new_name family f]) = fs1 !! f) ∧
    (∀ f, matched is_gff_name (temp_dir family) fs1 f →
       (∀ g, matched is_gff_name (temp_dir family) fs1 g →
             gff_new_name family g = gff_new_name family f → g = f) →
       fs w' !! ((out ++ ["gff_files"]) ++ [gff_new_name family f]) = fs1 !! f).
Proof.
  intros Hw.
  destruct (run_ok order order_perm out tool_path family zip_filename fs0 fs1
              Horg w Hw) as [lg Hrun].
  eexists _, _. split; [exact Hrun |]. split.
  - intros f. by apply cds_content.
  - intros f. by apply gff_content.
Qed.

(** Property X18.  From the archive to the folders: in a run that can
    go through, the payload of a member [dirs/name] that no later member of
    the archive overwrites is the contents of the output file
    [{parent}_{family}.fna] when [name] is [cds_from_genomic.fna], and of
    [{parent}_{family}.gff] when [name] ends in [.gff], provided no other
    match of the extracted tree has a parent directory of the same name;
    [parent] is the last of [dirs], or the scratch directory when the member
    lies at the root of the archive. *)
Theorem archive_members_reach_the_folders (w : World) (ms1 ms2 : list member)
    (dirs : path) (name : string) (c : content) :
  fs w = fs0 →
  stat fs0 zip_filename
  = Some (File (Zip (ms1 ++ (dirs, name, Some c) :: ms2))) →
  (∀ m, m ∈ ms2 → m.1 ≠ (dirs, name)) →
  ∃ b w',
    extract_and_organize_files order (new_downloader out tool_path)
      zip_filename family w = (Ok b, w') ∧
    (name = "cds_from_genomic.fna" →
     (∀ g, matched is_cds_name (temp_dir family) fs1 g →
           parent_name g = parent_name (temp_dir family ++ dirs ++ [name]) →
           g = temp_dir family ++ dirs ++ [name]) →
     fs w' !! ((out ++ ["cds_files"]) ++
               [parent_name (temp_dir family ++ dirs ++ [name])
                +:+ "_" +:+ family +:+ ".fna"])
     = Some (File c)) ∧
    (is_gff_name name = true →
     (∀ g, matched is_gff_name (temp_dir family) fs1 g →
           parent_name g = parent_name (temp_dir family ++ dirs ++ [name]) →
           g = temp_dir family ++ dirs ++ [name]) →
     fs w' !! ((out ++ ["gff_files"]) ++
               [parent_name (temp_dir family ++ dirs ++ [name])
                +:+ "_" +:+ family +:+ ".gff"])
     = Some (File c)).
Proof.
  intros Hw Hz Hlast.
  pose proof (extractall_writes zip_filename ("temp_" +:+ family) ms1 ms2 dirs
                name c fs0 fs1 Hz (org_extract _ _ _ _ _ Horg) Hlast) as Hc.
  set (f := temp_dir family ++ dirs ++ [name]).
  assert (fs1 !! f = Some (File c)) as Hf.
  { unfold f, temp_dir. by rewrite app_assoc. }
  assert (below (temp_dir family) f) as Hb.
  { split; [by apply prefix_app_r |]. unfold f. intros H.
    apply (f_equal length) in H. rewrite !length_app in H. simpl in H. lia. }
  assert (basename f = name) as Hn.
  { unfold f. by rewrite app_assoc, basename_snoc. }
  destruct (run_ok order order_perm out tool_path family zip_filename fs0 fs1
              Horg w Hw) as [lg Hrun].
  eexists _, _. split; [exact Hrun |]. split.
  - intros Hname Huniq. rewrite <- Hf.
    apply (cds_content _ f); [done | |].
    + split_and!; [done | | by rewrite Hf]. rewrite Hn, Hname. done.
    + intros g Hg Hsame. apply Huniq; [done |].
      unfold cds_new_name in Hsame. by apply string_app_inj_r in Hsame.
  - intros Hname Huniq. rewrite <- Hf.
    apply (gff_content _ f); [done | |].
    + split_and!; [done | | by rewrite Hf]. by rewrite Hn.
    + intros g Hg Hsame. apply Huniq; [done |].
      unfold gff_new_name in Hsame. by apply string_app_inj_r in Hsame.
Qed.

End Contents.

(** ** The orchestrator: commands, exceptions and failed downloads *)

Section Commands.

Variable tool : list (list string) → list string → FS → process * FS.
Variable order : list path → list path.

Lemma get_available_species_after (self : RefSeqDataDownloader) (family : string)
    (w : World) :
  ∃ r w', get_available_species tool self family w = (r, w') ∧
          calls w' = calls w ++ [preview_cmd self.(datasets_tool) family] ∧
          match r with
          | Ok l => l = [] ∨ l = [family]
          | Raise e => tool_error e
          end.
Proof.
  unfold get_available_species, bind, try_except, logger, subprocess_run, ret, raise.
  unfold tool_error.
  simpl. destruct (tool _ _ _) as [[|rc out err] fs']; simpl.
  { eexists _, _. split_and!; [done | done | naive_solver]. }
  destruct (rc =? 0)%Z; simpl; [| eexists _, _; split_and!; [done | done | by left]].
  destruct (contains "record_count" out); simpl;
    [| eexists _, _; split_and!; [done | done | by left]].
  destruct (Json.loads out) as [data|]; simpl;
    [| eexists _, _; split_and!; [done | done | naive_solver]].
  destruct (dict_get "record_count" (JInt 0) data) as [v|]; simpl;
    [| eexists _, _; split_and!; [done | done | naive_solver]].
  destruct (gt_zero v) as [[]|]; simpl;
    [| | eexists _, _; split_and!; [done | done | naive_solver]].
  - eexists _, _; split_and!; [done | done | by right].
  - eexists _, _; split_and!; [done | done | by left].
Qed.

Lemma download_genome_data_after (self : RefSeqDataDownloader) (family : string)
    (include_cds include_gff : bool) (w : World) :
  ∃ r w', download_genome_data tool self family include_cds include_gff w = (r, w') ∧
          calls w' = calls w ++ [download_cmd self.(datasets_tool) family
                                   (include_param include_cds include_gff)
                                   (zip_name family)] ∧
          match r with
          | Ok (Some zip) => zip = zip_name family
          | Ok None => True
          | Raise e => e = FileNotFoundError
          end.
Proof.
  unfold download_genome_data, bind, try_except, logger, subprocess_run, ret.
  simpl. destruct (tool _ _ _) as [[|rc out err] fs']; simpl.
  { by eexists _, _. }
  destruct (rc =? 0)%Z; simpl; by eexists _, _.
Qed.

Lemma extractor_after (self : RefSeqDataDownloader) (zip_filename : path)
    (family : string) (w : World) :
  ∃ b w', extract_and_organize_files order self zip_filename family w = (Ok b, w') ∧
          calls w' = calls w.
Proof.
  destruct (extractor_local order self zip_filename family (λ _, True))
    with (w := w) as (b & w' & Hrun & Hc & _); try done.
  by exists b, w'.
Qed.

Lemma download_family_data_after (self : RefSeqDataDownloader) (family : string)
    (include_cds include_gff : bool) (w : World) :
  ∃ r w' l,
    download_family_data tool order self family include_cds include_gff w = (r, w') ∧
    calls w' = calls w ++ l ∧
    l `prefix_of` [preview_cmd self.(datasets_tool) family;
                   download_cmd self.(datasets_tool) family
                     (include_param include_cds include_gff) (zip_name family)] ∧
    match r with
    | Ok b =>
        b = true →
        ∃ w2 w3,
          extract_and_organize_files order self [zip_name family] family w2
          = (Ok true, w3) ∧
          fs w' = fs w3
    | Raise e => tool_error e
    end.
Proof.
  unfold download_family_data. unfold bind at 1.
  destruct (get_available_species_after self family w) as (r1 & w1 & -> & Hc1 & Hr1).
  destruct r1 as [l|e].
  2: { eexists _, _, _. split_and!; [done | exact Hc1 | by eexists | done]. }
  destruct Hr1 as [-> | ->].
  { unfold bind, logger, ret. simpl.
    eexists _, _, _. split_and!; [done | exact Hc1 | by eexists | done]. }
  unfold bind at 1. unfold logger at 1. unfold bind at 1. simpl for_fold.
  unfold bind at 1. unfold bind at 1. unfold logger at 1. unfold bind at 1.
  match goal with
  | |- context [download_genome_data tool self family include_cds include_gff ?w0] =>
      destruct (download_genome_data_after self family include_cds include_gff w0)
        as (r2 & w2 & -> & Hc2 & Hr2)
  end.
  simpl calls in Hc2. rewrite Hc1, <- app_assoc in Hc2. simpl in Hc2.
  destruct r2 as [[zip|]|e].
  - subst zip. unfold bind at 1.
    destruct (extractor_after self [zip_name family] family w2)
      as (b & w3 & Hx & Hc3).
    rewrite Hx. rewrite Hc2 in Hc3.
    destruct b; unfold bind, logger, ret; simpl;
      eexists _, _, _; (split_and!; [done | exact Hc3 | done |]); [| done].
    intros _. by exists w2, w3.
  - unfold bind, logger, ret. simpl.
    eexists _, _, _. split_and!; [done | exact Hc2 | done | done].
  - subst e. eexists _, _, _. split_and!; [done | exact Hc2 | done | by left].
Qed.


End Commands.

Section FailedDownloads.

Variable tool : list (list string) → list string → FS → process * FS.
Variable order : list path → list path.
Variable self : RefSeqDataDownloader.
Variable family : string.
Variables include_cds include_gff : bool.

Lemma download_genome_data_failed (w : World) (rc : Z) (out err : string)
    (fs2 : FS) :
  tool (calls w)
    (download_cmd self.(datasets_tool) family
       (include_param include_cds include_gff) (zip_name family)) (fs w)
  = (Exited rc out err, fs2) →
  rc ≠ 0%Z →
  download_genome_data tool self family include_cds include_gff w
  = (Ok None,
     {| fs := fs2;
        log := log w ++
          [(INFO, [Text ("Downloading genome data for " +:+ family +:+
                         " (chromosome-level assemblies only)...")]);
           (INFO, [Text ("Running command: " +:+
                         join " " (download_cmd self.(datasets_tool) family
                                     (include_param include_cds include_gff)
                                     (zip_name family)))]);
           (ERROR, [Text ("Error downloading data for " +:+ family +:+ ": ");
                    OfExn (CalledProcessError rc err)]);
           (ERROR, [Text "stderr: "; Text err])];
        calls := calls w ++
          [download_cmd self.(datasets_tool) family
             (include_param include_cds include_gff) (zip_name family)] |}).
Proof.
  intros Ht Hrc.
  unfold download_genome_data, bind, try_except, logger, subprocess_run, ret.
  cbn [fs log calls]. rewrite Ht.
  destruct (rc =? 0)%Z eqn:E; [apply Z.eqb_eq in E; done |].
  cbn [fs log calls]. by rewrite <- !app_assoc.
Qed.

Lemma download_genome_data_done (w : World) (out err : string) (fs2 : FS) :
  tool (calls w)
    (download_cmd self.(datasets_tool) family
       (include_param include_cds include_gff) (zip_name family)) (fs w)
  = (Exited 0 out err, fs2) →
  download_genome_data tool self family include_cds include_gff w
  = (Ok (Some (zip_name family)),
     {| fs := fs2;
        log := log w ++
          [(INFO, [Text ("Downloading genome data for " +:+ family +:+
                         " (chromosome-level assemblies only)...")]);
           (INFO, [Text ("Running command: " +:+
                         join " " (download_cmd self.(datasets_tool) family
                                     (include_param include_cds include_gff)
                                     (zip_name family)))]);
           (INFO, [Text ("Download completed for " +:+ family)])];
        calls := calls w ++
          [download_cmd self.(datasets_tool) family
             (include_param include_cds include_gff) (zip_name family)] |}).
Proof.
  intros Ht.
  unfold download_genome_data, bind, try_except, logger, subprocess_run, ret.
  cbn [fs log calls]. rewrite Ht. cbn [fs log calls Z.eqb].
  by rewrite <- !app_assoc.
Qed.

(** Property X20.  When the prober finds the taxon and the download
    command exits with a non-zero status, the orchestrator returns [False]
    without calling the extractor: the disk is as the tool left it, the
    download is the only further command, and the log ends with the error,
    the standard error of the tool, "Failed to download data" and the 0/1
    summary. *)
Theorem failed_download_skips_extraction (w w1 : World) (rc : Z)
    (out err : string) (fs2 : FS) :
  get_available_species tool self family w = (Ok [family], w1) →
  tool (calls w1)
    (download_cmd self.(datasets_tool) family
       (include_param include_cds include_gff) (zip_name family)) (fs w1)
  = (Exited rc out err, fs2) →
  rc ≠ 0%Z →
  download_family_data tool order self family include_cds include_gff w
  = (Ok false,
     {| fs := fs2;
        log := log w1 ++
          download_records self.(datasets_tool) family
            (include_param include_cds include_gff) ++
          [(ERROR, [Text ("Error downloading data for " +:+ family +:+ ": ");
                    OfExn (CalledProcessError rc err)]);
           (ERROR, [Text "stderr: "; Text err]);
           (ERROR, [Text ("Failed to download data for " +:+ family)]);
           summary 0];
        calls := calls w1 ++
          [download_cmd self.(datasets_tool) family
             (include_param include_cds include_gff) (zip_name family)] |}).
Proof.
  intros Hp Ht Hrc. unfold download_family_data.
  rewrite (bind_ok _ _ _ _ _ Hp).
  unfold bind at 1. unfold logger at 1. unfold bind at 1. simpl for_fold.
  unfold bind at 1. unfold bind at 1. unfold logger at 1. unfold bind at 1.
  rewrite (download_genome_data_failed _ rc out err fs2) by done.
  unfold bind, logger, ret. cbn [fs log calls length Nat.ltb Nat.leb].
  unfold download_records, summary. by rewrite <- !app_assoc.
Qed.

(** Property X21.  When the download command exits with status 0 but
    has left no archive under the expected name, the orchestrator returns
    [False]: the extractor logs "Zip file ... not found", and the log ends
    with "Failed to extract files" and the 0/1 summary. *)
Theorem reported_success_without_archive (w w1 : World) (out err : string)
    (fs2 : FS) :
  get_available_species tool self family w = (Ok [family], w1) →
  tool (calls w1)
    (download_cmd self.(datasets_tool) family
       (include_param include_cds include_gff) (zip_name family)) (fs w1)
  = (Exited 0 out err, fs2) →
  exists_ fs2 [zip_name family] = false →
  download_family_data tool order self family include_cds include_gff w
  = (Ok false,
     {| fs := fs2;
        log := log w1 ++
          download_records self.(datasets_tool) family
            (include_param include_cds include_gff) ++
          [(INFO, [Text ("Download completed for " +:+ family)]);
           (INFO, start_message [zip_name family]);
           (ERROR, [Text "Zip file "; OfPath [zip_name family]; Text " not found"]);
           (ERROR, [Text ("Failed to extract files for " +:+ family)]);
           summary 0];
        calls := calls w1 ++
          [download_cmd self.(datasets_tool) family
             (include_param include_cds include_gff) (zip_name family)] |}).
Proof.
  intros Hp Ht Hz. unfold download_family_data.
  rewrite (bind_ok _ _ _ _ _ Hp).
  unfold bind at 1. unfold logger at 1. unfold bind at 1. simpl for_fold.
  unfold bind at 1. unfold bind at 1. unfold logger at 1. unfold bind at 1.
  rewrite (download_genome_data_done _ out err fs2) by done.
  unfold bind at 1.
  rewrite missing_archive_fails by done.
  unfold bind, logger, ret. cbn [fs log calls length Nat.ltb Nat.leb].
  unfold download_records, summary. by rewrite <- !app_assoc.
Qed.

End FailedDownloads.

(** ** The entry point: commands and exit status *)

Section Run.

Variable tool : list (list string) → list string → FS → process * FS.
Variable order : list path → list path.


Lemma main_ok_inv (args : Args) (w : World) :
  exit_status (main tool order args w).1 = 0%Z →
  ∃ w1 w2 w3,
    init args.(arg_output_dir) args.(arg_datasets_tool) w
    = (Ok (new_downloader args.(arg_output_dir) args.(arg_datasets_tool)), w1) ∧
    check_datasets_tool tool
      (new_downloader args.(arg_output_dir) args.(arg_datasets_tool)) w1
    = (Ok true, w2) ∧
    args.(arg_no_cds) && args.(arg_no_gff) = false ∧
    download_family_data tool order
      (new_downloader args.(arg_output_dir) args.(arg_datasets_tool))
      args.(arg_family) (negb args.(arg_no_cds)) (negb args.(arg_no_gff))
      (announced args w2)
    = (Ok true, w3) ∧
    main tool order args w
    = (Ok tt,
       {| fs := fs w3;
          log := log w3 ++
            success_records
              (new_downloader args.(arg_output_dir) args.(arg_datasets_tool));
          calls := calls w3 |}).
Proof.
  destruct (main tool order args w) as [r w'] eqn:Hm. simpl fst.
  unfold main in Hm. unfold bind at 1 in Hm.
  destruct (init_cases args.(arg_output_dir) args.(arg_datasets_tool) w)
    as ([self|e] & fs1 & Hi & Hr).
  2: { rewrite Hi in Hm. injection Hm as <- <-. simpl. by destruct e. }
  destruct Hr as [-> _]. rewrite Hi in Hm. unfold bind at 1 in Hm.
  set (self := new_downloader _ _) in *.
  set (w1 := {| fs := fs1; log := log w; calls := calls w |}) in *.
  destruct (check_datasets_tool_cases tool self w1) as (b & fs2 & lg & Hchk & _).
  rewrite Hchk in Hm. set (w2 := {| fs := fs2; log := _; calls := _ |}) in *.
  destruct b; simpl negb in Hm; cbv iota in Hm.
  2: { unfold bind, logger, sys_exit, raise in Hm. simpl in Hm.
       injection Hm as <- <-. done. }
  unfold bind at 1 in Hm. unfold ret at 1 in Hm. unfold bind at 1 in Hm.
  rewrite !negb_involutive in Hm.
  destruct (arg_no_cds args && arg_no_gff args) eqn:Hflags.
  { unfold bind, logger, sys_exit, raise in Hm. simpl in Hm.
    injection Hm as <- <-. done. }
  unfold ret at 1 in Hm. unfold bind at 1 in Hm. unfold logger at 1 in Hm.
  unfold bind at 1 in Hm.
  change {| fs := fs w2; log := log w2 ++ _; calls := calls w2 |}
    with (announced args w2) in Hm.
  destruct (download_family_data_after tool order self args.(arg_family)
              (negb args.(arg_no_cds)) (negb args.(arg_no_gff)) (announced args w2))
    as (r0 & w3 & l & Hd & _ & _ & Hx).
  rewrite Hd in Hm. destruct r0 as [[]|e].
  - unfold bind, logger, ret in Hm. simpl in Hm. injection Hm as <- <-. intros _.
    exists w1, w2, w3. split_and!; try done.
    unfold success_records. by rewrite <- !app_assoc.
  - unfold bind, logger, sys_exit, raise in Hm. simpl in Hm.
    injection Hm as <- <-. done.
  - injection Hm as <- <-. simpl.
    destruct Hx as [-> | [-> | [-> | ->]]]; done.
Qed.


(** Property X24.  After a run that ends with status 0 the working
    directory holds neither the archive
    [refseq_{family}_chromosome_data.zip] nor anything of the scratch
    directory [temp_{family}]. *)
Theorem successful_run_is_clean (args : Args) (w : World) :
  exit_status (main tool order args w).1 = 0%Z →
  fs (main tool order args w).2 !! [zip_name args.(arg_family)] = None ∧
  ∀ p, temp_dir args.(arg_family) `prefix_of` p →
       fs (main tool order args w).2 !! p = None.
Proof.
  intros (w1 & w2 & w3 & _ & _ & _ & Hd & ->)%main_ok_inv. cbn [snd fs].
  destruct (download_family_data_after tool order
              (new_downloader args.(arg_output_dir) args.(arg_datasets_tool))
              args.(arg_family) (negb args.(arg_no_cds)) (negb args.(arg_no_gff))
              (announced args w2)) as (r & w3' & l & Hd' & _ & _ & Hr).
  rewrite Hd in Hd'. injection Hd' as <- <-.
  destruct (Hr eq_refl) as (v2 & v3 & Hx & ->).
  apply extractor_true_inv in Hx as [fs4 ->]. split.
  - by rewrite lookup_delete_eq.
  - intros p Hp. destruct (decide ([zip_name args.(arg_family)] = p)) as [<- | Hne].
    + by rewrite lookup_delete_eq.
    + rewrite lookup_delete_ne by done. rewrite lookup_remove_tree.
      by destruct (decide (temp_dir args.(arg_family) `prefix_of` p)).
Qed.

End Run.

(** * Concrete runs: the theorems at explicit inputs *)

Lemma as_listed_perm (l : list path) : as_listed l ≡ₚ l.
Proof. reflexivity. Qed.

(** The side conditions of [organizable] on a concrete disk are settled by
    evaluation. *)
Lemma pair_with_snd {A B} (p : A * B) (a : A) : p.1 = a → p = (a, p.2).
Proof. destruct p. simpl. by intros ->. Qed.

Ltac by_evaluation :=
  lazymatch goal with
  | |- _ = (_, _) => apply pair_with_snd; vm_compute; reflexivity
  | |- _ = _ => vm_compute; reflexivity
  | |- _ => refine (bool_decide_unpack _ _); vm_compute; exact I
  end.

Ltac organizable_by_evaluation := constructor; by_evaluation.

Lemma mock_organizable :
  organizable mock_downloader [zip_name "Gobiidae"] "Gobiidae"
    (disk_with mock_archive) (extracted mock_archive).
Proof. organizable_by_evaluation. Qed.

Lemma colliding_organizable :
  organizable mock_downloader [zip_name "Gobiidae"] "Gobiidae"
    (disk_with colliding_archive) (extracted colliding_archive).
Proof. organizable_by_evaluation. Qed.

(** The mock archive of the specification: after the run the disk holds
    the three directories and exactly the two renamed files; the scratch
    directory and the archive are gone. *)
Example mock_archive_outputs :
  extract_and_organize_files as_listed mock_downloader
    [zip_name "Gobiidae"] "Gobiidae" (world_with mock_archive)
  = (Ok true,
     {| fs := list_to_map
                [ (["refseq_data"], Dir);
                  (["refseq_data"; "cds_files"], Dir);
                  (["refseq_data"; "gff_files"], Dir);
                  (["refseq_data"; "cds_files"; "speciesA_Gobiidae.fna"],
                   File (Bytes ">cds"));
                  (["refseq_data"; "gff_files"; "sub_Gobiidae.gff"],
                   File (Bytes "##gff")) ];
        log := [ (INFO, start_message [zip_name "Gobiidae"]);
                 (INFO, [Text "Moved CDS file: speciesA_Gobiidae.fna"]);
                 (INFO, [Text "Moved GFF file: sub_Gobiidae.gff"]) ];
        calls := [] |}).
Proof. vm_compute. reflexivity. Qed.


(** Witness of C2, at the mock archive: two files moved, the function returns [True]. *)
Lemma returns_whether_any_file_moved_witness :
  (extract_and_organize_files as_listed mock_downloader
     [zip_name "Gobiidae"] "Gobiidae" (world_with mock_archive)).1 = Ok true.
Proof.
  destruct (returns_whether_any_file_moved as_listed mock_downloader
              [zip_name "Gobiidae"] "Gobiidae" (world_with mock_archive))
    as [H _]; [vm_compute; reflexivity |].
  destruct (H true
              (organize as_listed mock_downloader [zip_name "Gobiidae"] "Gobiidae"
                 (logged INFO (start_message [zip_name "Gobiidae"])
                    (world_with mock_archive))).2) as [Hrun _];
    [by_evaluation |].
  rewrite Hrun. reflexivity.
Defined.

(** Witness of C3, at an archive without members: the function returns [False] and the
    archive is still on the disk. *)
Lemma empty_archive_is_left_behind_witness :
  (extract_and_organize_files as_listed mock_downloader
     [zip_name "Gobiidae"] "Gobiidae" (world_with (Zip []))).1 = Ok false ∧
  stat (fs (extract_and_organize_files as_listed mock_downloader
              [zip_name "Gobiidae"] "Gobiidae" (world_with (Zip []))).2)
       [zip_name "Gobiidae"]
  = Some (File (Zip [])).
Proof.
  destruct (empty_archive_is_left_behind as_listed mock_downloader
              [zip_name "Gobiidae"] "Gobiidae" (world_with (Zip [])))
    as (_ & _ & _ & lg & Hrun & _);
    [vm_compute; reflexivity | vm_compute; reflexivity |].
  rewrite Hrun. split; [reflexivity | vm_compute; reflexivity].
Defined.

(** Witness of C4, on an empty disk. *)
Lemma missing_archive_fails_witness :
  extract_and_organize_files as_listed mock_downloader
    [zip_name "Gobiidae"] "Gobiidae" empty_world
  = (Ok false,
     {| fs := ∅;
        log := [(INFO, start_message [zip_name "Gobiidae"]);
                (ERROR, [Text "Zip file "; OfPath [zip_name "Gobiidae"];
                         Text " not found"])];
        calls := [] |}).
Proof.
  apply (missing_archive_fails as_listed mock_downloader
           [zip_name "Gobiidae"] "Gobiidae" empty_world).
  vm_compute. reflexivity.
Defined.

(** Witness of C5, at a tool that exits with status 0 and prints a line that holds the
    marker and is no JSON: the decoding error leaves the prober. *)
Lemma probe_escalates_bad_json_witness :
  (get_available_species (tool_printing "record_count unavailable")
     mock_downloader "Gobiidae" empty_world).1 = Raise JSONDecodeError.
Proof.
  rewrite (probe_escalates_bad_json (tool_printing "record_count unavailable")
             mock_downloader "Gobiidae" empty_world
             "record_count unavailable" EmptyString ∅);
    [reflexivity | reflexivity | vm_compute; reflexivity | vm_compute; reflexivity].
Defined.

(** Witness of C6, at a run with both kinds skipped and a working tool. *)
Lemma both_skipped_exits_after_version_check_witness :
  exit_status (main (tool_printing "datasets version: 18.4.0") as_listed
                 args_both_skipped empty_world).1 ≠ 0%Z ∧
  (calls (main (tool_printing "datasets version: 18.4.0") as_listed
            args_both_skipped empty_world).2 = calls empty_world ∨
   calls (main (tool_printing "datasets version: 18.4.0") as_listed
            args_both_skipped empty_world).2
   = calls empty_world ++ [version_cmd args_both_skipped.(arg_datasets_tool)]).
Proof.
  apply (both_skipped_exits_after_version_check
           (tool_printing "datasets version: 18.4.0") as_listed
           args_both_skipped empty_world); reflexivity.
Defined.

(** C6, counterexample to the claim as stated: with both kinds skipped and
    a working tool the run exits with status 1 and has invoked the tool
    once, for its version. *)
Lemma both_skipped_still_invokes_tool :
  exit_status (main (tool_printing "datasets version: 18.4.0") as_listed
                 args_both_skipped empty_world).1 = 1%Z ∧
  calls (main (tool_printing "datasets version: 18.4.0") as_listed
           args_both_skipped empty_world).2
  = [[DATASETS_TOOL; "--version"]].
Proof. vm_compute. split; reflexivity. Qed.


(** Witness of C8, at two coding-sequence files below directories both named
    [speciesA]: the file moved last is the one that stays. *)
Lemma last_write_wins_witness :
  ∃ b w',
    extract_and_organize_files as_listed mock_downloader
      [zip_name "Gobiidae"] "Gobiidae" (world_with colliding_archive)
    = (Ok b, w') ∧
    b = true ∧
    fs w' !! ["refseq_data"; "cds_files"; "speciesA_Gobiidae.fna"]
    = Some (File (Bytes ">two")).
Proof.
  destruct (last_write_wins as_listed as_listed_perm
              ["refseq_data"] DATASETS_TOOL "Gobiidae" [zip_name "Gobiidae"]
              (disk_with colliding_archive) (extracted colliding_archive)
              colliding_organizable (world_with colliding_archive) eq_refl)
    as (b & w' & Hrun & Hcds & _).
  exists b, w'. split; [exact Hrun |].
  destruct (Hcds [] ["temp_Gobiidae"; "first"; "speciesA"; "cds_from_genomic.fna"]
              [] ["temp_Gobiidae"; "second"; "speciesA"; "cds_from_genomic.fna"] [])
    as (Hb & c & Hc & Hd).
  - vm_compute. reflexivity.
  - reflexivity.
  - intros g Hg. apply elem_of_nil in Hg. destruct Hg.
  - split; [exact Hb |]. vm_compute in Hc. injection Hc as <-. exact Hd.
Defined.



(** ** The further properties at explicit inputs *)

(** A whole run with the mock tool: the program ends normally, has run
    its three commands, and the two files are in their folders. *)
Example main_with_the_mock_tool :
  (main mock_tool as_listed args_default empty_world).1 = Ok tt ∧
  calls (main mock_tool as_listed args_default empty_world).2
  = commands_of_a_run args_default ∧
  fs (main mock_tool as_listed args_default empty_world).2
    !! ["refseq_data"; "cds_files"; "speciesA_Gobiidae.fna"]
  = Some (File (Bytes ">cds")) ∧
  fs (main mock_tool as_listed args_default empty_world).2
    !! ["refseq_data"; "gff_files"; "sub_Gobiidae.gff"]
  = Some (File (Bytes "##gff")).
Proof. split_and!; vm_compute; reflexivity. Qed.

(** Witness of X4, at a report whose one key is [note]. *)
Lemma probe_missing_key_is_zero_witness :
  (get_available_species (tool_printing report_without_count)
     mock_downloader "Gobiidae" empty_world).1 = Ok [].
Proof.
  rewrite (probe_missing_key_is_zero (tool_printing report_without_count)
             mock_downloader "Gobiidae" empty_world
             report_without_count EmptyString ∅
             [("note", JString "record_count missing")]).
  - reflexivity.
  - reflexivity.
  - vm_compute. reflexivity.
  - vm_compute. reflexivity.
  - intros v Hv. apply list_elem_of_singleton in Hv. discriminate.
Defined.

(** Witness of X5, at a declared count of 12. *)
Lemma probe_follows_declared_count_witness :
  (get_available_species (tool_printing (count_report 12))
     mock_downloader "Gobiidae" empty_world).1 = Ok ["Gobiidae"].
Proof.
  rewrite (probe_follows_declared_count (tool_printing (count_report 12))
             mock_downloader "Gobiidae" empty_world 12 EmptyString ∅);
    [reflexivity | vm_compute; reflexivity | reflexivity].
Defined.

(** Witness of X9, on an empty disk with the default output directory. *)
Lemma init_idempotent_witness :
  init ["refseq_data"] DATASETS_TOOL
    (init ["refseq_data"] DATASETS_TOOL empty_world).2
  = (Ok mock_downloader, (init ["refseq_data"] DATASETS_TOOL empty_world).2).
Proof.
  apply (init_idempotent ["refseq_data"] DATASETS_TOOL empty_world).
  by_evaluation.
Defined.

(** Witness of X11, at the mock archive: the archive is gone. *)
Lemma true_means_cleaned_up_witness :
  fs (extract_and_organize_files as_listed mock_downloader
        [zip_name "Gobiidae"] "Gobiidae" (world_with mock_archive)).2
    !! [zip_name "Gobiidae"] = None.
Proof.
  apply (true_means_cleaned_up as_listed mock_downloader
           [zip_name "Gobiidae"] "Gobiidae" (world_with mock_archive)).
  by_evaluation.
Defined.

(** Witness of X12, at a file that holds a page of text. *)
Lemma unreadable_archive_fails_witness :
  (extract_and_organize_files as_listed mock_downloader
     [zip_name "Gobiidae"] "Gobiidae" (world_with (Bytes "<html>"))).1 = Ok false ∧
  stat (fs (extract_and_organize_files as_listed mock_downloader
              [zip_name "Gobiidae"] "Gobiidae" (world_with (Bytes "<html>"))).2)
       [zip_name "Gobiidae"]
  = Some (File (Bytes "<html>")).
Proof.
  rewrite (unreadable_archive_fails as_listed mock_downloader
             [zip_name "Gobiidae"] "Gobiidae" (world_with (Bytes "<html>"))
             (File (Bytes "<html>"))).
  - split; [reflexivity | vm_compute; reflexivity].
  - vm_compute. reflexivity.
  - intros members. discriminate.
Defined.

(** Witness of X13: a file of the working directory is left alone. *)
Lemma extractor_stays_in_its_workspace_witness :
  fs (extract_and_organize_files as_listed mock_downloader
        [zip_name "Gobiidae"] "Gobiidae" world_with_notes).2 !! ["notes.txt"]
  = Some (File (Bytes "keep")).
Proof.
  rewrite (extractor_stays_in_its_workspace as_listed as_listed_perm
             mock_downloader [zip_name "Gobiidae"] "Gobiidae" world_with_notes
             ["notes.txt"]).
  - vm_compute. reflexivity.
  - unfold workspace. by_evaluation.
  - discriminate.
Defined.

(** Witness of X14, on a disk without the output folders: the first move
    fails and the archive stays. *)
Lemma failed_run_keeps_archive_witness :
  (extract_and_organize_files as_listed mock_downloader
     [zip_name "Gobiidae"] "Gobiidae" bare_world).1 = Ok false ∧
  fs (extract_and_organize_files as_listed mock_downloader
        [zip_name "Gobiidae"] "Gobiidae" bare_world).2 !! [zip_name "Gobiidae"]
  = Some (File mock_archive).
Proof.
  destruct (failed_run_keeps_archive as_listed as_listed_perm mock_downloader
              [zip_name "Gobiidae"] "Gobiidae" bare_world
              (organize as_listed mock_downloader [zip_name "Gobiidae"] "Gobiidae"
                 (logged INFO (start_message [zip_name "Gobiidae"]) bare_world)).2
              FileNotFoundError) as [Hrun Hz].
  - vm_compute. reflexivity.
  - unfold workspace. by_evaluation.
  - by_evaluation.
  - rewrite Hrun. split; [reflexivity |]. cbn [snd fs logged]. rewrite Hz.
    vm_compute. reflexivity.
Defined.


(** Witness of X20, at a tool that refuses the download. *)
Lemma failed_download_skips_extraction_witness :
  (download_family_data tool_refusing_download as_listed mock_downloader
     "Gobiidae" true true empty_world).1 = Ok false.
Proof.
  rewrite (failed_download_skips_extraction tool_refusing_download as_listed
             mock_downloader "Gobiidae" true true empty_world after_probe
             1 EmptyString "connection refused" ∅).
  - reflexivity.
  - vm_compute. reflexivity.
  - reflexivity.
  - discriminate.
Defined.

(** Witness of X21, at a tool that exits with status 0 and writes nothing. *)
Lemma reported_success_without_archive_witness :
  (download_family_data (tool_printing (count_report 3)) as_listed mock_downloader
     "Gobiidae" true true empty_world).1 = Ok false.
Proof.
  rewrite (reported_success_without_archive (tool_printing (count_report 3))
             as_listed mock_downloader "Gobiidae" true true empty_world
             after_probe (count_report 3) EmptyString ∅).
  - reflexivity.
  - vm_compute. reflexivity.
  - reflexivity.
  - reflexivity.
Defined.


(** Witness of X24, at the run with the mock tool. *)
Lemma successful_run_is_clean_witness :
  fs (main mock_tool as_listed args_default empty_world).2
    !! [zip_name "Gobiidae"] = None.
Proof.
  refine (proj1 (successful_run_is_clean mock_tool as_listed args_default
                   empty_world _)).
  vm_compute. reflexivity.
Defined.

Lemma mock_cds_matches :
  rglob as_listed (temp_dir "Gobiidae") is_cds_name (extracted mock_archive)
  = [["temp_Gobiidae"; "speciesA"; "cds_from_genomic.fna"]].
Proof. vm_compute. reflexivity. Qed.

Lemma mock_cds_unique (g : path) :
  matched is_cds_name (temp_dir "Gobiidae") (extracted mock_archive) g →
  g = ["temp_Gobiidae"; "speciesA"; "cds_from_genomic.fna"].
Proof.
  intros (Hb & Hn & Hs).
  assert (g ∈ rglob as_listed (temp_dir "Gobiidae") is_cds_name
                (extracted mock_archive)) as Hin.
  { apply (elem_of_rglob as_listed as_listed_perm).
    split_and!; [vm_compute; reflexivity | exact Hb | exact Hn | exact Hs]. }
  rewrite mock_cds_matches in Hin. by apply list_elem_of_singleton in Hin.
Qed.

(** Witness of X17, at the coding-sequence file of the mock archive. *)
Lemma moved_files_keep_their_content_witness :
  ∃ b w',
    extract_and_organize_files as_listed mock_downloader
      [zip_name "Gobiidae"] "Gobiidae" (world_with mock_archive) = (Ok b, w') ∧
    fs w' !! ["refseq_data"; "cds_files"; "speciesA_Gobiidae.fna"]
    = Some (File (Bytes ">cds")).
Proof.
  destruct (moved_files_keep_their_content as_listed as_listed_perm
              ["refseq_data"] DATASETS_TOOL "Gobiidae" [zip_name "Gobiidae"]
              (disk_with mock_archive) (extracted mock_archive)
              mock_organizable (world_with mock_archive) eq_refl)
    as (b & w' & Hrun & Hcds & _).
  exists b, w'. split; [exact Hrun |].
  assert (matched is_cds_name (temp_dir "Gobiidae") (extracted mock_archive)
            ["temp_Gobiidae"; "speciesA"; "cds_from_genomic.fna"]) as Hm.
  { split_and!; [by_evaluation | reflexivity | vm_compute; eauto]. }
  etrans;
    [exact (Hcds _ Hm (λ g Hg _, mock_cds_unique g Hg))
    | vm_compute; reflexivity].
Defined.

(** Witness of X18, at the first member of the mock archive. *)
Lemma archive_members_reach_the_folders_witness :
  ∃ b w',
    extract_and_organize_files as_listed mock_downloader
      [zip_name "Gobiidae"] "Gobiidae" (world_with mock_archive) = (Ok b, w') ∧
    fs w' !! ["refseq_data"; "cds_files"; "speciesA_Gobiidae.fna"]
    = Some (File (Bytes ">cds")).
Proof.
  destruct (archive_members_reach_the_folders as_listed as_listed_perm
              ["refseq_data"] DATASETS_TOOL "Gobiidae" [zip_name "Gobiidae"]
              (disk_with mock_archive) (extracted mock_archive)
              mock_organizable (world_with mock_archive)
              [] [(["speciesB"; "sub"], "annotation.gff", Some (Bytes "##gff"))]
              ["speciesA"] "cds_from_genomic.fna" (Bytes ">cds") eq_refl)
    as (b & w' & Hrun & Hcds & _).
  - vm_compute. reflexivity.
  - intros m Hm. apply list_elem_of_singleton in Hm. subst m. discriminate.
  - exists b, w'. split; [exact Hrun |]. apply Hcds; [reflexivity |].
    intros g Hg _. by apply mock_cds_unique.
Defined.
